(** * PSD peak detection: a shallow embedding of the notebook's helper functions

    The notebook [voytek_PSD_peak_finding_code_3.5.15.ipynb] defines
    [norm], [peakdect], [find_peaks], [kmeans], [find_cluster], [bootstrap]
    and [final_check_for_output].  Each is embedded below as a Rocq function
    of the same name.

    Numbers.  Python floats are modelled by [fl]: the three special values
    the code manipulates ([NaN], [-Inf], [Inf]) and finite values carried as
    rationals.  The detector [peakdect] compares each sample with the
    difference [mx-delta] or the sum [mn+delta]; these are rounded to
    binary64 by [round64], as the machine rounds them, and a double is a
    rational that [round64] leaves unchanged.  The order statistics and the
    sums of the other functions are taken exactly.  An entry of [extcv_pks]
    is an integer or a float ([pynum]), because only an integer can index
    an array.  The Gaussian model function [norm] needs [exp], [sqrt] and
    [pi] and is modelled over the real numbers in its own module.

    Errors.  A Python exception is a [Raise] result; [sys.exit] raises
    [SystemExit].

    Randomness.  [np.random.choice] draws from an explicit generator state
    that is threaded through [bootstrap].  [sklearn]'s [KMeans] is an
    external routine: the check it makes on its input is embedded in
    [km_fit], and the clustering itself is a parameter of the section that
    embeds [kmeans] and [find_cluster]. *)

From Stdlib Require Import Reals Lra.
From Stdlib Require Import String List ZArith QArith Qround Qpower Bool Arith Lia Lqa.
From Stdlib Require Import Permutation Sorted.
Import ListNotations.

Open Scope Q_scope.

(** ** Floats *)

Inductive fl : Type :=
| NaN
| NInf
| Fin (q : Q)
| PInf.

Definition Qltb (p q : Q) : bool := negb (Qle_bool q p).

(** [a < b]; every comparison with [NaN] is false. *)
Definition flt (a b : fl) : bool :=
  match a, b with
  | NaN, _ | _, NaN => false
  | NInf, NInf => false
  | NInf, _ => true
  | Fin _, NInf => false
  | Fin p, Fin q => Qltb p q
  | Fin _, PInf => true
  | PInf, _ => false
  end.

(** [a <= b] *)
Definition fle (a b : fl) : bool :=
  match a, b with
  | NaN, _ | _, NaN => false
  | NInf, _ => true
  | Fin _, NInf => false
  | Fin p, Fin q => Qle_bool p q
  | Fin _, PInf => true
  | PInf, PInf => true
  | PInf, _ => false
  end.

Definition fgt (a b : fl) : bool := flt b a.
Definition fge (a b : fl) : bool := fle b a.

Definition is_nan (a : fl) : bool :=
  match a with NaN => true | _ => false end.

Definition fopp (a : fl) : fl :=
  match a with
  | NaN => NaN
  | NInf => PInf
  | Fin q => Fin (- q)
  | PInf => NInf
  end.

Definition fadd (a b : fl) : fl :=
  match a, b with
  | NaN, _ | _, NaN => NaN
  | NInf, PInf | PInf, NInf => NaN
  | NInf, _ | _, NInf => NInf
  | PInf, _ | _, PInf => PInf
  | Fin p, Fin q => Fin (p + q)
  end.

Definition fsub (a b : fl) : fl := fadd a (fopp b).

(** Sign of a rational: [Lt], [Eq] or [Gt] as it compares with zero. *)
Definition Qsign (q : Q) : comparison := (Qnum q ?= 0)%Z.

Definition inf_of_sign (s : comparison) : fl :=
  match s with
  | Lt => NInf
  | Eq => NaN
  | Gt => PInf
  end.

Definition fmul (a b : fl) : fl :=
  match a, b with
  | NaN, _ | _, NaN => NaN
  | Fin p, Fin q => Fin (p * q)
  | PInf, PInf | NInf, NInf => PInf
  | PInf, NInf | NInf, PInf => NInf
  | PInf, Fin q | Fin q, PInf => inf_of_sign (Qsign q)
  | NInf, Fin q | Fin q, NInf => inf_of_sign (CompOpp (Qsign q))
  end.

(** Division by a finite count, as [np.mean] does. *)
Definition fdivq (a : fl) (n : Q) : fl :=
  match a with
  | Fin p => if Qeq_bool n 0 then inf_of_sign (Qsign p) else Fin (p / n)
  | NaN => NaN
  | PInf => inf_of_sign (match Qsign n with Lt => Lt | _ => Gt end)
  | NInf => inf_of_sign (match Qsign n with Lt => Gt | _ => Lt end)
  end.

(** ** Rounding to binary64

    A sum or a difference of two doubles is the nearest double to the
    exact result, ties going to the even significand; beyond the largest
    double it is an infinity.  A double has 53 significant bits and no bit
    below [2^-1074]. *)

(** [floor (log2 q)], for a positive rational. *)
Definition Qlog2 (q : Q) : Z :=
  let l := (Z.log2 (Qnum q) - Z.log2 (Zpos (Qden q)))%Z in
  if Qle_bool (2 ^ l) q then l else (l - 1)%Z.

(** The exponent of the last place kept for a positive rational. *)
Definition ulp_exp (q : Q) : Z := Z.max (Qlog2 q - 52) (-1074).

(** The nearest integer, ties to even. *)
Definition rne (q : Q) : Z :=
  let f := Qfloor q in
  match Qcompare (q - inject_Z f) (1 # 2) with
  | Lt => f
  | Eq => if Z.even f then f else (f + 1)%Z
  | Gt => (f + 1)%Z
  end.

(** The nearest double to a positive rational, before overflow. *)
Definition round_pos (q : Q) : Q :=
  inject_Z (rne (q / 2 ^ ulp_exp q)) * 2 ^ ulp_exp q.

(** The float nearest to a rational. *)
Definition round64 (q : Q) : fl :=
  match Qcompare q 0 with
  | Eq => Fin 0
  | Gt => if Qle_bool (2 ^ 1024) (round_pos q) then PInf
          else Fin (round_pos q)
  | Lt => if Qle_bool (2 ^ 1024) (round_pos (- q)) then NInf
          else Fin (- round_pos (- q))
  end.

(** The float nearest to an exact result. *)
Definition fround (a : fl) : fl :=
  match a with
  | Fin q => round64 q
  | _ => a
  end.

(** [a - b] and [a + b] on floats. *)
Definition fsub64 (a b : fl) : fl := fround (fsub a b).
Definition fadd64 (a b : fl) : fl := fround (fadd a b).

(** The double a decimal literal denotes. *)
Definition double (q : Q) : Q :=
  match round64 q with
  | Fin r => r
  | _ => 0
  end.

(** A rational that is a double; a float that is one of the special values
    or a double. *)
Definition is_double (q : Q) : bool :=
  match round64 q with
  | Fin r => Qeq_bool r q
  | _ => false
  end.

Definition is_float (a : fl) : bool :=
  match a with
  | Fin q => is_double q
  | _ => true
  end.

(** ** Exceptions *)

Inductive exn : Type :=
| SystemExit (msg : string)
| IndexError
| ValueError.

Inductive result (A : Type) : Type :=
| Ok (a : A)
| Raise (e : exn).
Arguments Ok {A} a.
Arguments Raise {A} e.

Definition bind {A B : Type} (r : result A) (k : A -> result B) : result B :=
  match r with
  | Ok a => k a
  | Raise e => Raise e
  end.

Notation "x <- c ;; k" := (bind c (fun x => k))
  (at level 61, c at next level, right associativity).

(** ** The extrema detector [peakdect] *)

(** A Python argument that [isscalar] tells apart.  In [peakdect] an array
    never reaches the comparison [delta <= 0]. *)
Inductive pyarg : Type :=
| PyScalar (d : Q)
| PyArray (a : list Q).

Definition isscalar (a : pyarg) : bool :=
  match a with PyScalar _ => true | PyArray _ => false end.

(** The local variables of the loop of [peakdect]. *)
Record pd_state : Type := mk_pd {
  mn : fl;
  mx : fl;
  mnpos : fl;
  mxpos : fl;
  lookformax : bool;
  maxtab : list (fl * fl);
  mintab : list (fl * fl)
}.

(** [mn, mx = Inf, -Inf]; [mnpos, mxpos = NaN, NaN]; [lookformax = True]. *)
Definition pd_init : pd_state := mk_pd PInf NInf NaN NaN true [] [].

(** One iteration of [for i in arange(len(v))], with [xi = x[i]] and
    [this = v[i]].  The thresholds [mx-delta] and [mn+delta] are floats:
    the sample is compared with the rounded difference and the rounded
    sum. *)
Definition pd_step (delta : Q) (s : pd_state) (xi this : fl) : pd_state :=
  let s1 :=
    if fgt this (mx s)
    then mk_pd (mn s) this (mnpos s) xi (lookformax s) (maxtab s) (mintab s)
    else s in
  let s2 :=
    if flt this (mn s1)
    then mk_pd this (mx s1) xi (mxpos s1) (lookformax s1) (maxtab s1) (mintab s1)
    else s1 in
  if lookformax s2 then
    if flt this (fsub64 (mx s2) (Fin delta))
    then mk_pd this (mx s2) xi (mxpos s2) false
               (maxtab s2 ++ [(mxpos s2, mx s2)]) (mintab s2)
    else s2
  else
    if fgt this (fadd64 (mn s2) (Fin delta))
    then mk_pd (mn s2) this (mnpos s2) xi true
               (maxtab s2) (mintab s2 ++ [(mnpos s2, mn s2)])
    else s2.

(** The loop, over the samples paired with their coordinates; the two
    sequences have the same length when the loop is reached. *)
Definition pd_loop (delta : Q) (s : pd_state) (xv : list (fl * fl)) : pd_state :=
  fold_left (fun st p => pd_step delta st (fst p) (snd p)) xv s.

(** [arange(n)] *)
Definition arange (n : nat) : list fl :=
  map (fun i => Fin (inject_Z (Z.of_nat i))) (seq 0 n).

(** [if x is None: x = arange(len(v))] *)
Definition default_x (x : option (list fl)) (v : list fl) : list fl :=
  match x with
  | None => arange (length v)
  | Some x => x
  end.

Definition peakdect (v : list fl) (delta : pyarg) (x : option (list fl))
  : result (list (fl * fl) * list (fl * fl)) :=
  let x := default_x x v in
  if negb (length v =? length x)%nat then
    Raise (SystemExit "Input vectors v and x must have same length")
  else if negb (isscalar delta) then
    Raise (SystemExit "Input argument delta must be a scalar")
  else
    match delta with
    | PyScalar d =>
        if Qle_bool d 0 then
          Raise (SystemExit "Input argument delta must be positive")
        else
          let s := pd_loop d pd_init (combine x v) in
          Ok (maxtab s, mintab s)
    | PyArray _ => Raise ValueError
    end.

(** ** The restriction layer [find_peaks] *)

(** [try: body except Exception: handler].  [SystemExit] is not an
    [Exception] and passes through. *)
Definition try_except {A : Type} (body : result A) (handler : A) : result A :=
  match body with
  | Ok a => Ok a
  | Raise (SystemExit msg) => Raise (SystemExit msg)
  | Raise _ => Ok handler
  end.

(** [array(tab)[:,0]]: the table of an empty detection is a one-dimensional
    array of shape (0,), and indexing it with two indices raises. *)
Definition column0 (tab : list (fl * fl)) : result (list fl) :=
  match tab with
  | [] => Raise IndexError
  | _ => Ok (map fst tab)
  end.

(** [np.uint32] of a float: truncation toward zero, wrapped to 32 bits. *)
Definition uint32 (a : fl) : Z :=
  match a with
  | Fin q => (Z.quot (Qnum q) (Zpos (Qden q))) mod 2 ^ 32
  | _ => 0
  end%Z.

(** [[np.uint32(i) for i in array(tab)[:,0] if i <= 30]] *)
Definition within_band (tab : list (fl * fl)) : result (list Z) :=
  col <- column0 tab ;;
  Ok (map uint32 (filter (fun i => fle i (Fin 30)) col)).

Definition find_peaks (flatspec : list fl) (sliding_window : pyarg) (f : list fl)
  : result (list Z * list Z) :=
  tabs <- peakdect flatspec sliding_window (Some f) ;;
  peakind <- try_except (within_band (fst tabs)) [(-1)%Z] ;;
  valleyind <- try_except (within_band (snd tabs)) [(-1)%Z] ;;
  Ok (peakind, valleyind).

(** ** Vocabulary for the detector's alternation *)

(** What one iteration may do to the two tables: nothing, confirm a maximum
    (only while seeking one), or confirm a minimum (only while seeking one). *)
Inductive pd_event (s s' : pd_state) : Prop :=
| ev_none :
    lookformax s' = lookformax s ->
    maxtab s' = maxtab s -> mintab s' = mintab s -> pd_event s s'
| ev_max (e : fl * fl) :
    lookformax s = true -> lookformax s' = false ->
    maxtab s' = maxtab s ++ [e] -> mintab s' = mintab s -> pd_event s s'
| ev_min (e : fl * fl) :
    lookformax s = false -> lookformax s' = true ->
    maxtab s' = maxtab s -> mintab s' = mintab s ++ [e] -> pd_event s s'.

(** While seeking a maximum the tables are level; while seeking a minimum
    the maxima lead by one. *)
Definition pd_inv (s : pd_state) : Prop :=
  (lookformax s = true /\ length (maxtab s) = length (mintab s)) \/
  (lookformax s = false /\ length (maxtab s) = S (length (mintab s))).

(** ** Vocabulary for unimodal inputs *)

Fixpoint strictly_increasing (l : list Q) : Prop :=
  match l with
  | a :: ((b :: _) as t) => a < b /\ strictly_increasing t
  | _ => True
  end.

Fixpoint strictly_decreasing (l : list Q) : Prop :=
  match l with
  | a :: ((b :: _) as t) => b < a /\ strictly_decreasing t
  | _ => True
  end.

(** The samples [up ++ peak :: down] rise strictly to [peak] and then fall
    strictly, and both the rise (from the first sample) and the fall (to the
    last sample) exceed [delta]. *)
Definition rises_then_falls (delta : Q) (up : list Q) (peak : Q) (down : list Q)
  : Prop :=
  up <> [] /\ down <> [] /\
  strictly_increasing (up ++ [peak]) /\
  strictly_decreasing (peak :: down) /\
  delta < peak - hd peak up /\
  delta < peak - last down peak.

(** The same shape with the fall measured as the detector measures it: the
    last sample lies below the float [peak - delta]. *)
Definition rises_then_falls64 (delta : Q) (up : list Q) (peak : Q)
           (down : list Q) : Prop :=
  up <> [] /\ down <> [] /\
  strictly_increasing (up ++ [peak]) /\
  strictly_decreasing (peak :: down) /\
  delta < peak - hd peak up /\
  flt (Fin (last down peak)) (fsub64 (Fin peak) (Fin delta)) = true.

(** ** Order statistics: [np.sort], [np.median], [np.percentile], [np.argmax] *)

(** The order [np.sort] uses: ascending, [NaN] last. *)
Definition sort_le (a b : fl) : bool := is_nan b || fle a b.

Fixpoint insert (a : fl) (l : list fl) : list fl :=
  match l with
  | [] => [a]
  | b :: t => if sort_le a b then a :: l else b :: insert a t
  end.

Fixpoint np_sort (l : list fl) : list fl :=
  match l with
  | [] => []
  | a :: t => insert a (np_sort t)
  end.

(** [np.median]: [NaN] if the array is empty or holds a [NaN]; otherwise the
    middle element of the sorted array, or the mean of the two middle ones. *)
Definition median (a : list fl) : fl :=
  let sz := length a in
  let part := np_sort a in
  if existsb is_nan a then NaN
  else if (sz =? 0)%nat then NaN
  else if Nat.even sz
       then fdivq (fadd (nth (sz / 2 - 1) part NaN) (nth (sz / 2) part NaN)) 2
       else nth (sz / 2) part NaN.

(** [np.percentile(a, q)]: [NaN] as soon as the array holds a [NaN];
    otherwise the linear interpolation between the two nearest ranks of the
    sorted array. *)
Definition percentile (a : list fl) (q : Q) : fl :=
  let ap := np_sort a in
  let Nx := Z.of_nat (length a) in
  let indices := (q / 100) * inject_Z (Nx - 1) in
  let indices_below := Qfloor indices in
  let indices_above := Z.min (indices_below + 1) (Nx - 1) in
  let weights_above := indices - inject_Z indices_below in
  let weights_below := 1 - weights_above in
  if existsb is_nan a then NaN
  else
    fadd (fmul (nth (Z.to_nat indices_below) ap NaN) (Fin weights_below))
         (fmul (nth (Z.to_nat indices_above) ap NaN) (Fin weights_above)).

(** The scan of [np.argmax]: a later element replaces the running maximum
    when it is not [<=] to it; a [NaN] running maximum ends the scan. *)
Fixpoint argmax_from (l : list fl) (i : nat) (best : fl) (best_i : nat) : nat :=
  match l with
  | [] => best_i
  | a :: t =>
      if is_nan best then best_i
      else if negb (fle a best) then argmax_from t (S i) a i
      else argmax_from t (S i) best best_i
  end.

Definition argmax (l : list fl) : result nat :=
  match l with
  | [] => Raise ValueError
  | a :: t => Ok (argmax_from t 1 a 0)
  end.

(** ** State and exceptions together *)

Definition SE (S A : Type) : Type := S -> result A * S.

Definition retS {S A : Type} (a : A) : SE S A := fun s => (Ok a, s).

Definition raiseS {S A : Type} (e : exn) : SE S A := fun s => (Raise e, s).

Definition bindS {S A B : Type} (c : SE S A) (k : A -> SE S B) : SE S B :=
  fun s =>
    match c s with
    | (Ok a, s') => k a s'
    | (Raise e, s') => (Raise e, s')
    end.

Notation "x <~ c ;; k" := (bindS c (fun x => k))
  (at level 61, c at next level, right associativity).

(** ** The cluster-count selector [find_cluster] *)

Section ClusterCount.

(** [sklearn.cluster.KMeans] is an external, randomly initialised routine:
    fitting the pool [X] with [n_clusters] clusters yields the cluster
    centres and the inertia, or raises, and advances the generator. *)
Variable G : Type.
Variable KMeans_fit : list Q -> nat -> SE G (list Q * Q).

(** [km.fit(X)]: the routine first checks its input and refuses, with a
    [ValueError], a pool that holds fewer observations than the clusters
    asked for (an empty pool included); only then does it cluster. *)
Definition km_fit (X : list Q) (n_clusters : nat) : SE G (list Q * Q) :=
  if (length X <? n_clusters)%nat then raiseS ValueError
  else KMeans_fit X n_clusters.

Definition kmeans (X : list Q) (cluster_size : nat) : SE G (list Q * Q) :=
  km <~ km_fit X cluster_size ;;
  retS (fst km, snd km).

(** [sum(((x-med)*(x-med) for x in peaks))] *)
Definition zeroSoS (peaks : list Q) (med : fl) : fl :=
  fold_left
    (fun acc x => fadd acc (fmul (fsub (Fin x) med) (fsub (Fin x) med)))
    peaks (Fin 0).

(** [for cluster_size in range(1, 6)], appending each inertia. *)
Fixpoint SoS_loop (X : list Q) (sizes : list nat) (SoS_list : list fl)
  : SE G (list fl) :=
  match sizes with
  | [] => retS SoS_list
  | cluster_size :: rest =>
      r <~ kmeans X cluster_size ;;
      SoS_loop X rest (SoS_list ++ [Fin (snd r)])
  end.

(** [np.array(SoS_list[:-1]) - np.array(SoS_list[1:])] *)
Definition diff_consecutive (l : list fl) : list fl :=
  map (fun p => fsub (fst p) (snd p)) (combine (removelast l) (tl l)).

Definition find_cluster (X : list Q) : SE G (nat * list fl) :=
  let peaks := X in
  let med := median (map Fin peaks) in
  SoS_list <~ SoS_loop X (seq 1 5) [zeroSoS peaks med] ;;
  let dx := diff_consecutive SoS_list in
  match argmax dx with
  | Ok SoS_knee => retS ((SoS_knee + 2)%nat, SoS_list)
  | Raise e => raiseS e
  end.

End ClusterCount.

(** A stand-in clustering for running the selector: inertia [12 / k^2]. *)
Definition toy_KMeans (X : list Q) (k : nat) : SE unit (list Q * Q) :=
  retS ([], 12 / inject_Z (Z.of_nat (k * k))).

(** ** Vocabulary for the cluster-count selector *)

(** [j] is the first index at which [d] is maximal. *)
Definition first_max (d : list Q) (j : nat) : Prop :=
  (j < length d)%nat /\
  (forall i, (i < length d)%nat -> nth i d 0 <= nth j d 0) /\
  (forall i, (i < j)%nat -> nth i d 0 < nth j d 0).


(** The sum of the squared deviations of the observations from [m]. *)
Fixpoint sum_sq_dev (X : list Q) (m : Q) : Q :=
  match X with
  | [] => 0
  | x :: t => (x - m) * (x - m) + sum_sq_dev t m
  end.

(** ** The bootstrap *)

(** The random generator of [np.random]: an unbounded supply of raw draws
    and the number already consumed. *)
Record rng : Type := mk_rng {
  draws : nat -> nat;
  cursor : nat
}.

(** [np.random.choice(a, size=size)]: [size] elements of [a], drawn with
    replacement.  An empty [a] raises, unless no sample is taken: with
    [size = 0] the result is the empty sample, whatever [a] is. *)
Definition choice (a : list fl) (size : nat) : SE rng (list fl) :=
  fun g =>
    match a, size with
    | [], S _ => (Raise ValueError, g)
    | _, _ =>
        (Ok (map (fun j => nth (draws g (cursor g + j) mod length a) a NaN)
                 (seq 0 size)),
         mk_rng (draws g) (cursor g + size))
    end.

(** [int(0.8*total_points)] *)
Definition sample_size (total_points : nat) : nat :=
  Z.to_nat (Qfloor ((8 # 10) * inject_Z (Z.of_nat total_points))).

(** [for i in range(0,1000)], with [n] iterations left. *)
Fixpoint bootstrap_loop (data : list fl) (n : nat) (bootstrap_dist : list fl)
  : SE rng (list fl) :=
  match n with
  | O => retS bootstrap_dist
  | S n' =>
      let total_points := length data in
      data_sample <~ choice data (sample_size total_points) ;;
      bootstrap_loop data n' (bootstrap_dist ++ [median data_sample])
  end.

Definition bootstrap (data : list fl) : SE rng (list fl) :=
  bootstrap_dist <~ bootstrap_loop data 1000 [] ;;
  retS [median bootstrap_dist;
        percentile bootstrap_dist (25 # 10);
        percentile bootstrap_dist (975 # 10)].

(** ** The consensus aggregator [final_check_for_output] *)

(** [l[i]] *)
Definition getitem {A : Type} (l : list A) (i : nat) : result A :=
  match nth_error l i with
  | Some a => Ok a
  | None => Raise IndexError
  end.

(** [for i in range(len(l))] with the element [l[i]] at hand. *)
Fixpoint for_each {A St : Type} (f : nat -> A -> St -> result St)
         (l : list A) (i : nat) (s : St) : result St :=
  match l with
  | [] => Ok s
  | a :: t => s' <- f i a s ;; for_each f t (S i) s'
  end.

(** An entry of [extcv_pks]: an integer, or a float.  Both compare with
    [30] and [0]; only an integer can index the array [flatspec]. *)
Inductive pynum : Type :=
| PyInt (z : Z)
| PyFloat (a : fl).

(** The float a number compares as. *)
Definition as_float (p : pynum) : fl :=
  match p with
  | PyInt z => Fin (inject_Z z)
  | PyFloat a => a
  end.

Definition is_int (p : pynum) : bool :=
  match p with
  | PyInt _ => true
  | PyFloat _ => false
  end.

(** The body of the two nested loops that build the rasters.  The center
    passes the band test first; [flatspec[pk]] then takes an integer [pk]
    as the index and raises [IndexError] on a float, which is no valid
    index of an array. *)
Definition raster_step (extcv_std : list (list fl)) (flatspec : list fl)
           (cv i : nat) (pk : pynum) (acc : list Q * list fl)
  : result (list Q * list fl) :=
  if fle (as_float pk) (Fin 30) && fge (as_float pk) (Fin 0) then
    match pk with
    | PyInt z =>
        f <- getitem flatspec (Z.to_nat z) ;;
        if fgt f (Fin 0) then
          row <- getitem extcv_std cv ;;
          sd <- getitem row i ;;
          Ok (fst acc ++ [inject_Z z], snd acc ++ [sd])
        else Ok acc
    | PyFloat _ => Raise IndexError
    end
  else Ok acc.

Definition rasters (extcv_pks : list (list pynum)) (extcv_std : list (list fl))
           (flatspec : list fl)
  : result (list Q * list fl) :=
  for_each
    (fun cv row acc =>
       for_each (fun i pk acc => raster_step extcv_std flatspec cv i pk acc)
                row 0%nat acc)
    extcv_pks 0%nat ([], []).

Definition list_min (x : Q) (l : list Q) : Q :=
  fold_left (fun m y => if Qltb y m then y else m) l x.

Definition list_max (x : Q) (l : list Q) : Q :=
  fold_left (fun m y => if Qltb m y then y else m) l x.

(** The range [np.histogram] spans: the observed range, widened by a half
    on each side when it is a single point, and [(0, 1)] for no data. *)
Definition hist_range (a : list Q) : Q * Q :=
  match a with
  | [] => (0, 1)
  | x :: t =>
      let lo := list_min x t in
      let hi := list_max x t in
      if Qeq_bool lo hi then (lo - (1 # 2), hi + (1 # 2)) else (lo, hi)
  end.

(** [np.linspace(lo, hi, bins + 1)] *)
Definition linspace (lo hi : Q) (bins : nat) : list Q :=
  map (fun i => lo + inject_Z (Z.of_nat i) * ((hi - lo) / inject_Z (Z.of_nat bins)))
      (seq 0 (S bins)).

(** Bin [i] of [np.histogram] is half-open, [edge i <= x < edge (i+1)],
    except the last, which also holds its right edge. *)
Definition in_bin (edges : list Q) (bins i : nat) (x : Q) : bool :=
  Qle_bool (nth i edges 0) x &&
  (if (S i =? bins)%nat
   then Qle_bool x (nth (S i) edges 0)
   else Qltb x (nth (S i) edges 0)).

Definition np_histogram (a : list Q) (bins : nat) : list nat * list Q :=
  let edges := linspace (fst (hist_range a)) (snd (hist_range a)) bins in
  (map (fun i => length (filter (in_bin edges bins i) a)) (seq 0 bins), edges).

Definition bin_thresh : Q := 5 # 100.

(** The ranges of the bins that hold at least [bin_thresh] of the raster. *)
Definition valid_peak_range (bin_count : list nat) (bin_edge : list Q)
           (total : nat) : list (Q * Q) :=
  flat_map
    (fun i =>
       if Qle_bool (bin_thresh * inject_Z (Z.of_nat total))
                   (inject_Z (Z.of_nat (nth i bin_count 0%nat)))
       then [(nth i bin_edge 0, nth (S i) bin_edge 0)]
       else [])
    (seq 0 (length bin_count)).

(** [[i for i in range(len(raster)) if low <= raster[i] <= high]] *)
Definition temp_ind (raster : list Q) (low high : Q) : list nat :=
  filter (fun i => Qle_bool low (nth i raster 0) && Qle_bool (nth i raster 0) high)
         (seq 0 (length raster)).

(** [np.array(l)[ind]] *)
Definition take {A : Type} (l : list A) (ind : list nat) (d : A) : list A :=
  map (fun i => nth i l d) ind.

Definition sorted_params (pks_raster : list Q) (std_raster : list fl)
           (ranges : list (Q * Q)) : list (list fl * list fl) :=
  map (fun r =>
         let ind := temp_ind pks_raster (fst r) (snd r) in
         (map Fin (take pks_raster ind 0), take std_raster ind NaN))
      ranges.

(** [for j in range(len(valid_peak_range))] *)
Fixpoint consensus_loop (params : list (list fl * list fl))
         (final_peaks final_stds : list fl) : SE rng (list fl * list fl) :=
  match params with
  | [] => retS (final_peaks, final_stds)
  | (pks, stds) :: rest =>
      let med_peak := median pks in
      let med_std := median stds in
      if fle med_std (Fin 10) then
        cf_params <~ bootstrap pks ;;
        bw_params <~ bootstrap (map (fmul (Fin (2355 # 1000))) stds) ;;
        consensus_loop rest (final_peaks ++ [nth 0 cf_params NaN])
                       (final_stds ++ [nth 0 bw_params NaN])
      else consensus_loop rest final_peaks final_stds
  end.

Definition final_check_for_output (extcv_pks : list (list pynum))
           (extcv_std : list (list fl))
           (flatspec : list fl) : SE rng (list fl * list fl) :=
  fun g =>
    match rasters extcv_pks extcv_std flatspec with
    | Raise e => (Raise e, g)
    | Ok (extcv_pks_raster, extcv_std_raster) =>
        let (bin_count, bin_edge) := np_histogram extcv_pks_raster 5 in
        let ranges :=
          valid_peak_range bin_count bin_edge (length extcv_pks_raster) in
        consensus_loop
          (sorted_params extcv_pks_raster extcv_std_raster ranges) [] [] g
    end.

(** ** Vocabulary for the consensus bins *)

(** The fitted widths of the survivors that [np.histogram] counts in bin [i]. *)
Definition bin_widths (pks_raster : list Q) (std_raster : list fl)
           (edges : list Q) (i : nat) : list fl :=
  map snd (filter (fun p => in_bin edges 5 i (fst p))
                  (combine pks_raster std_raster)).

(** The test of the final loop on one retained bin: [med_std <= 10]. *)
Definition passes_width (p : list fl * list fl) : bool :=
  fle (median (snd p)) (Fin 10).

(** The bins the final loop sees, with their members' centers and widths. *)
Definition retained_bins (pks_raster : list Q) (std_raster : list fl)
  : list (list fl * list fl) :=
  sorted_params pks_raster std_raster
    (valid_peak_range (fst (np_histogram pks_raster 5))
                      (snd (np_histogram pks_raster 5))
                      (length pks_raster)).

(** Fitted centers and widths of one repetition in which two components sit
    on the edge between the first two bins. *)
Definition edge_pks : list (list pynum) :=
  [[PyInt 0; PyInt 1; PyInt 1; PyInt 5; PyInt 5]].
Definition edge_std : list (list fl) := [[Fin 20; Fin 1; Fin 1; Fin 1; Fin 1]].
Definition edge_flatspec : list fl := repeat (Fin 1) 49.

(** ** The Gaussian model function [norm] *)

Module GaussianModel.

Local Open Scope R_scope.

(** [scipy.stats.norm.pdf(x, loc=loc, scale=scale)], for a positive
    [scale] (scipy answers [nan] otherwise). *)
Definition norm_pdf (x loc scale : R) : R :=
  exp (- (((x - loc) / scale) * ((x - loc) / scale)) / 2) / sqrt (2 * PI) / scale.

(** [fitdat] starts as the zero-dimensional [np.array(0)] and becomes a
    vector as soon as a curve is added to it. *)
Inductive ndarray : Type :=
| Scalar (r : R)
| Vector (l : list R).

(** Addition with broadcasting of a scalar. *)
Definition nd_add (a b : ndarray) : ndarray :=
  match a, b with
  | Scalar r, Scalar s => Scalar (r + s)
  | Scalar r, Vector l => Vector (map (fun y => r + y) l)
  | Vector l, Scalar s => Vector (map (fun y => y + s) l)
  | Vector l, Vector m => Vector (map (fun p => fst p + snd p) (combine l m))
  end.

(** The value an array holds at position [j], a scalar holding its value
    everywhere. *)
Definition nd_get (a : ndarray) (j : nat) : R :=
  match a with
  | Scalar r => r
  | Vector l => nth j l 0
  end.

(** [int(r)]: truncation toward zero. *)
Definition int_of (r : R) : Z :=
  if Rle_dec 0 r then Int_part r else (- Int_part (- r))%Z.

(** [for peaki in range(number_of_gaussians)] *)
Fixpoint norm_loop (x : list R) (args : list R) (number_of_gaussians : nat)
         (peaks : list nat) (fitdat : ndarray) : result ndarray :=
  match peaks with
  | [] => Ok fitdat
  | peaki :: rest =>
      amp <- getitem args (peaki + 2 * number_of_gaussians) ;;
      loc <- getitem args peaki ;;
      scale <- getitem args (peaki + number_of_gaussians) ;;
      norm_loop x args number_of_gaussians rest
        (nd_add fitdat
           (Vector (map (fun xi => amp * norm_pdf xi loc scale) x)))
  end.

Definition norm (x : list R) (args : list R) : result ndarray :=
  match rev args with
  | [] => Raise IndexError
  | last_arg :: _ =>
      let number_of_gaussians := Z.to_nat (int_of last_arg) in
      norm_loop x args number_of_gaussians (seq 0 number_of_gaussians) (Scalar 0)
  end.

(** The sum of the normal density curves with the given centers and
    standard deviations, weighted by the amplitudes, at the point [x]. *)
Fixpoint mixture (centers stds amps : list R) (x : R) : R :=
  match centers, stds, amps with
  | c :: cs, s :: ss, a :: rest => a * norm_pdf x c s + mixture cs ss rest x
  | _, _, _ => 0
  end.

(** [fitdat] is the initial scalar or a vector as long as [x]. *)
Definition shaped (x : list R) (fitdat : ndarray) : Prop :=
  match fitdat with
  | Scalar _ => True
  | Vector l => length l = length x
  end.

(** The parameter vector [[center_1..center_k, std_1..std_k, amp_1..amp_k, k]]. *)
Definition pack (centers stds amps : list R) (k : nat) : list R :=
  centers ++ stds ++ amps ++ [INR k].

End GaussianModel.

(** One repetition with forty components: one center at 0, twenty on the
    edge between the first two bins, nineteen at 5; every width is 1. *)
Definition support_centers : list Z := (0 :: repeat 1 20 ++ repeat 5 19)%Z.
Definition support_raster : list Q := map inject_Z support_centers.
Definition support_pks : list (list pynum) := [map PyInt support_centers].
Definition support_std : list (list fl) := [repeat (Fin 1) 40].

(** ** Vocabulary for the detector's tables *)

(** The running extrema and every table entry are samples of [L], each at
    its own coordinate; the running extrema may still be the initial ones. *)
Definition from_input (L : list (fl * fl)) (s : pd_state) : Prop :=
  (mx s = NInf \/ In (mxpos s, mx s) L) /\
  (mn s = PInf \/ In (mnpos s, mn s) L) /\
  Forall (fun e => In e L) (maxtab s) /\
  Forall (fun e => In e L) (mintab s).

Fixpoint non_decreasing (l : list Q) : Prop :=
  match l with
  | a :: ((b :: _) as t) => a <= b /\ non_decreasing t
  | _ => True
  end.

(** The two tables read in detection order, maximum first: [P] holds
    between each maximum and the minimum confirmed after it, [R] between
    each minimum and the maximum confirmed after it. *)
Definition alternating (P R : fl * fl -> fl * fl -> Prop)
           (maxt mint : list (fl * fl)) : Prop :=
  (forall k M m,
      nth_error maxt k = Some M -> nth_error mint k = Some m -> P M m) /\
  (forall k M m,
      nth_error maxt (S k) = Some M -> nth_error mint k = Some m -> R m M).

(** Every minimum is more than [delta] below the maximum confirmed before it
    and below the maximum confirmed after it. *)
Definition prominent (delta : Q) : list (fl * fl) -> list (fl * fl) -> Prop :=
  alternating
    (fun M m => flt (snd m) (fsub (snd M) (Fin delta)) = true)
    (fun m M => flt (fadd (snd m) (Fin delta)) (snd M) = true).

(** The coordinates increase along the detection order. *)
Definition ordered_by_coordinate : list (fl * fl) -> list (fl * fl) -> Prop :=
  alternating
    (fun M m => flt (fst M) (fst m) = true)
    (fun m M => flt (fst m) (fst M) = true).

(** The invariant behind [prominent]: the running minimum is already more
    than [d] below the maximum it follows, and the running maximum already
    more than [d] above the minimum it follows. *)
Definition prom_inv (d : Q) (s : pd_state) : Prop :=
  prominent d (maxtab s) (mintab s) /\
  pd_inv s /\
  (lookformax s = false ->
   exists M, nth_error (maxtab s) (length (mintab s)) = Some M /\
             flt (mn s) (fsub (snd M) (Fin d)) = true) /\
  (lookformax s = true ->
   forall k m, nth_error (mintab s) k = Some m ->
               S k = length (mintab s) ->
               flt (fadd (snd m) (Fin d)) (mx s) = true).

(** The invariant behind [ordered_by_coordinate], with [c] the last
    coordinate read. *)
Definition ord_inv (c : Q) (s : pd_state) : Prop :=
  ((mxpos s = NaN /\ mx s = NInf) \/ exists p, mxpos s = Fin p /\ p <= c) /\
  ((mnpos s = NaN /\ mn s = PInf) \/ exists p, mnpos s = Fin p /\ p <= c) /\
  ordered_by_coordinate (maxtab s) (mintab s) /\
  pd_inv s /\
  (lookformax s = false ->
   exists M, nth_error (maxtab s) (length (mintab s)) = Some M /\
             flt (fst M) (mnpos s) = true) /\
  (lookformax s = true ->
   forall k m, nth_error (mintab s) k = Some m ->
               S k = length (mintab s) ->
               flt (fst m) (mxpos s) = true).

(** ** Pooling the detections: the slots of a fold and [transform_data] *)

(** [vect = np.zeros(12); vect[0:len(found)] = found]: the detections
    followed by zeros, twelve slots in all; more than twelve detections do
    not fit the slice and the assignment raises. *)
Definition fill_slots (found : list Z) : result (list fl) :=
  if (length found <=? 12)%nat
  then Ok (map (fun z => Fin (inject_Z z)) found ++
           repeat (Fin 0) (12 - length found))
  else Raise ValueError.

(** [deltas = [0.03, 0.05, 0.07]] *)
Definition deltas : list Q :=
  [double (3 # 100); double (5 # 100); double (7 # 100)].

(** [for d in range(0,len(deltas))]: one row of peaks and one row of
    valleys for each threshold. *)
Fixpoint detect_rows (flatspec_train freq_vector : list fl) (ds : list Q)
  : result (list (list fl) * list (list fl)) :=
  match ds with
  | [] => Ok ([], [])
  | delta :: rest =>
      found <- find_peaks flatspec_train (PyScalar delta) freq_vector ;;
      peaks_temp_vect <- fill_slots (fst found) ;;
      valleys_temp_vect <- fill_slots (snd found) ;;
      more <- detect_rows flatspec_train freq_vector rest ;;
      Ok (peaks_temp_vect :: fst more, valleys_temp_vect :: snd more)
  end.

(** The detections of one resampling split, given the flattened spectrum of
    its training trials: [peaks_cv_temp] and [valleys_cv_temp]. *)
Definition detect_fold (flatspec_train freq_vector : list fl)
  : result (list (list fl) * list (list fl)) :=
  detect_rows flatspec_train freq_vector deltas.

Fixpoint map_result {A B : Type} (f : A -> result B) (l : list A)
  : result (list B) :=
  match l with
  | [] => Ok []
  | a :: t => b <- f a ;; bs <- map_result f t ;; Ok (b :: bs)
  end.

(** [np.array(params)] has three dimensions only when every fold has the
    same, positive number of rows and every row has the same length;
    otherwise it is an array of fewer dimensions. *)
Definition is_3d (params : list (list (list fl))) : bool :=
  match params with
  | ((row :: _) as fold) :: _ =>
      forallb (fun f => (length f =? length fold)%nat &&
                        forallb (fun r => (length r =? length row)%nat) f)
              params
  | _ => false
  end.

(** [[elem for sublist in map(list, peaks_np[:,k,:]) for elem in sublist
     if elem >= 0]]; the three-index selection raises on an array of fewer
    than three dimensions, and when it has no row [k]. *)
Definition transform_row (params : list (list (list fl))) (k : nat)
  : result (list fl) :=
  if is_3d params then
    rows <- map_result (fun fold => getitem fold k) params ;;
    Ok (filter (fun elem => fge elem (Fin 0)) (concat rows))
  else Raise IndexError.

(** [transform_data]: the pool [X] and the three rows it is made of.  An
    empty [params] is a one-dimensional array, which the three-index
    selection refuses. *)
Definition transform_data (params : list (list (list fl)))
  : result (list fl * list fl * list fl * list fl) :=
  match params with
  | [] => Raise IndexError
  | _ =>
      peaks1 <- transform_row params 0 ;;
      peaks2 <- transform_row params 1 ;;
      peaks3 <- transform_row params 2 ;;
      let peaks_comp :=
        filter (fun elem => flt elem (Fin 30) && fge elem (Fin 0))
               (peaks1 ++ peaks2 ++ peaks3) in
      Ok (peaks_comp, peaks1, peaks2, peaks3)
  end.

(** The clusterings with the sizes [ks] all return, one after the other,
    and leave the generator in the state given. *)
Fixpoint all_fit (G : Type) (KMeans_fit : list Q -> nat -> SE G (list Q * Q))
         (X : list Q) (ks : list nat) (g : G) : option G :=
  match ks with
  | [] => Some g
  | k :: rest =>
      match kmeans G KMeans_fit X k g with
      | (Ok _, g') => all_fit G KMeans_fit X rest g'
      | (Raise _, _) => None
      end
  end.

(** A stand-in clustering for a pool of equal values: every clustering has
    zero inertia. *)
Definition flat_KMeans (X : list Q) (k : nat) : SE unit (list Q * Q) :=
  retS ([], 0).

(** ** The seed of the fit: [peakind], [p] and [params] of
    [final_peak_fitting] *)

Module SeedModel.

Import GaussianModel.
Local Open Scope R_scope.

(** [p>=1 and p<=30] *)
Definition in_seed_band (p : R) : bool :=
  if Rle_dec 1 p then (if Rle_dec p 30 then true else false) else false.

(** [np.uint32([p for p in cluster_all if p>=1 and p<=30])] *)
Definition peakind (cluster_all : list R) : list nat :=
  map (fun p => Z.to_nat (int_of p mod 2 ^ 32)) (filter in_seed_band cluster_all).

(** [a[ind]] for an array of indices: every index must be in range. *)
Fixpoint fancy (a : list R) (ind : list nat) : result (list R) :=
  match ind with
  | [] => Ok []
  | i :: rest => v <- getitem a i ;; vs <- fancy a rest ;; Ok (v :: vs)
  end.

(** [np.linspace(start, stop, num)] *)
Definition linspace (start stop : R) (num : nat) : list R :=
  map (fun i => start + INR i * ((stop - start) / INR (num - 1))) (seq 0 num).

(** [list(freq_vector[peakind]) + list(p.T) + list(flatspec_train[peakind]*2)
     + [len(peakind)]] *)
Definition params (freq_vector flatspec_train cluster_all : list R)
  : result (list R) :=
  let ind := peakind cluster_all in
  let p := linspace 1 (INR (length ind)) (length ind) in
  centers <- fancy freq_vector ind ;;
  heights <- fancy flatspec_train ind ;;
  Ok (centers ++ p ++ map (fun h => h * 2) heights ++ [INR (length ind)]).

End SeedModel.

(* ------------------------------------------------------------------ *)
(** * Properties *)

(** ** Comparisons on finite values *)

Lemma Qltb_lt (p q : Q) : Qltb p q = true <-> p < q.
Proof.
  unfold Qltb. rewrite negb_true_iff, <- not_true_iff_false, Qle_bool_iff.
  split; intro H; [apply Qnot_le_lt | apply Qlt_not_le]; exact H.
Qed.

Lemma Qltb_ge (p q : Q) : Qltb p q = false <-> q <= p.
Proof.
  unfold Qltb. rewrite negb_false_iff. apply Qle_bool_iff.
Qed.

Lemma flt_Fin (p q : Q) : flt (Fin p) (Fin q) = true <-> p < q.
Proof. apply Qltb_lt. Qed.

Lemma flt_Fin_false (p q : Q) : flt (Fin p) (Fin q) = false <-> q <= p.
Proof. apply Qltb_ge. Qed.

(** ** Rounding to binary64 preserves the order *)

Lemma pow2_pos (e : Z) : 0 < 2 ^ e.
Proof. apply Qpower_0_lt. reflexivity. Qed.

Lemma pow2_plus (a b : Z) : 2 ^ (a + b) == 2 ^ a * 2 ^ b.
Proof. apply Qpower_plus. discriminate. Qed.

Lemma pow2_le (a b : Z) : (a <= b)%Z -> 2 ^ a <= 2 ^ b.
Proof. intro H. apply Qpower_le_compat_l; [exact H | discriminate]. Qed.

Lemma pow2_lt_inv (a b : Z) : 2 ^ a < 2 ^ b -> (a < b)%Z.
Proof. intro H. apply (Qpower_lt_compat_l_inv 2); [exact H | reflexivity]. Qed.

Lemma pow2_Z (k : Z) : (0 <= k)%Z -> inject_Z (2 ^ k) == 2 ^ k.
Proof. intro H. apply (Zpower_Qpower 2 k H). Qed.

Lemma pow2_succ (a : Z) : 2 ^ (a + 1) == 2 * 2 ^ a.
Proof. rewrite pow2_plus. change (2 ^ 1) with 2. ring. Qed.

Lemma Qlog2_spec (q : Q) :
  0 < q -> 2 ^ Qlog2 q <= q /\ q < 2 ^ (Qlog2 q + 1).
Proof.
  intro Hq. unfold Qlog2.
  destruct q as [n d]. cbn [Qnum Qden].
  assert (Hn : (0 < n)%Z) by (unfold Qlt in Hq; cbn in Hq; lia).
  set (a := Z.log2 n). set (b := Z.log2 (Z.pos d)).
  assert (Ha0 : (0 <= a)%Z) by apply Z.log2_nonneg.
  assert (Hb0 : (0 <= b)%Z) by apply Z.log2_nonneg.
  destruct (Z.log2_spec n Hn) as [Ha1 Ha2]. fold a in Ha1, Ha2.
  destruct (Z.log2_spec (Z.pos d) ltac:(lia)) as [Hb1 Hb2]. fold b in Hb1, Hb2.
  rewrite Zle_Qle in Ha1, Hb1. rewrite Zlt_Qlt in Ha2, Hb2.
  rewrite pow2_Z in Ha1, Ha2, Hb1, Hb2 by lia.
  rewrite <- Z.add_1_r, pow2_succ in Ha2, Hb2.
  assert (HL : 2 ^ (a - b) * 2 ^ b == 2 ^ a).
  { rewrite <- pow2_plus. now replace (a - b + b)%Z with a by lia. }
  pose proof (pow2_pos (a - b)) as HLpos.
  pose proof (pow2_pos a) as Hapos. pose proof (pow2_pos b) as Hbpos.
  assert (HqD : (n # d) * inject_Z (Z.pos d) == inject_Z n).
  { unfold Qeq, Qmult, inject_Z. cbn. lia. }
  assert (HD : 0 < inject_Z (Z.pos d)) by reflexivity.
  set (L := 2 ^ (a - b)) in *. set (A := 2 ^ a) in *. set (B := 2 ^ b) in *.
  set (N := inject_Z n) in *. set (D := inject_Z (Z.pos d)) in *.
  set (q := n # d) in *.
  assert (Hhalf : 2 * 2 ^ (a - b - 1) == L).
  { rewrite <- pow2_succ. unfold L. now replace (a - b - 1 + 1)%Z with (a - b)%Z by lia. }
  assert (Hsucc : 2 ^ (a - b + 1) == 2 * L) by (unfold L; apply pow2_succ).
  assert (HLdef : 2 ^ (a - b) == L) by reflexivity.
  clearbody A N B D L q.
  assert (Hup : q < 2 * L).
  { apply Qnot_le_lt. intro Hc.
    assert (H1 : 2 * A <= N).
    { rewrite <- HL, <- HqD.
      apply Qle_trans with (2 * (L * D)).
      - apply Qmult_le_l; [reflexivity|]. apply Qmult_le_l; [exact HLpos | exact Hb1].
      - rewrite Qmult_assoc. apply Qmult_le_r; [exact HD | exact Hc]. }
    lra. }
  assert (Hlow : L < 2 * q).
  { apply Qnot_le_lt. intro Hc.
    assert (H1 : 2 * N < 2 * A).
    { rewrite <- HL, <- HqD.
      apply Qle_lt_trans with (L * D).
      - rewrite Qmult_assoc. apply Qmult_le_r; [exact HD | exact Hc].
      - apply Qlt_le_trans with (L * (2 * B)).
        + apply Qmult_lt_l; [exact HLpos | exact Hb2].
        + apply Qle_lteq. right. ring. }
    lra. }
  destruct (Qle_bool L q) eqn:E.
  - apply Qle_bool_iff in E. split; [first [exact E | rewrite HLdef; exact E]|].
    rewrite Hsucc. exact Hup.
  - assert (HqL : q < L).
    { apply Qnot_le_lt. intro H. apply Qle_bool_iff in H. congruence. }
    split; [lra|].
    replace (a - b - 1 + 1)%Z with (a - b)%Z by lia.
    rewrite HLdef. exact HqL.
Qed.

Lemma Qlog2_mono (p q : Q) : 0 < p -> p <= q -> (Qlog2 p <= Qlog2 q)%Z.
Proof.
  intros Hp Hpq.
  destruct (Qlog2_spec p Hp) as [Hp1 _].
  destruct (Qlog2_spec q ltac:(lra)) as [_ Hq2].
  assert (H : 2 ^ Qlog2 p < 2 ^ (Qlog2 q + 1)) by lra.
  apply pow2_lt_inv in H. lia.
Qed.

Lemma ulp_exp_mono (p q : Q) : 0 < p -> p <= q -> (ulp_exp p <= ulp_exp q)%Z.
Proof.
  intros Hp Hpq. unfold ulp_exp.
  pose proof (Qlog2_mono p q Hp Hpq). lia.
Qed.

(** *** Rounding to the nearest integer *)

Lemma rne_bounds (q : Q) : (Qfloor q <= rne q <= Qfloor q + 1)%Z.
Proof.
  unfold rne. destruct (Qcompare _ _); [destruct (Z.even _) | |]; lia.
Qed.

Lemma rne_mono (p q : Q) : p <= q -> (rne p <= rne q)%Z.
Proof.
  intro Hpq.
  pose proof (Qfloor_resp_le p q Hpq) as Hf.
  pose proof (rne_bounds p) as Hp. pose proof (rne_bounds q) as Hq.
  destruct (Z.eq_dec (Qfloor p) (Qfloor q)) as [E | Hne]; [| lia].
  unfold rne in *. rewrite E in *.
  destruct (Qcompare_spec (p - inject_Z (Qfloor q)) (1 # 2)) as [Ep | Lp | Gp];
    destruct (Qcompare_spec (q - inject_Z (Qfloor q)) (1 # 2)) as [Eq' | Lq | Gq];
    try destruct (Z.even (Qfloor q)); try lia; exfalso; lra.
Qed.

Lemma rne_Z (z : Z) : rne (inject_Z z) = z.
Proof.
  unfold rne. rewrite Qfloor_Z.
  destruct (Qcompare_spec (inject_Z z - inject_Z z) (1 # 2)) as [E | L | G];
    [exfalso; lra | reflexivity | exfalso; lra].
Qed.

Lemma rne_ge (z : Z) (q : Q) : inject_Z z <= q -> (z <= rne q)%Z.
Proof. intro H. rewrite <- (rne_Z z). now apply rne_mono. Qed.

Lemma rne_le (z : Z) (q : Q) : q <= inject_Z z -> (rne q <= z)%Z.
Proof. intro H. rewrite <- (rne_Z z). now apply rne_mono. Qed.

(** *** Rounding a positive rational *)

Lemma round_pos_nonneg (q : Q) : 0 < q -> 0 <= round_pos q.
Proof.
  intro Hq. unfold round_pos.
  apply Qmult_le_0_compat; [| apply Qlt_le_weak, pow2_pos].
  change 0 with (inject_Z 0). rewrite <- Zle_Qle. apply rne_ge.
  change (inject_Z 0) with 0. apply Qlt_le_weak, Qlt_shift_div_l;
    [apply pow2_pos | lra].
Qed.

Lemma round_pos_mono (p q : Q) :
  0 < p -> p <= q -> round_pos p <= round_pos q.
Proof.
  intros Hp Hpq. unfold round_pos.
  pose proof (ulp_exp_mono p q Hp Hpq) as He.
  destruct (Z.eq_dec (ulp_exp p) (ulp_exp q)) as [E | Hne].
  - rewrite E. apply Qmult_le_r; [apply pow2_pos|].
    rewrite <- Zle_Qle. apply rne_mono.
    apply Qmult_le_r; [apply Qinv_lt_0_compat, pow2_pos | exact Hpq].
  - assert (Hlt : (ulp_exp p < ulp_exp q)%Z) by lia.
    assert (Hq0 : 0 < q) by lra.
    (* the rounded [p] stays within its binade *)
    assert (Hpup : inject_Z (rne (p / 2 ^ ulp_exp p)) <= inject_Z (2 ^ 53)).
    { rewrite <- Zle_Qle. apply rne_le.
      apply Qle_shift_div_r; [apply pow2_pos|].
      rewrite (pow2_Z 53) by lia. rewrite <- pow2_plus.
      destruct (Qlog2_spec p Hp) as [_ Hup].
      apply Qlt_le_weak, (Qlt_le_trans _ _ _ Hup), pow2_le.
      unfold ulp_exp. lia. }
    (* the rounded [q] stays within its own, higher, binade *)
    assert (Hqlow : inject_Z (2 ^ 52) <= inject_Z (rne (q / 2 ^ ulp_exp q))).
    { rewrite <- Zle_Qle. apply rne_ge.
      apply Qle_shift_div_l; [apply pow2_pos|].
      rewrite (pow2_Z 52) by lia. rewrite <- pow2_plus.
      destruct (Qlog2_spec q Hq0) as [Hlow _].
      apply (Qle_trans _ (2 ^ Qlog2 q)); [| exact Hlow].
      apply pow2_le. unfold ulp_exp in *. lia. }
    apply (Qle_trans _ (inject_Z (2 ^ 53) * 2 ^ ulp_exp p)).
    { apply Qmult_le_r; [apply pow2_pos | exact Hpup]. }
    apply (Qle_trans _ (inject_Z (2 ^ 52) * 2 ^ ulp_exp q)).
    2: { apply Qmult_le_r; [apply pow2_pos | exact Hqlow]. }
    rewrite (pow2_Z 53), (pow2_Z 52) by lia. rewrite <- !pow2_plus.
    apply pow2_le. lia.
Qed.

Lemma Qle_bool_false (p q : Q) : Qle_bool p q = false <-> q < p.
Proof.
  split; intro H.
  - apply Qnot_le_lt. intro Hle. apply Qle_bool_iff in Hle. congruence.
  - destruct (Qle_bool p q) eqn:E; [| reflexivity].
    apply Qle_bool_iff in E. lra.
Qed.

(** Rounding to binary64 preserves the order. *)
Lemma round64_mono (p q : Q) :
  p <= q -> fle (round64 p) (round64 q) = true.
Proof.
  intro Hpq. unfold round64.
  destruct (Qcompare_spec p 0) as [Ep | Lp | Gp];
    destruct (Qcompare_spec q 0) as [Eq' | Lq | Gq];
    try (exfalso; lra).
  - reflexivity.
  - pose proof (round_pos_nonneg q Gq) as H0.
    destruct (Qle_bool _ _); [reflexivity|].
    cbn [fle]. now apply Qle_bool_iff.
  - pose proof (round_pos_nonneg (- p) ltac:(lra)) as H0.
    destruct (Qle_bool _ _); [reflexivity|].
    cbn [fle]. apply Qle_bool_iff. lra.
  - pose proof (round_pos_mono (- q) (- p) ltac:(lra) ltac:(lra)) as Hm.
    destruct (Qle_bool (2 ^ 1024) (round_pos (- p))) eqn:Op;
      [destruct (Qle_bool (2 ^ 1024) (round_pos (- q))); reflexivity|].
    apply Qle_bool_false in Op.
    destruct (Qle_bool (2 ^ 1024) (round_pos (- q))) eqn:Oq.
    + apply Qle_bool_iff in Oq. exfalso. lra.
    + cbn [fle]. apply Qle_bool_iff. lra.
  - pose proof (round_pos_nonneg (- p) ltac:(lra)) as H0p.
    pose proof (round_pos_nonneg q Gq) as H0q.
    destruct (Qle_bool (2 ^ 1024) (round_pos (- p)));
      destruct (Qle_bool (2 ^ 1024) (round_pos q)); try reflexivity.
    cbn [fle]. apply Qle_bool_iff. lra.
  - pose proof (round_pos_mono p q Gp Hpq) as Hm.
    destruct (Qle_bool (2 ^ 1024) (round_pos q)) eqn:Oq.
    + destruct (Qle_bool (2 ^ 1024) (round_pos p)); reflexivity.
    + apply Qle_bool_false in Oq.
      destruct (Qle_bool (2 ^ 1024) (round_pos p)) eqn:Op.
      * apply Qle_bool_iff in Op. exfalso. lra.
      * cbn [fle]. now apply Qle_bool_iff.
Qed.

Lemma is_double_round (q : Q) :
  is_double q = true -> exists r, round64 q = Fin r /\ r == q.
Proof.
  unfold is_double. destruct (round64 q) as [| | r |]; try discriminate.
  intro H. exists r. split; [reflexivity | now apply Qeq_bool_iff].
Qed.

(** A double below a rounded value is below the value that was rounded. *)
Lemma flt_round64_r (t y : Q) :
  is_double t = true -> flt (Fin t) (round64 y) = true -> t < y.
Proof.
  intros Ht Hlt. apply Qnot_le_lt. intro Hle.
  destruct (is_double_round t Ht) as (r & Hr & Er).
  pose proof (round64_mono y t Hle) as Hm. rewrite Hr in Hm.
  destruct (round64 y) as [| | s |]; cbn [flt fle] in *; try discriminate.
  apply Qltb_lt in Hlt. apply Qle_bool_iff in Hm. lra.
Qed.

(** A double above a rounded value is above the value that was rounded. *)
Lemma flt_round64_l (t y : Q) :
  is_double t = true -> flt (round64 y) (Fin t) = true -> y < t.
Proof.
  intros Ht Hlt. apply Qnot_le_lt. intro Hle.
  destruct (is_double_round t Ht) as (r & Hr & Er).
  pose proof (round64_mono t y Hle) as Hm. rewrite Hr in Hm.
  destruct (round64 y) as [| | s |]; cbn [flt fle] in *; try discriminate.
  apply Qltb_lt in Hlt. apply Qle_bool_iff in Hm. lra.
Qed.

(** The test [this < mx - delta] of the detector, on floats, implies the
    exact inequality. *)
Lemma flt_fsub64 (this a : fl) (d : Q) :
  is_float this = true ->
  flt this (fsub64 a (Fin d)) = true -> flt this (fsub a (Fin d)) = true.
Proof.
  intros Hf. unfold fsub64.
  destruct a as [| | p |]; cbn [fsub fopp fadd fround]; try (intro H; exact H).
  destruct this as [| | t |]; cbn [is_float] in Hf.
  - intro H; destruct (round64 _); discriminate.
  - reflexivity.
  - intro H. apply flt_Fin. exact (flt_round64_r t _ Hf H).
  - intro H; destruct (round64 _); discriminate.
Qed.

(** Likewise for the test [this > mn + delta]. *)
Lemma flt_fadd64 (this a : fl) (d : Q) :
  is_float this = true ->
  flt (fadd64 a (Fin d)) this = true -> flt (fadd a (Fin d)) this = true.
Proof.
  intros Hf. unfold fadd64.
  destruct a as [| | p |]; cbn [fadd fround]; try (intro H; exact H).
  destruct this as [| | t |]; cbn [is_float] in Hf.
  - intro H; destruct (round64 _); discriminate.
  - intro H; destruct (round64 _); discriminate.
  - intro H. apply flt_Fin. exact (flt_round64_l t _ Hf H).
  - reflexivity.
Qed.


Lemma flt_fsub_self (d : Q) (a : fl) : 0 < d -> flt a (fsub a (Fin d)) = false.
Proof.
  intro Hd. destruct a as [| | p |]; try reflexivity.
  apply flt_Fin_false. lra.
Qed.

Lemma flt_fadd_self (d : Q) (a : fl) : 0 < d -> flt (fadd a (Fin d)) a = false.
Proof.
  intro Hd. destruct a as [| | p |]; try reflexivity.
  apply flt_Fin_false. lra.
Qed.

(** A float is never below itself less a positive margin, nor above itself
    plus one. *)
Lemma flt_fsub64_self (d : Q) (a : fl) :
  0 < d -> is_float a = true -> flt a (fsub64 a (Fin d)) = false.
Proof.
  intros Hd Ha. destruct (flt a (fsub64 a (Fin d))) eqn:E; [| reflexivity].
  apply flt_fsub64 in E; [| exact Ha].
  now rewrite flt_fsub_self in E.
Qed.

Lemma flt_fadd64_self (d : Q) (a : fl) :
  0 < d -> is_float a = true -> flt (fadd64 a (Fin d)) a = false.
Proof.
  intros Hd Ha. destruct (flt (fadd64 a (Fin d)) a) eqn:E; [| reflexivity].
  apply flt_fadd64 in E; [| exact Ha].
  now rewrite flt_fadd_self in E.
Qed.

(** A double that is not more than [d] below [m], exactly, is not below the
    float [m - d]. *)
Lemma fsub64_no_confirm (a m d : Q) :
  is_double a = true -> m - d <= a ->
  flt (Fin a) (fsub64 (Fin m) (Fin d)) = false.
Proof.
  intros Ha Hle.
  destruct (flt (Fin a) (fsub64 (Fin m) (Fin d))) eqn:E; [| reflexivity].
  apply (flt_fsub64 (Fin a)) in E; [| exact Ha].
  cbn [fsub fopp fadd] in E. apply flt_Fin in E. lra.
Qed.

Lemma forallb_is_double_float (l : list Q) :
  forallb is_double l = true -> forallb is_float (map Fin l) = true.
Proof.
  induction l as [| a l IH]; [reflexivity|].
  cbn [forallb map is_float]. intro H.
  apply andb_true_iff in H as [Ha Hl]. now rewrite Ha, IH.
Qed.

(** ** [peakdect]: the argument checks *)

Lemma length_arange (n : nat) : length (arange n) = n.
Proof. unfold arange. now rewrite length_map, length_seq. Qed.

Lemma nth_arange (n k : nat) :
  (k < n)%nat -> nth k (arange n) NaN = Fin (inject_Z (Z.of_nat k)).
Proof.
  intro Hk. unfold arange.
  rewrite (nth_indep _ NaN (Fin (inject_Z (Z.of_nat 0))))
    by now rewrite length_map, length_seq.
  rewrite (map_nth (fun i => Fin (inject_Z (Z.of_nat i))) (seq 0 n) 0%nat k).
  now rewrite seq_nth.
Qed.

(** The four ways through the checks of [peakdect]. *)
Lemma peakdect_cases (v : list fl) (delta : pyarg) (x : option (list fl)) :
  (length v <> length (default_x x v) /\
   exists msg, peakdect v delta x = Raise (SystemExit msg)) \/
  (length v = length (default_x x v) /\ isscalar delta = false /\
   exists msg, peakdect v delta x = Raise (SystemExit msg)) \/
  (length v = length (default_x x v) /\
   exists d, delta = PyScalar d /\ d <= 0 /\
             exists msg, peakdect v delta x = Raise (SystemExit msg)) \/
  (length v = length (default_x x v) /\
   exists d, delta = PyScalar d /\ 0 < d /\
             exists tabs, peakdect v delta x = Ok tabs).
Proof.
  unfold peakdect.
  destruct (Nat.eqb_spec (length v) (length (default_x x v))) as [Hlen | Hlen];
    cbn [negb].
  - destruct delta as [d | a].
    + destruct (Qle_bool d 0) eqn:Hd.
      * apply Qle_bool_iff in Hd. right; right; left.
        split; [assumption|]. exists d. repeat split; [assumption|].
        eexists; reflexivity.
      * right; right; right.
        split; [assumption|]. exists d. repeat split.
        -- apply Qnot_le_lt. intro H. apply Qle_bool_iff in H. congruence.
        -- eexists; reflexivity.
    + right; left. repeat split; [assumption|]. eexists; reflexivity.
  - left. split; [assumption|]. eexists; reflexivity.
Qed.

(** C6. [peakdect] exits with [SystemExit] exactly when the two sequences
    differ in length, or [delta] is not a scalar, or [delta <= 0]; it raises
    nothing else; every [delta <= 0] fails; well-formed inputs give tables;
    and the exit passes through the caller [find_peaks]. *)
Theorem peakdect_invalid_argument :
  forall (v : list fl) (delta : pyarg) (x : option (list fl)),
    let xs := default_x x v in
    let malformed :=
      length v <> length xs \/ isscalar delta = false \/
      (exists d, delta = PyScalar d /\ d <= 0) in
    ((exists e, peakdect v delta x = Raise e) <-> malformed) /\
    (forall e, peakdect v delta x = Raise e -> exists msg, e = SystemExit msg) /\
    ((exists d, delta = PyScalar d /\ d <= 0) ->
       exists msg, peakdect v delta x = Raise (SystemExit msg)) /\
    (~ malformed -> exists tabs, peakdect v delta x = Ok tabs) /\
    (forall f e, x = Some f -> peakdect v delta x = Raise e ->
                 find_peaks v delta f = Raise e).
Proof.
  intros v delta x xs malformed. subst xs malformed.
  destruct (peakdect_cases v delta x)
    as [(Hlen & msg & Hr) | [(Hlen & Hsc & msg & Hr)
       | [(Hlen & d & -> & Hd & msg & Hr) | (Hlen & d & -> & Hd & tabs & Hr)]]];
    rewrite Hr.
  - repeat split.
    + intros _. now left.
    + intros _. eexists; reflexivity.
    + intros e [= <-]. eexists; reflexivity.
    + intros _. eexists; reflexivity.
    + intros Hn. exfalso. apply Hn. now left.
    + intros f e -> He. unfold find_peaks. rewrite Hr. cbn [bind]. congruence.
  - repeat split.
    + intros _. right; now left.
    + intros _. eexists; reflexivity.
    + intros e [= <-]. eexists; reflexivity.
    + intros _. eexists; reflexivity.
    + intros Hn. exfalso. apply Hn. right; now left.
    + intros f e -> He. unfold find_peaks. rewrite Hr. cbn [bind]. congruence.
  - repeat split.
    + intros _. right; right. now exists d.
    + intros _. eexists; reflexivity.
    + intros e [= <-]. eexists; reflexivity.
    + intros _. eexists; reflexivity.
    + intros Hn. exfalso. apply Hn. right; right. now exists d.
    + intros f e -> He. unfold find_peaks. rewrite Hr. cbn [bind]. congruence.
  - repeat split.
    + intros [e He]. discriminate.
    + intros [H | [H | (d' & [= <-] & H)]];
        [contradiction | discriminate | lra].
    + intros e He. discriminate.
    + intros (d' & [= <-] & H). lra.
    + intros _. eexists; reflexivity.
    + intros f e _ He. discriminate.
Qed.

(** ** [peakdect]: maxima and minima alternate *)

Lemma pd_step_event (d : Q) (s : pd_state) (xi this : fl) :
  pd_event s (pd_step d s xi this).
Proof.
  unfold pd_step.
  destruct (fgt this (mx s)), s as [n m np mp look maxt mint]; cbn;
    destruct (flt this _); cbn; destruct look; cbn;
    match goal with
    | |- context [if ?c then _ else _] => destruct c; cbn
    end;
    first [ now apply ev_none
          | now eapply ev_max
          | now eapply ev_min ].
Qed.

Lemma pd_event_inv (s s' : pd_state) : pd_event s s' -> pd_inv s -> pd_inv s'.
Proof.
  unfold pd_inv.
  intros [Hl Hmax Hmin | e Hl Hl' Hmax Hmin | e Hl Hl' Hmax Hmin] Hinv;
    rewrite Hmax, Hmin, ?length_app; cbn [length].
  - now rewrite Hl.
  - right. split; [assumption|]. destruct Hinv as [[_ H] | [H _]]; [lia | congruence].
  - left. split; [assumption|]. destruct Hinv as [[H _] | [_ H]]; [congruence | lia].
Qed.

Lemma pd_loop_app (d : Q) (s : pd_state) (l1 l2 : list (fl * fl)) :
  pd_loop d s (l1 ++ l2) = pd_loop d (pd_loop d s l1) l2.
Proof. apply fold_left_app. Qed.

Lemma pd_loop_inv (d : Q) (l : list (fl * fl)) :
  forall s, pd_inv s -> pd_inv (pd_loop d s l).
Proof.
  induction l as [| p l IH]; intros s Hs; cbn; [assumption|].
  apply IH. eapply pd_event_inv; [apply pd_step_event | assumption].
Qed.

Lemma pd_inv_init : pd_inv pd_init.
Proof. left. split; reflexivity. Qed.

Lemma peakdect_ok (v : list fl) (x : option (list fl)) (d : Q) :
  0 < d -> length (default_x x v) = length v ->
  peakdect v (PyScalar d) x =
    Ok (maxtab (pd_loop d pd_init (combine (default_x x v) v)),
        mintab (pd_loop d pd_init (combine (default_x x v) v))).
Proof.
  intros Hd Hlen. unfold peakdect.
  rewrite Hlen, Nat.eqb_refl. cbn [negb].
  destruct (Qle_bool d 0) eqn:E; [|reflexivity].
  apply Qle_bool_iff in E. lra.
Qed.

(** C10. For every input and every [delta > 0], confirmed maxima and minima
    alternate in detection order, starting with a maximum: each iteration
    confirms at most one extremum, a maximum only while seeking a maximum
    and a minimum only while seeking a minimum, the search flips at each
    confirmation, and the returned maxima are as many as the minima or one
    more. *)
Theorem peakdect_alternation :
  forall (v : list fl) (x : option (list fl)) (d : Q),
    0 < d -> length (default_x x v) = length v ->
    lookformax pd_init = true /\
    (forall pre p post,
        combine (default_x x v) v = pre ++ p :: post ->
        let s := pd_loop d pd_init pre in
        let s' := pd_step d s (fst p) (snd p) in
        pd_event s s' /\ pd_inv s /\ pd_inv s') /\
    exists maxt mint,
      peakdect v (PyScalar d) x = Ok (maxt, mint) /\
      (length maxt = length mint \/ length maxt = S (length mint)).
Proof.
  intros v x d Hd Hlen. split; [reflexivity|]. split.
  - intros pre p post _ s s'.
    assert (Hs : pd_inv s) by (apply pd_loop_inv, pd_inv_init).
    assert (He : pd_event s s') by apply pd_step_event.
    split; [assumption|]. split; [assumption|].
    now apply (pd_event_inv s s').
  - eexists _, _. split; [now apply peakdect_ok|].
    destruct (pd_loop_inv d (combine (default_x x v) v) pd_init pd_inv_init)
      as [[_ H] | [_ H]]; [now left | now right].
Qed.

Lemma peakdect_alternation_witness :
  0 < 1 # 2 /\
  length (default_x (Some [Fin 1; Fin 2; Fin 3; Fin 4])
                    [Fin 0; Fin 1; Fin 0; Fin 1]) = 4%nat /\
  exists maxt mint,
    peakdect [Fin 0; Fin 1; Fin 0; Fin 1] (PyScalar (1 # 2))
             (Some [Fin 1; Fin 2; Fin 3; Fin 4]) = Ok (maxt, mint) /\
    (length maxt = length mint \/ length maxt = S (length mint)).
Proof.
  split; [reflexivity|]. split; [reflexivity|].
  apply (peakdect_alternation [Fin 0; Fin 1; Fin 0; Fin 1]
           (Some [Fin 1; Fin 2; Fin 3; Fin 4]) (1 # 2));
    reflexivity.
Defined.

(** ** [peakdect] on a unimodal sequence *)

Ltac pd_fields :=
  cbn [mn mx mnpos mxpos lookformax maxtab mintab] in *.

Section Unimodal.

Variable d : Q.
Hypothesis d_pos : 0 < d.

(** A sample above the running maximum, while seeking a maximum. *)
Lemma pd_step_rise (s : pd_state) (xi : fl) (a : Q) :
  is_double a = true ->
  lookformax s = true -> flt (mx s) (Fin a) = true ->
  exists n np,
    pd_step d s xi (Fin a) = mk_pd n (Fin a) np xi true (maxtab s) (mintab s).
Proof.
  intros Ha Hl Hgt. unfold pd_step, fgt. rewrite Hgt.
  destruct s as [n m np mp look maxt mint]; pd_fields. subst look.
  assert (Hno : flt (Fin a) (fsub64 (Fin a) (Fin d)) = false)
    by (apply flt_fsub64_self; assumption).
  destruct (flt (Fin a) n); pd_fields; rewrite Hno; eexists _, _; reflexivity.
Qed.

(** A sample below the running maximum [peak], not yet below the float
    [peak - delta]. *)
Lemma pd_step_wait (s : pd_state) (xi : fl) (a peak : Q) :
  lookformax s = true -> mx s = Fin peak -> a < peak ->
  flt (Fin a) (fsub64 (Fin peak) (Fin d)) = false ->
  exists n np,
    pd_step d s xi (Fin a) =
      mk_pd n (Fin peak) np (mxpos s) true (maxtab s) (mintab s).
Proof.
  intros Hl Hmx Hlt H2. unfold pd_step, fgt.
  destruct s as [n m np mp look maxt mint]; pd_fields. subst look m.
  assert (H1 : flt (Fin peak) (Fin a) = false) by (apply flt_Fin_false; lra).
  rewrite H1. pd_fields.
  destruct (flt (Fin a) n); pd_fields; rewrite H2; eexists _, _; reflexivity.
Qed.

(** The first sample below the float [peak - delta] confirms the maximum. *)
Lemma pd_step_confirm (s : pd_state) (xi : fl) (a peak : Q) :
  lookformax s = true -> mx s = Fin peak -> a < peak ->
  flt (Fin a) (fsub64 (Fin peak) (Fin d)) = true ->
  pd_step d s xi (Fin a) =
    mk_pd (Fin a) (Fin peak) xi (mxpos s) false
          (maxtab s ++ [(mxpos s, Fin peak)]) (mintab s).
Proof.
  intros Hl Hmx Hlt H2. unfold pd_step, fgt.
  destruct s as [n m np mp look maxt mint]; pd_fields. subst look m.
  assert (H1 : flt (Fin peak) (Fin a) = false) by (apply flt_Fin_false; lra).
  rewrite H1. pd_fields.
  destruct (flt (Fin a) n); pd_fields; rewrite H2; reflexivity.
Qed.

(** A sample below the running minimum, while seeking a minimum. *)
Lemma pd_step_descend (s : pd_state) (xi : fl) (a m : Q) :
  is_double a = true ->
  lookformax s = false -> mn s = Fin m -> a < m ->
  exists m' mp',
    pd_step d s xi (Fin a) =
      mk_pd (Fin a) m' xi mp' false (maxtab s) (mintab s).
Proof.
  intros Ha Hl Hmn Hlt. unfold pd_step, fgt.
  destruct s as [n m0 np mp look maxt mint]; pd_fields. subst look n.
  assert (H1 : flt (Fin a) (Fin m) = true) by (apply flt_Fin; lra).
  assert (H2 : flt (fadd64 (Fin a) (Fin d)) (Fin a) = false)
    by (apply flt_fadd64_self; assumption).
  destruct (flt m0 (Fin a)); pd_fields; rewrite H1; pd_fields; rewrite H2;
    eexists _, _; reflexivity.
Qed.

(** Seeking a minimum along a strictly falling tail confirms nothing. *)
Lemma pd_loop_descend (l : list Q) :
  forall (xl : list fl) (s : pd_state) (m : Q),
    forallb is_double l = true ->
    lookformax s = false -> mn s = Fin m ->
    strictly_decreasing (m :: l) ->
    maxtab (pd_loop d s (combine xl (map Fin l))) = maxtab s /\
    mintab (pd_loop d s (combine xl (map Fin l))) = mintab s.
Proof.
  induction l as [| a l IH]; intros xl s m Hdbl Hl Hmn Hdec.
  - destruct xl; cbn; split; reflexivity.
  - destruct xl as [| xi xl]; [cbn; split; reflexivity|].
    destruct Hdec as [Ham Hdec].
    cbn [forallb] in Hdbl. apply andb_true_iff in Hdbl as [Ha Hdbl].
    destruct (pd_step_descend s xi a m Ha Hl Hmn Ham) as (m' & mp' & Hstep).
    cbn [map combine pd_loop fold_left fst snd]. rewrite Hstep.
    change (fold_left _ ?xs ?st) with (pd_loop d st xs).
    destruct (IH xl (mk_pd (Fin a) m' xi mp' false (maxtab s) (mintab s)) a
                Hdbl eq_refl eq_refl Hdec) as [H1 H2].
    split; [exact H1 | exact H2].
Qed.

(** Seeking a maximum with running maximum [peak], along a strictly
    falling tail that ends below the float [peak - delta]. *)
Lemma pd_loop_fall (peak : Q) (xp : fl) (l : list Q) :
  forall (xl : list fl) (s : pd_state) (a : Q),
    forallb is_double l = true ->
    lookformax s = true -> mx s = Fin peak -> mxpos s = xp ->
    maxtab s = [] -> mintab s = [] ->
    a <= peak -> strictly_decreasing (a :: l) ->
    l <> [] ->
    flt (Fin (last l peak)) (fsub64 (Fin peak) (Fin d)) = true ->
    length xl = length l ->
    maxtab (pd_loop d s (combine xl (map Fin l))) = [(xp, Fin peak)] /\
    mintab (pd_loop d s (combine xl (map Fin l))) = [].
Proof.
  induction l as [| b l IH];
    intros xl s a Hdbl Hl Hmx Hpos Hmax Hmin Hap Hdec Hne Hlast Hlen;
    [congruence|].
  destruct xl as [| xi xl]; [discriminate|].
  destruct Hdec as [Hba Hdec].
  cbn [forallb] in Hdbl. apply andb_true_iff in Hdbl as [Hb Hdbl].
  cbn [map combine pd_loop fold_left fst snd].
  change (fold_left _ ?xs ?st) with (pd_loop d st xs).
  destruct (flt (Fin b) (fsub64 (Fin peak) (Fin d))) eqn:Hlow.
  - rewrite (pd_step_confirm s xi b peak Hl Hmx ltac:(lra) Hlow).
    rewrite Hmax, Hmin, Hpos. cbn [app].
    exact (pd_loop_descend l xl
             (mk_pd (Fin b) (Fin peak) xi xp false [(xp, Fin peak)] [])
             b Hdbl eq_refl eq_refl Hdec).
  - destruct (pd_step_wait s xi b peak Hl Hmx ltac:(lra) Hlow)
      as (n & np & Hstep).
    rewrite Hstep, Hmax, Hmin, Hpos.
    destruct l as [| c l].
    + cbn [last] in Hlast. congruence.
    + apply (IH xl _ b); try reflexivity;
        [exact Hdbl | lra | assumption | discriminate | exact Hlast
         | now injection Hlen].
Qed.

(** Seeking a maximum along the strictly rising part: the running maximum
    follows the samples, and the peak sample leaves the detector with the
    peak and its coordinate recorded. *)
Lemma pd_loop_rise (peak : Q) (down : list Q) (up : list Q) :
  forall (xs : list fl) (s : pd_state),
    forallb is_double (up ++ [peak]) = true ->
    lookformax s = true -> maxtab s = [] -> mintab s = [] ->
    flt (mx s) (Fin (hd peak up)) = true ->
    strictly_increasing (up ++ [peak]) ->
    length xs = length (up ++ peak :: down) ->
    exists s1,
      pd_loop d s (combine xs (map Fin (up ++ peak :: down))) =
        pd_loop d s1 (combine (skipn (S (length up)) xs) (map Fin down)) /\
      lookformax s1 = true /\ maxtab s1 = [] /\ mintab s1 = [] /\
      mx s1 = Fin peak /\ mxpos s1 = nth (length up) xs NaN.
Proof.
  induction up as [| u up IH]; intros xs s Hdbl Hl Hmax Hmin Hgt Hinc Hlen;
    (destruct xs as [| xi xs]; [discriminate|]);
    cbn [app forallb] in Hdbl; apply andb_true_iff in Hdbl as [Hu Hdbl];
    cbn [app map combine pd_loop fold_left fst snd length skipn nth hd] in *;
    change (fold_left _ ?l ?st) with (pd_loop d st l).
  - destruct (pd_step_rise s xi peak Hu Hl Hgt) as (n & np & Hstep).
    rewrite Hstep, Hmax, Hmin.
    eexists. split; [reflexivity|]. repeat split.
  - destruct (pd_step_rise s xi u Hu Hl Hgt) as (n & np & Hstep).
    rewrite Hstep, Hmax, Hmin.
    assert (Hnext : u < hd peak up /\ strictly_increasing (up ++ [peak])).
    { destruct up; cbn in Hinc |- *; tauto. }
    destruct Hnext as [Hu' Hinc'].
    destruct (IH xs (mk_pd n (Fin u) np xi true [] [])) as (s1 & Heq & Hs1);
      try reflexivity.
    + exact Hdbl.
    + now apply flt_Fin.
    + assumption.
    + now injection Hlen.
    + exists s1. split; [exact Heq | exact Hs1].
Qed.

(** C2, as the code has it.  On a strictly unimodal sequence of doubles
    whose rise exceeds [delta] and whose last sample lies below the float
    [peak - delta], the detector reports exactly one maximum, at the
    coordinate of the peak sample (and no minimum): the entry of [x] at the
    position of the peak, or that position itself when no [x] is given.
    Such a sequence falls by more than [delta] from its peak. *)
Theorem peakdect_unimodal :
  forall (up : list Q) (peak : Q) (down : list Q) (x : option (list fl)),
    let v := map Fin (up ++ peak :: down) in
    forallb is_double (up ++ peak :: down) = true ->
    rises_then_falls64 d up peak down ->
    length (default_x x v) = length v ->
    peakdect v (PyScalar d) x =
      Ok ([(match x with
            | Some xs => nth (length up) xs NaN
            | None => Fin (inject_Z (Z.of_nat (length up)))
            end, Fin peak)], []) /\
    rises_then_falls d up peak down.
Proof.
  intros up peak down x v Hdbl (Hup & Hdown & Hinc & Hdec & Hrise & Hfall) Hlen.
  assert (Hcoord : nth (length up) (default_x x v) NaN =
                   match x with
                   | Some xs => nth (length up) xs NaN
                   | None => Fin (inject_Z (Z.of_nat (length up)))
                   end).
  { destruct x as [xs |]; [reflexivity|].
    cbn [default_x]. apply nth_arange.
    subst v. rewrite length_map, length_app. cbn [length]. lia. }
  rewrite <- Hcoord.
  rewrite forallb_app in Hdbl. apply andb_true_iff in Hdbl as [Hdup Hdbl].
  cbn [forallb] in Hdbl. apply andb_true_iff in Hdbl as [Hdpeak Hddown].
  assert (Hdlast : is_double (last down peak) = true).
  { rewrite forallb_forall in Hddown. apply Hddown.
    destruct down as [| b down]; [congruence|].
    apply (@exists_last Q) in Hdown as (l' & a & E).
    rewrite E, last_last. apply in_or_app. right. now left. }
  split.
  - rewrite (peakdect_ok v x d d_pos Hlen).
    set (xs := default_x x v) in *. subst v.
    rewrite length_map in Hlen.
    destruct (pd_loop_rise peak down up xs pd_init) as
      (s1 & Heq & Hl1 & Hmax1 & Hmin1 & Hmx1 & Hpos1);
      try reflexivity; try assumption.
    { rewrite forallb_app, Hdup. cbn [forallb]. now rewrite Hdpeak. }
    rewrite Heq.
    destruct (pd_loop_fall peak (nth (length up) xs NaN) down
                (skipn (S (length up)) xs) s1 peak) as [Ha Hb];
      try assumption.
    + lra.
    + rewrite length_skipn, Hlen, length_app. cbn [length]. lia.
    + now rewrite Ha, Hb.
  - repeat split; try assumption.
    apply (flt_fsub64 (Fin (last down peak))) in Hfall; [| exact Hdlast].
    cbn [fsub fopp fadd] in Hfall. apply flt_Fin in Hfall. lra.
Qed.

End Unimodal.

Lemma peakdect_unimodal_witness :
  0 < 1 # 2 /\
  forallb is_double ([0; 1] ++ 2 :: [1; 0]) = true /\
  rises_then_falls64 (1 # 2) [0; 1] 2 [1; 0] /\
  peakdect (map Fin [0; 1; 2; 1; 0]) (PyScalar (1 # 2))
           (Some (map Fin [10; 11; 12; 13; 14])) =
    Ok ([(Fin 12, Fin 2)], []) /\
  peakdect (map Fin [0; 1; 2; 1; 0]) (PyScalar (1 # 2)) None =
    Ok ([(Fin 2, Fin 2)], []).
Proof.
  assert (Hpos : 0 < 1 # 2) by reflexivity.
  assert (Hdbl : forallb is_double ([0; 1] ++ 2 :: [1; 0]) = true)
    by (vm_compute; reflexivity).
  assert (Hshape : rises_then_falls64 (1 # 2) [0; 1] 2 [1; 0]).
  { unfold rises_then_falls64.
    split; [discriminate|]. split; [discriminate|].
    split; [cbn; repeat split; reflexivity|].
    split; [cbn; repeat split; reflexivity|].
    split; [reflexivity | vm_compute; reflexivity]. }
  split; [exact Hpos|]. split; [exact Hdbl|]. split; [exact Hshape|].
  split.
  - exact (proj1 (peakdect_unimodal (1 # 2) Hpos [0; 1] 2 [1; 0]
                    (Some (map Fin [10; 11; 12; 13; 14])) Hdbl Hshape eq_refl)).
  - exact (proj1 (peakdect_unimodal (1 # 2) Hpos [0; 1] 2 [1; 0]
                    None Hdbl Hshape eq_refl)).
Defined.

(** C2, as stated, fails on the doubles written [0, 0.28, 0.25] with
    [delta = 0.03].  The three samples are doubles; they rise by more than
    [delta] and fall by more than [delta], since the double [0.28] is a
    little above 28/100 and the double [0.03] a little below 3/100.  But
    the difference [0.28 - 0.03] is rounded to the double [0.25], the last
    sample is not below it, and no maximum is reported. *)
Lemma peakdect_unimodal_rounded :
  forallb is_double [0; double (28 # 100); 1 # 4] = true /\
  0 < double (3 # 100) /\
  rises_then_falls (double (3 # 100)) [0] (double (28 # 100)) [1 # 4] /\
  fsub64 (Fin (double (28 # 100))) (Fin (double (3 # 100))) = Fin (double (1 # 4)) /\
  double (1 # 4) == 1 # 4 /\
  peakdect (map Fin [0; double (28 # 100); 1 # 4])
           (PyScalar (double (3 # 100))) None = Ok ([], []).
Proof.
  split; [vm_compute; reflexivity|].
  split; [vm_compute; reflexivity|].
  split.
  { unfold rises_then_falls. cbn [app hd last].
    split; [discriminate|]. split; [discriminate|].
    split; [cbn [strictly_increasing]; split; [vm_compute; reflexivity | exact I]|].
    split; [cbn [strictly_decreasing]; split; [vm_compute; reflexivity | exact I]|].
    split; vm_compute; reflexivity. }
  split; [vm_compute; reflexivity|].
  split; vm_compute; reflexivity.
Qed.

(** ** Sorting and the median of finite values *)

Lemma insert_Fin (a : Q) (Y : list Q) :
  exists Y', insert (Fin a) (map Fin Y) = map Fin Y' /\ Permutation Y' (a :: Y).
Proof.
  induction Y as [| b Y IH]; cbn [map insert].
  - now exists [a].
  - destruct (sort_le (Fin a) (Fin b)).
    + now exists (a :: b :: Y).
    + destruct IH as (Y' & HY' & Hperm).
      exists (b :: Y'). split.
      * cbn [map]. now rewrite HY'.
      * rewrite Hperm. apply perm_swap.
Qed.

Lemma np_sort_Fin (X : list Q) :
  exists Y, np_sort (map Fin X) = map Fin Y /\ Permutation Y X.
Proof.
  induction X as [| a X IH]; cbn [map np_sort].
  - now exists [].
  - destruct IH as (Y & HY & Hperm). rewrite HY.
    destruct (insert_Fin a Y) as (Y' & HY' & Hperm').
    exists Y'. split; [assumption|].
    rewrite Hperm'. now constructor.
Qed.

Lemma existsb_is_nan_Fin (X : list Q) : existsb is_nan (map Fin X) = false.
Proof. induction X; cbn; auto. Qed.

Lemma nth_map_Fin (Y : list Q) (k : nat) :
  (k < length Y)%nat -> nth k (map Fin Y) NaN = Fin (nth k Y 0).
Proof.
  intro Hk. rewrite (nth_indep _ NaN (Fin 0)) by now rewrite length_map.
  apply (map_nth Fin).
Qed.

(** The median of a non-empty array of finite values is finite: a middle
    element, or the mean of the two middle elements, of a rearrangement. *)
Lemma median_Fin (X : list Q) :
  X <> [] ->
  exists Y, Permutation Y X /\
    median (map Fin X) =
      Fin (if Nat.even (length X)
           then (nth (length X / 2 - 1) Y 0 + nth (length X / 2) Y 0) / 2
           else nth (length X / 2) Y 0).
Proof.
  intro Hne.
  destruct (np_sort_Fin X) as (Y & HY & Hperm).
  exists Y. split; [assumption|].
  unfold median. rewrite existsb_is_nan_Fin, length_map, HY.
  assert (Hlen : length Y = length X) by now apply Permutation_length.
  assert (Hpos : (0 < length X)%nat).
  { destruct X; [congruence | cbn; lia]. }
  destruct (Nat.eqb_spec (length X) 0) as [E | _]; [lia|].
  assert (Hhalf : (length X / 2 < length X)%nat)
    by (apply Nat.div_lt; lia).
  destruct (Nat.even (length X)).
  - rewrite !nth_map_Fin by lia. reflexivity.
  - rewrite nth_map_Fin by lia. reflexivity.
Qed.




(** ** [find_cluster]: the baseline and the knee *)

Lemma zeroSoS_Fin (X : list Q) (m : Q) :
  exists b, zeroSoS X (Fin m) = Fin b /\ b == sum_sq_dev X m.
Proof.
  unfold zeroSoS.
  enough (H : forall acc, exists b,
             fold_left
               (fun acc x =>
                  fadd acc (fmul (fsub (Fin x) (Fin m)) (fsub (Fin x) (Fin m))))
               X (Fin acc) = Fin b /\ b == acc + sum_sq_dev X m).
  { destruct (H 0) as (b & Hb & Heq). exists b. split; [assumption|].
    rewrite Heq. ring. }
  induction X as [| x X IH]; intro acc; cbn [fold_left sum_sq_dev].
  - exists acc. split; [reflexivity | ring].
  - destruct (IH (acc + (x + - m) * (x + - m))) as (b & Hb & Heq).
    exists b. split; [exact Hb|]. rewrite Heq. ring.
Qed.

Lemma argmax_from_Fin (t : list Q) :
  forall (i : nat) (b : Q) (bi : nat),
    let j := argmax_from (map Fin t) i (Fin b) bi in
    (j = bi /\ Forall (fun q => q <= b) t) \/
    (exists k, j = (i + k)%nat /\ (k < length t)%nat /\ b < nth k t 0 /\
       (forall k', (k' < k)%nat -> nth k' t 0 < nth k t 0) /\
       (forall k', (k' < length t)%nat -> nth k' t 0 <= nth k t 0)).
Proof.
  induction t as [| a t IH]; intros i b bi; cbn [map argmax_from is_nan].
  - left. split; [reflexivity | constructor].
  - cbn [fle]. destruct (Qle_bool a b) eqn:Hab; cbn [negb].
    + apply Qle_bool_iff in Hab.
      destruct (IH (S i) b bi) as [[Hj Hall] | (k & Hj & Hk & Hb & Hfirst & Hmax)].
      * left. split; [assumption | now constructor].
      * right. exists (S k). cbn [length nth].
        split; [lia|]. split; [lia|]. split; [assumption|]. split.
        -- intros [| k'] Hk'; [lra | apply Hfirst; lia].
        -- intros [| k'] Hk'; [lra | apply Hmax; lia].
    + assert (Hba : b < a).
      { apply Qnot_le_lt. intro H. apply Qle_bool_iff in H. congruence. }
      destruct (IH (S i) a i) as [[Hj Hall] | (k & Hj & Hk & Hb & Hfirst & Hmax)].
      * right. exists 0%nat. cbn [length nth].
        split; [lia|]. split; [lia|]. split; [assumption|]. split.
        -- intros k' Hk'. lia.
        -- intros [| k'] Hk'; [lra|].
           rewrite Forall_forall in Hall. apply Hall, nth_In. lia.
      * right. exists (S k). cbn [length nth].
        split; [lia|]. split; [lia|]. split; [lra|]. split.
        -- intros [| k'] Hk'; [lra | apply Hfirst; lia].
        -- intros [| k'] Hk'; [lra | apply Hmax; lia].
Qed.

(** [np.argmax] of finite values returns the first index of the maximum. *)
Lemma argmax_first_max (d : list Q) :
  d <> [] -> exists j, argmax (map Fin d) = Ok j /\ first_max d j.
Proof.
  destruct d as [| a t]; [congruence | intros _].
  cbn [map argmax]. eexists. split; [reflexivity|].
  destruct (argmax_from_Fin t 1 a 0) as [[Hj Hall] | (k & Hj & Hk & Hb & Hfirst & Hmax)];
    cbn zeta in Hj; rewrite Hj; unfold first_max; cbn [length nth].
  - split; [lia|]. split.
    + intros [| i] Hi; [lra|].
      rewrite Forall_forall in Hall. apply Hall, nth_In. lia.
    + intros i Hi. lia.
  - change (1 + k)%nat with (S k). cbn [nth].
    split; [lia|]. split.
    + intros [| i] Hi; [lra | apply Hmax; lia].
    + intros [| i] Hi; [lra | apply Hfirst; lia].
Qed.

Section ClusterCountFacts.

Variable G : Type.
Variable KMeans_fit : list Q -> nat -> SE G (list Q * Q).

Lemma SoS_loop_step (X : list Q) (k : nat) (rest : list nat)
      (acc : list fl) (g g' : G) (c : list Q) (i : Q) :
  kmeans G KMeans_fit X k g = (Ok (c, i), g') ->
  SoS_loop G KMeans_fit X (k :: rest) acc g =
    SoS_loop G KMeans_fit X rest (acc ++ [Fin i]) g'.
Proof.
  intro H. cbn [SoS_loop]. unfold bindS at 1. rewrite H. reflexivity.
Qed.



End ClusterCountFacts.



(** ** The bootstrap of a constant array *)

Lemma np_sort_repeat (a : Q) (k : nat) :
  np_sort (repeat (Fin a) k) = repeat (Fin a) k.
Proof.
  rewrite <- (@map_repeat Q fl a k Fin).
  destruct (np_sort_Fin (repeat a k)) as (Y & HY & Hperm).
  apply Permutation_repeat in Hperm. now rewrite HY, Hperm.
Qed.

Lemma existsb_is_nan_repeat (a : Q) (k : nat) :
  existsb is_nan (repeat (Fin a) k) = false.
Proof.
  rewrite <- (@map_repeat Q fl a k Fin). apply existsb_is_nan_Fin.
Qed.

Lemma median_repeat (a : Q) (k : nat) :
  (1 <= k)%nat -> exists m, median (repeat (Fin a) k) = Fin m /\ m == a.
Proof.
  intro Hk. unfold median.
  rewrite existsb_is_nan_repeat, np_sort_repeat, repeat_length.
  destruct (Nat.eqb_spec k 0) as [E | _]; [lia|].
  assert (Hhalf : (k / 2 < k)%nat) by (apply Nat.div_lt; lia).
  destruct (Nat.even k).
  - rewrite !nth_repeat_lt by lia.
    exists ((a + a) / 2). split; [reflexivity | field].
  - rewrite nth_repeat_lt by lia.
    exists a. split; reflexivity.
Qed.








(** ** [find_peaks]: detections above the band *)

(** Without any detection the restriction layer returns the marker. *)
Lemma within_band_nil : try_except (within_band []) [(-1)%Z] = Ok [(-1)%Z].
Proof. reflexivity. Qed.

(** With detections, it returns those at or below 30, and only those. *)
Lemma within_band_cons (e : fl * fl) (tab : list (fl * fl)) :
  try_except (within_band (e :: tab)) [(-1)%Z] =
    Ok (map uint32 (filter (fun i => fle i (Fin 30)) (map fst (e :: tab)))).
Proof. reflexivity. Qed.

(** What [find_peaks] returns for each table of a successful detection. *)
Lemma find_peaks_tables (flatspec f : list fl) (sliding_window : pyarg)
      (maxpks minpks : list (fl * fl)) :
  peakdect flatspec sliding_window (Some f) = Ok (maxpks, minpks) ->
  exists peakind valleyind,
    find_peaks flatspec sliding_window f = Ok (peakind, valleyind) /\
    try_except (within_band maxpks) [(-1)%Z] = Ok peakind /\
    try_except (within_band minpks) [(-1)%Z] = Ok valleyind.
Proof.
  intro Hdet. unfold find_peaks. rewrite Hdet. cbn [bind fst snd].
  destruct maxpks as [| e1 t1], minpks as [| e2 t2];
    eexists _, _; repeat split; reflexivity.
Qed.

(** C7, at the samples [0, 1, 0] with coordinates [40, 41, 42] and
    [delta = 1/2]: the detector confirms the maximum at 41, the restriction
    layer drops it, and the peak list returned is empty, not the marker. *)
Theorem find_peaks_all_above_band :
  peakdect (map Fin [0; 1; 0]) (PyScalar (1 # 2)) (Some (map Fin [40; 41; 42])) =
    Ok ([(Fin 41, Fin 1)], []) /\
  find_peaks (map Fin [0; 1; 0]) (PyScalar (1 # 2)) (map Fin [40; 41; 42]) =
    Ok ([], [(-1)%Z]).
Proof. split; reflexivity. Qed.

(** ** [final_check_for_output] *)

Lemma rasters_no_centers (extcv_std : list (list fl)) (flatspec : list fl)
      (extcv_pks : list (list pynum)) :
  concat extcv_pks = [] ->
  rasters extcv_pks extcv_std flatspec = Ok ([], []).
Proof.
  unfold rasters. generalize 0%nat at 2.
  induction extcv_pks as [| row rows IH]; intros cv Hnone; [reflexivity|].
  cbn [concat] in Hnone. apply app_eq_nil in Hnone as [-> Hrows].
  cbn [for_each bind]. now apply IH.
Qed.

(** C5. With no fitted center accumulated (no repetition recorded, or none
    recorded a component) the aggregator returns two empty sequences and
    raises nothing: the histogram of no data has five empty bins, each
    passes the support test vacuously, and the median width of an empty bin
    is [NaN], which is not [<= 10]. *)
Theorem final_check_for_output_empty :
  forall (extcv_pks : list (list pynum)) (extcv_std : list (list fl))
         (flatspec : list fl) (g : rng),
    concat extcv_pks = [] ->
    final_check_for_output extcv_pks extcv_std flatspec g = (Ok ([], []), g).
Proof.
  intros extcv_pks extcv_std flatspec g Hnone.
  unfold final_check_for_output.
  rewrite (rasters_no_centers extcv_std flatspec extcv_pks Hnone).
  reflexivity.
Qed.

Lemma final_check_for_output_empty_witness :
  concat ([] : list (list pynum)) = [] /\
  final_check_for_output [] [] (repeat (Fin 1) 49)
                         (mk_rng (fun i => (3 * i + 1)%nat) 0) =
    (Ok ([], []), mk_rng (fun i => (3 * i + 1)%nat) 0).
Proof.
  split; [reflexivity|].
  apply (final_check_for_output_empty [] [] (repeat (Fin 1) 49)
           (mk_rng (fun i => (3 * i + 1)%nat) 0)).
  reflexivity.
Defined.

(** ** [final_check_for_output]: which bins contribute *)

Lemma bootstrap_loop_ok (data : list fl) :
  data <> [] ->
  forall (k : nat) (acc : list fl) (g : rng),
    exists dist g', bootstrap_loop data k acc g = (Ok dist, g').
Proof.
  intros Hne k. induction k as [| k IH]; intros acc g.
  - now exists acc, g.
  - cbn [bootstrap_loop]. unfold bindS at 1.
    destruct data as [| a data]; [congruence|].
    cbn [choice]. apply IH.
Qed.

Lemma bootstrap_ok (data : list fl) (g : rng) :
  data <> [] -> exists r g', bootstrap data g = (Ok r, g').
Proof.
  intro Hne. unfold bootstrap, bindS.
  destruct (bootstrap_loop_ok data Hne 1000 [] g) as (dist & g' & H).
  rewrite H. eexists _, _. reflexivity.
Qed.

Lemma passes_width_nonempty (p : list fl * list fl) :
  passes_width p = true -> snd p <> [].
Proof.
  unfold passes_width. intros H E. rewrite E in H. discriminate.
Qed.

(** The final loop appends one center and one bandwidth for each bin whose
    median width is at most 10, and nothing for the others. *)
Lemma consensus_loop_count (params : list (list fl * list fl)) :
  Forall (fun p => length (fst p) = length (snd p)) params ->
  forall (final_peaks final_stds : list fl) (g : rng),
    exists peaks bws g',
      consensus_loop params final_peaks final_stds g = (Ok (peaks, bws), g') /\
      length peaks = (length final_peaks + length (filter passes_width params))%nat /\
      length bws = (length final_stds + length (filter passes_width params))%nat.
Proof.
  induction 1 as [| [pks stds] params Hlen _ IH]; intros fp fs g.
  - exists fp, fs, g. cbn. split; [reflexivity | lia].
  - cbn [consensus_loop filter].
    change (fle (median stds) (Fin 10)) with (passes_width (pks, stds)).
    destruct (passes_width (pks, stds)) eqn:Hpass.
    + apply passes_width_nonempty in Hpass. cbn [fst snd] in Hlen, Hpass.
      assert (Hpks : pks <> []) by (destruct pks, stds; cbn in *; congruence).
      assert (Hbw : map (fmul (Fin (2355 # 1000))) stds <> [])
        by (destruct stds; cbn; congruence).
      unfold bindS at 1.
      destruct (bootstrap_ok pks g Hpks) as (cf & g1 & Hcf). rewrite Hcf.
      unfold bindS at 1.
      destruct (bootstrap_ok _ g1 Hbw) as (bw & g2 & Hbwp). rewrite Hbwp.
      destruct (IH (fp ++ [nth 0 cf NaN]) (fs ++ [nth 0 bw NaN]) g2)
        as (peaks & bws & g' & Hrun & Hp & Hb).
      exists peaks, bws, g'. split; [exact Hrun|].
      rewrite length_app in Hp, Hb. cbn [length] in *. lia.
    + apply IH.
Qed.

Lemma sorted_params_lengths (pr : list Q) (sr : list fl) (ranges : list (Q * Q)) :
  Forall (fun p => length (fst p) = length (snd p)) (sorted_params pr sr ranges).
Proof.
  unfold sorted_params. apply Forall_map, Forall_forall. intros r _.
  cbn [fst snd]. unfold take. now rewrite !length_map.
Qed.

(** The aggregator fails only while building the rasters; otherwise it
    returns as many centers, and as many bandwidths, as there are retained
    bins whose median width is at most 10. *)
Lemma final_check_for_output_count
      (extcv_pks : list (list pynum)) (extcv_std : list (list fl))
      (flatspec : list fl) (pr : list Q) (sr : list fl) (g : rng) :
  rasters extcv_pks extcv_std flatspec = Ok (pr, sr) ->
  exists peaks bws g',
    final_check_for_output extcv_pks extcv_std flatspec g = (Ok (peaks, bws), g') /\
    length peaks = length (filter passes_width (retained_bins pr sr)) /\
    length bws = length (filter passes_width (retained_bins pr sr)).
Proof.
  intro Hr. unfold final_check_for_output. rewrite Hr.
  unfold np_histogram at 1.
  destruct (consensus_loop_count (retained_bins pr sr)
              (sorted_params_lengths pr sr _) [] [] g)
    as (peaks & bws & g' & Hrun & Hp & Hb).
  exists peaks, bws, g'. split; [exact Hrun | split; assumption].
Qed.

(** C3, at one repetition with centers [0, 1, 1, 5, 5] and widths
    [20, 1, 1, 1, 1].  The edges are [0, 1, .., 5]; the histogram puts the
    center 0 alone in the first bin, whose only width is 20.  The final loop
    gathers the members of that bin with both edges included, so the two
    centers at 1 join it, the median width becomes 1, and the bin is kept:
    three centers are returned, for the first, second and last bin. *)
Theorem final_check_for_output_edge_members :
  rasters edge_pks edge_std edge_flatspec =
    Ok ([0; 1; 1; 5; 5], [Fin 20; Fin 1; Fin 1; Fin 1; Fin 1]) /\
  fst (np_histogram [0; 1; 1; 5; 5] 5) = [1; 2; 0; 0; 2]%nat /\
  bin_widths [0; 1; 1; 5; 5] [Fin 20; Fin 1; Fin 1; Fin 1; Fin 1]
             (snd (np_histogram [0; 1; 1; 5; 5] 5)) 0 = [Fin 20] /\
  fle (median [Fin 20]) (Fin 10) = false /\
  map snd (retained_bins [0; 1; 1; 5; 5] [Fin 20; Fin 1; Fin 1; Fin 1; Fin 1]) =
    [[Fin 20; Fin 1; Fin 1]; [Fin 1; Fin 1]; [Fin 1; Fin 1]] /\
  (forall g : rng,
      exists peaks bws g',
        final_check_for_output edge_pks edge_std edge_flatspec g =
          (Ok (peaks, bws), g') /\
        length peaks = 3%nat /\ length bws = 3%nat).
Proof.
  assert (Hr : rasters edge_pks edge_std edge_flatspec =
               Ok ([0; 1; 1; 5; 5], [Fin 20; Fin 1; Fin 1; Fin 1; Fin 1]))
    by (vm_compute; reflexivity).
  split; [exact Hr|].
  split; [vm_compute; reflexivity|].
  split; [vm_compute; reflexivity|].
  split; [vm_compute; reflexivity|].
  split; [vm_compute; reflexivity|].
  intro g.
  destruct (final_check_for_output_count edge_pks edge_std edge_flatspec
              _ _ g Hr) as (peaks & bws & g' & Hrun & Hp & Hb).
  exists peaks, bws, g'. split; [exact Hrun|].
  split; [rewrite Hp | rewrite Hb]; vm_compute; reflexivity.
Qed.

(** The same edge, seen from the support test.  With forty survivors a bin
    needs two members.  The histogram counts one center in the first bin, so
    the bin is dropped, although twenty-one survivors lie between its edges
    when both are included, the set the final loop would gather for it. *)
Lemma final_check_for_output_edge_support :
  rasters support_pks support_std edge_flatspec =
    Ok (support_raster, repeat (Fin 1) 40) /\
  fst (np_histogram support_raster 5) = [1; 20; 0; 0; 19]%nat /\
  length (temp_ind support_raster 0 1) = 21%nat /\
  map (fun p => length (fst p))
      (retained_bins support_raster (repeat (Fin 1) 40)) = [20; 19]%nat /\
  (forall g : rng,
      exists peaks bws g',
        final_check_for_output support_pks support_std edge_flatspec g =
          (Ok (peaks, bws), g') /\
        length peaks = 2%nat /\ length bws = 2%nat).
Proof.
  assert (Hr : rasters support_pks support_std edge_flatspec =
               Ok (support_raster, repeat (Fin 1) 40))
    by (vm_compute; reflexivity).
  split; [exact Hr|].
  split; [vm_compute; reflexivity|].
  split; [vm_compute; reflexivity|].
  split; [vm_compute; reflexivity|].
  intro g.
  destruct (final_check_for_output_count support_pks support_std edge_flatspec
              _ _ g Hr) as (peaks & bws & g' & Hrun & Hp & Hb).
  exists peaks, bws, g'. split; [exact Hrun|].
  split; [rewrite Hp | rewrite Hb]; vm_compute; reflexivity.
Qed.

(** ** [norm]: a sum of weighted normal densities *)

Module GaussianFacts.

Import GaussianModel.
Local Open Scope R_scope.

Lemma int_of_INR (k : nat) : int_of (INR k) = Z.of_nat k.
Proof.
  unfold int_of. destruct (Rle_dec 0 (INR k)) as [_ | H].
  - apply Int_part_INR.
  - exfalso. apply H, pos_INR.
Qed.

Lemma getitem_nth {A : Type} (l : list A) (i : nat) (d : A) :
  (i < length l)%nat -> getitem l i = Ok (nth i l d).
Proof.
  intro Hi. unfold getitem. now rewrite (nth_error_nth' l d Hi).
Qed.

Lemma nth_map_lt {A B : Type} (g : A -> B) (l : list A) (j : nat) (d : B) (d' : A) :
  (j < length l)%nat -> nth j (map g l) d = g (nth j l d').
Proof.
  intro Hj. rewrite (nth_indep _ d (g d')) by now rewrite length_map.
  apply map_nth.
Qed.

Lemma skipn_nth_cons {A : Type} (l : list A) (i : nat) (d : A) :
  (i < length l)%nat -> skipn i l = nth i l d :: skipn (S i) l.
Proof.
  revert i. induction l as [| a l IH]; intros [| i] Hi; cbn in Hi |- *;
    try lia; [reflexivity|].
  apply IH. lia.
Qed.

Section Packed.

Variables centers stds amps : list R.
Variable k : nat.
Hypothesis Hcenters : length centers = k.
Hypothesis Hstds : length stds = k.
Hypothesis Hamps : length amps = k.

Lemma getitem_center (i : nat) :
  (i < k)%nat -> getitem (pack centers stds amps k) i = Ok (nth i centers 0).
Proof.
  intro Hi. unfold pack, getitem.
  rewrite nth_error_app1 by lia.
  now rewrite (nth_error_nth' centers 0) by lia.
Qed.

Lemma getitem_std (i : nat) :
  (i < k)%nat -> getitem (pack centers stds amps k) (i + k) = Ok (nth i stds 0).
Proof.
  intro Hi. unfold pack, getitem.
  rewrite nth_error_app2 by lia. rewrite nth_error_app1 by lia.
  replace (i + k - length centers)%nat with i by lia.
  now rewrite (nth_error_nth' stds 0) by lia.
Qed.

Lemma getitem_amp (i : nat) :
  (i < k)%nat ->
  getitem (pack centers stds amps k) (i + 2 * k) = Ok (nth i amps 0).
Proof.
  intro Hi. unfold pack, getitem.
  rewrite nth_error_app2 by lia. rewrite nth_error_app2 by lia.
  rewrite nth_error_app1 by lia.
  replace (i + 2 * k - length centers - length stds)%nat with i by lia.
  now rewrite (nth_error_nth' amps 0) by lia.
Qed.

Lemma nd_add_curve (x : list R) (fitdat : ndarray) (f : R -> R) :
  shaped x fitdat ->
  shaped x (nd_add fitdat (Vector (map f x))) /\
  forall j, (j < length x)%nat ->
    nd_get (nd_add fitdat (Vector (map f x))) j =
      nd_get fitdat j + f (nth j x 0).
Proof.
  destruct fitdat as [r | l]; cbn [shaped nd_add nd_get]; intro Hshape.
  - split; [now rewrite !length_map|].
    intros j Hj.
    rewrite (nth_map_lt _ _ j 0 0) by now rewrite length_map.
    now rewrite (nth_map_lt f x j 0 0).
  - split; [rewrite length_map, length_combine, length_map; lia|].
    intros j Hj.
    rewrite (nth_map_lt _ _ j 0 (0, 0))
      by (rewrite length_combine, length_map; lia).
    rewrite combine_nth by now rewrite length_map.
    cbn [fst snd]. now rewrite (nth_map_lt f x j 0 0).
Qed.

Lemma norm_loop_sum (x : list R) (n : nat) :
  forall (i : nat) (fitdat : ndarray),
    (i + n = k)%nat -> shaped x fitdat ->
    exists fit,
      norm_loop x (pack centers stds amps k) k (seq i n) fitdat = Ok fit /\
      forall j, (j < length x)%nat ->
        nd_get fit j =
          nd_get fitdat j +
          mixture (skipn i centers) (skipn i stds) (skipn i amps) (nth j x 0).
Proof.
  induction n as [| n IH]; intros i fitdat Hin Hshape.
  - exists fitdat. split; [reflexivity|].
    intros j _. rewrite (skipn_all2 centers) by lia. cbn [mixture]. ring.
  - cbn [seq norm_loop].
    rewrite getitem_amp, getitem_center, getitem_std by lia. cbn [bind].
    destruct (nd_add_curve x fitdat
                (fun xi => nth i amps 0 * norm_pdf xi (nth i centers 0) (nth i stds 0))
                Hshape) as [Hshape' Hget].
    destruct (IH (S i) _ ltac:(lia) Hshape') as (fit & Hrun & Hfit).
    exists fit. split; [exact Hrun|].
    intros j Hj. rewrite (Hfit j Hj), (Hget j Hj).
    rewrite (skipn_nth_cons centers i 0), (skipn_nth_cons stds i 0),
      (skipn_nth_cons amps i 0) by lia.
    cbn [mixture]. ring.
Qed.

End Packed.

(** C9. On a parameter vector packed as [centers ++ stds ++ amps ++ [k]]
    the model function returns, at each frequency point, the sum of the [k]
    weighted normal densities; for one component with center 5, standard
    deviation 1 and amplitude 1 its value at 5 is [1 / (1 * sqrt (2 pi))],
    exactly over the reals and therefore within every tolerance. *)
Theorem norm_is_mixture :
  forall (centers stds amps : list R) (k : nat) (x : list R),
    length centers = k -> length stds = k -> length amps = k ->
    Forall (fun s => 0 < s) stds ->
    (exists fit,
        norm x (pack centers stds amps k) = Ok fit /\
        forall j, (j < length x)%nat ->
          nd_get fit j = mixture centers stds amps (nth j x 0)) /\
    norm [5] (pack [5] [1] [1] 1) = Ok (Vector [1 / (1 * sqrt (2 * PI))]) /\
    (forall eps, 0 < eps ->
       exists v, norm [5] (pack [5] [1] [1] 1) = Ok (Vector [v]) /\
                 Rabs (v - 1 / sqrt (2 * PI)) < eps).
Proof.
  intros centers stds amps k x Hc Hs Ha _.
  assert (Hpeak : norm [5] (pack [5] [1] [1] 1) =
                  Ok (Vector [1 / (1 * sqrt (2 * PI))])).
  { unfold norm, pack. cbn [app rev].
    rewrite int_of_INR, Nat2Z.id.
    cbn [seq norm_loop getitem nth_error Nat.add Nat.mul bind nd_add map].
    do 3 f_equal. unfold norm_pdf.
    replace (- ((5 - 5) / 1 * ((5 - 5) / 1)) / 2) with 0 by (field; Lra.lra).
    rewrite exp_0.
    assert (Hsqrt : sqrt (2 * PI) <> 0).
    { apply Rgt_not_eq, sqrt_lt_R0. pose proof PI_RGT_0. Lra.lra. }
    field. exact Hsqrt. }
  split; [| split; [exact Hpeak|]].
  - unfold norm, pack. rewrite !rev_app_distr. cbn [rev app].
    rewrite int_of_INR, Nat2Z.id.
    destruct (norm_loop_sum centers stds amps k Hc Hs Ha x k 0 (Scalar 0)
                eq_refl I) as (fit & Hrun & Hfit).
    exists fit. split; [exact Hrun|].
    intros j Hj. rewrite (Hfit j Hj). cbn [nd_get skipn]. ring.
  - intros eps Heps. eexists. split; [exact Hpeak|].
    replace (1 / (1 * sqrt (2 * PI)) - 1 / sqrt (2 * PI)) with 0.
    + rewrite Rabs_R0. exact Heps.
    + field. apply Rgt_not_eq, sqrt_lt_R0. pose proof PI_RGT_0. Lra.lra.
Qed.

Lemma norm_is_mixture_witness :
  length [8; 20] = 2%nat /\ length [8 / 10; 12 / 10] = 2%nat /\
  length [1; 2] = 2%nat /\ Forall (fun s => 0 < s) [8 / 10; 12 / 10] /\
  exists fit,
    norm [7; 8; 9] (pack [8; 20] [8 / 10; 12 / 10] [1; 2] 2) = Ok fit /\
    forall j, (j < length [7; 8; 9])%nat ->
      nd_get fit j = mixture [8; 20] [8 / 10; 12 / 10] [1; 2] (nth j [7; 8; 9] 0).
Proof.
  assert (Hpos : Forall (fun s => 0 < s) [8 / 10; 12 / 10]).
  { repeat constructor; Lra.lra. }
  repeat (split; [first [reflexivity | exact Hpos]|]).
  exact (proj1 (norm_is_mixture [8; 20] [8 / 10; 12 / 10] [1; 2] 2 [7; 8; 9]
                  eq_refl eq_refl eq_refl Hpos)).
Defined.

End GaussianFacts.

(** ** [peakdect]: what the tables hold *)

Lemma flt_NInf_r (a : fl) : flt a NInf = false.
Proof. now destruct a. Qed.

Lemma flt_PInf_l (a : fl) : flt PInf a = false.
Proof. now destruct a. Qed.

Lemma pd_step_from_input (d : Q) (L : list (fl * fl)) (s : pd_state)
      (xi this : fl) :
  In (xi, this) L -> from_input L s -> from_input L (pd_step d s xi this).
Proof.
  intros Hin (Hmx & Hmn & Hmax & Hmin).
  unfold pd_step, from_input, fgt.
  destruct s as [n m np mp look maxt mint]; pd_fields.
  destruct (flt m this) eqn:E1; pd_fields;
    destruct (flt this n) eqn:E2; pd_fields;
    destruct look; pd_fields.
  all: match goal with
       | |- context [if ?c then _ else _] => destruct c eqn:E3; pd_fields
       end.
  all: repeat split; auto.
  all: try (apply Forall_app; split; [assumption|]; constructor; [|constructor]).
  all: try (destruct Hmx as [-> | Hmx]; [|exact Hmx];
            cbn [fadd fsub fopp] in E3; rewrite flt_NInf_r in E3; discriminate).
  all: try (destruct Hmn as [-> | Hmn]; [|exact Hmn];
            cbn [fadd fsub fopp] in E3; rewrite flt_PInf_l in E3; discriminate).
  all: try exact Hin.
Qed.

Lemma pd_loop_from_input (d : Q) (L l : list (fl * fl)) :
  incl l L -> forall s, from_input L s -> from_input L (pd_loop d s l).
Proof.
  induction l as [| [xi this] l IH]; intros Hincl s Hs; [exact Hs|].
  cbn [pd_loop fold_left fst snd].
  change (fold_left _ ?xs ?st) with (pd_loop d st xs).
  apply IH.
  - intros e He. apply Hincl. now right.
  - apply pd_step_from_input; [apply Hincl; now left | exact Hs].
Qed.

(** X1. Whatever the input, every entry of the two tables is a sample of the
    input paired with its own coordinate: the detector reports no value and
    no coordinate that it was not given, in particular not its initial
    placeholders. *)
Theorem peakdect_entries_are_samples :
  forall (v : list fl) (delta : pyarg) (x : option (list fl))
         (maxt mint : list (fl * fl)),
    peakdect v delta x = Ok (maxt, mint) ->
    forall e, In e maxt \/ In e mint -> In e (combine (default_x x v) v).
Proof.
  intros v delta x maxt mint Hrun e He.
  unfold peakdect in Hrun.
  destruct (negb (length v =? length (default_x x v))%nat); [discriminate|].
  destruct (negb (isscalar delta)); [discriminate|].
  destruct delta as [d | a]; [|discriminate].
  destruct (Qle_bool d 0); [discriminate|].
  injection Hrun as <- <-.
  destruct (pd_loop_from_input d (combine (default_x x v) v) _
              (incl_refl _) pd_init) as (_ & _ & Hmax & Hmin).
  { repeat split; auto. }
  rewrite Forall_forall in Hmax, Hmin.
  destruct He as [He | He]; [now apply Hmax | now apply Hmin].
Qed.

Lemma peakdect_entries_are_samples_witness :
  peakdect (map Fin [0; 2; 0; 2]) (PyScalar 1) (Some (map Fin [5; 6; 7; 8])) =
    Ok ([(Fin 6, Fin 2)], [(Fin 7, Fin 0)]) /\
  forall e, In e [(Fin 6, Fin 2)] \/ In e [(Fin 7, Fin 0)] ->
            In e (combine (default_x (Some (map Fin [5; 6; 7; 8]))
                                     (map Fin [0; 2; 0; 2]))
                          (map Fin [0; 2; 0; 2])).
Proof.
  split; [reflexivity|].
  exact (peakdect_entries_are_samples (map Fin [0; 2; 0; 2]) (PyScalar 1)
           (Some (map Fin [5; 6; 7; 8])) _ _ eq_refl).
Defined.

(** ** [peakdect]: inputs that confirm nothing *)

(** While seeking a maximum, a sample that is not more than [d] below the
    running maximum confirms nothing; the running maximum becomes the larger
    of the two. *)
Lemma pd_step_calm (d : Q) (s : pd_state) (xi : fl) (a : Q) :
  0 < d -> is_double a = true -> lookformax s = true ->
  (mx s = NInf \/ exists m, mx s = Fin m /\ m - d <= a) ->
  exists n np m' mp',
    pd_step d s xi (Fin a) =
      mk_pd n (Fin m') np mp' true (maxtab s) (mintab s) /\
    (m' = a \/ (mx s = Fin m' /\ a <= m')).
Proof.
  intros Hd Ha Hl Hmx. unfold pd_step, fgt.
  destruct s as [n m np mp look maxt mint]; pd_fields. subst look.
  assert (Hself : flt (Fin a) (fsub64 (Fin a) (Fin d)) = false)
    by (apply fsub64_no_confirm; [exact Ha | lra]).
  destruct Hmx as [-> | (m0 & -> & Hm0)].
  - change (flt NInf (Fin a)) with true. pd_fields.
    destruct (flt (Fin a) n); pd_fields; rewrite Hself;
      eexists _, _, _, _; (split; [reflexivity | now left]).
  - destruct (flt (Fin m0) (Fin a)) eqn:E; pd_fields.
    + destruct (flt (Fin a) n); pd_fields; rewrite Hself;
        eexists _, _, _, _; (split; [reflexivity | now left]).
    + apply flt_Fin_false in E.
      assert (Hno : flt (Fin a) (fsub64 (Fin m0) (Fin d)) = false)
        by (apply fsub64_no_confirm; assumption).
      destruct (flt (Fin a) n); pd_fields; rewrite Hno;
        eexists _, _, _, _; (split; [reflexivity | right; now split]).
Qed.

Lemma pd_loop_within (d lo hi : Q) (l : list Q) :
  0 < d -> hi - lo <= d ->
  Forall (fun a => lo <= a <= hi) l ->
  forallb is_double l = true ->
  forall (xl : list fl) (s : pd_state),
    lookformax s = true ->
    (mx s = NInf \/ exists m, mx s = Fin m /\ m <= hi) ->
    maxtab (pd_loop d s (combine xl (map Fin l))) = maxtab s /\
    mintab (pd_loop d s (combine xl (map Fin l))) = mintab s.
Proof.
  intros Hd Hband Hall. induction Hall as [| a l [Hlo Hhi] _ IH];
    intros Hdbl xl s Hl Hmx.
  - destruct xl; cbn; split; reflexivity.
  - destruct xl as [| xi xl]; [cbn; split; reflexivity|].
    cbn [forallb] in Hdbl. apply andb_true_iff in Hdbl as [Ha Hdbl].
    cbn [map combine pd_loop fold_left fst snd].
    change (fold_left _ ?xs ?st) with (pd_loop d st xs).
    destruct (pd_step_calm d s xi a Hd Ha Hl)
      as (n & np & m' & mp' & Hstep & Hm').
    { destruct Hmx as [E | (m & E & Hm)]; [now left | right].
      exists m. split; [exact E | lra]. }
    rewrite Hstep.
    destruct (IH Hdbl xl (mk_pd n (Fin m') np mp' true (maxtab s) (mintab s))
                eq_refl)
      as [H1 H2].
    { right. exists m'. split; [reflexivity|].
      destruct Hm' as [-> | [E _]]; [lra|].
      destruct Hmx as [E' | (m & E' & Hm)]; rewrite E' in E;
        [discriminate | injection E as <-; exact Hm]. }
    split; [exact H1 | exact H2].
Qed.

(** X2. Samples that all lie in a band no wider than [delta] confirm neither
    a maximum nor a minimum: variation that stays within the margin is
    ignored.  The samples are doubles, as the elements of a float array
    are. *)
Theorem peakdect_within_delta :
  forall (vs : list Q) (x : option (list fl)) (d lo hi : Q),
    forallb is_double vs = true ->
    0 < d -> hi - lo <= d ->
    Forall (fun a => lo <= a <= hi) vs ->
    length (default_x x (map Fin vs)) = length (map Fin vs) ->
    peakdect (map Fin vs) (PyScalar d) x = Ok ([], []).
Proof.
  intros vs x d lo hi Hdbl Hd Hband Hall Hlen.
  rewrite (peakdect_ok _ x d Hd Hlen).
  destruct (pd_loop_within d lo hi vs Hd Hband Hall Hdbl
              (default_x x (map Fin vs)) pd_init eq_refl (or_introl eq_refl))
    as [H1 H2].
  now rewrite H1, H2.
Qed.

Lemma peakdect_within_delta_witness :
  forallb is_double [3 # 4; 1; 5 # 8; 7 # 8] = true /\
  0 < 1 # 2 /\ 1 - (5 # 8) <= 1 # 2 /\
  Forall (fun a => 5 # 8 <= a <= 1) [3 # 4; 1; 5 # 8; 7 # 8] /\
  peakdect (map Fin [3 # 4; 1; 5 # 8; 7 # 8]) (PyScalar (1 # 2)) None =
    Ok ([], []).
Proof.
  assert (Hdbl : forallb is_double [3 # 4; 1; 5 # 8; 7 # 8] = true)
    by (vm_compute; reflexivity).
  assert (Hall : Forall (fun a => 5 # 8 <= a <= 1) [3 # 4; 1; 5 # 8; 7 # 8]).
  { repeat constructor; cbn; discriminate. }
  assert (Hband : 1 - (5 # 8) <= 1 # 2) by (cbn; discriminate).
  split; [exact Hdbl|].
  split; [reflexivity|]. split; [exact Hband|]. split; [exact Hall|].
  exact (peakdect_within_delta [3 # 4; 1; 5 # 8; 7 # 8] None (1 # 2)
           (5 # 8) 1 Hdbl eq_refl Hband Hall eq_refl).
Defined.

Lemma pd_loop_non_decreasing (d : Q) (l : list Q) :
  0 < d ->
  forall (xl : list fl) (s : pd_state) (b : Q),
    forallb is_double l = true ->
    lookformax s = true ->
    (mx s = NInf \/ exists m, mx s = Fin m /\ m <= b) ->
    non_decreasing (b :: l) ->
    maxtab (pd_loop d s (combine xl (map Fin l))) = maxtab s /\
    mintab (pd_loop d s (combine xl (map Fin l))) = mintab s.
Proof.
  intros Hd. induction l as [| a l IH]; intros xl s b Hdbl Hl Hmx Hsorted.
  - destruct xl; cbn; split; reflexivity.
  - destruct xl as [| xi xl]; [cbn; split; reflexivity|].
    destruct Hsorted as [Hba Hsorted].
    cbn [forallb] in Hdbl. apply andb_true_iff in Hdbl as [Ha Hdbl].
    cbn [map combine pd_loop fold_left fst snd].
    change (fold_left _ ?xs ?st) with (pd_loop d st xs).
    destruct (pd_step_calm d s xi a Hd Ha Hl)
      as (n & np & m' & mp' & Hstep & Hm').
    { destruct Hmx as [E | (m & E & Hm)]; [now left | right].
      exists m. split; [exact E | lra]. }
    rewrite Hstep.
    destruct (IH xl (mk_pd n (Fin m') np mp' true (maxtab s) (mintab s)) a
                Hdbl eq_refl) as [H1 H2].
    { right. exists m'. split; [reflexivity|].
      destruct Hm' as [-> | [E _]]; [lra|].
      destruct Hmx as [E' | (m & E' & Hm)]; rewrite E' in E;
        [discriminate | injection E as <-; lra]. }
    { exact Hsorted. }
    split; [exact H1 | exact H2].
Qed.

(** X3. A sequence of doubles that never falls confirms nothing: the
    running maximum at the end of the input is dropped, because no later
    sample retraces from it.  A peak at the last coordinate is therefore
    never reported. *)
Theorem peakdect_non_decreasing :
  forall (vs : list Q) (x : option (list fl)) (d : Q),
    forallb is_double vs = true ->
    0 < d -> non_decreasing vs ->
    length (default_x x (map Fin vs)) = length (map Fin vs) ->
    peakdect (map Fin vs) (PyScalar d) x = Ok ([], []).
Proof.
  intros vs x d Hdbl Hd Hsorted Hlen.
  rewrite (peakdect_ok _ x d Hd Hlen).
  destruct vs as [| a vs]; [destruct (default_x x _); reflexivity|].
  destruct (pd_loop_non_decreasing d (a :: vs) Hd
              (default_x x (map Fin (a :: vs))) pd_init a Hdbl eq_refl
              (or_introl eq_refl)) as [H1 H2].
  { split; [lra | exact Hsorted]. }
  now rewrite H1, H2.
Qed.

Lemma peakdect_non_decreasing_witness :
  forallb is_double [0; 1; 1; 3] = true /\
  0 < 1 # 8 /\ non_decreasing [0; 1; 1; 3] /\
  peakdect (map Fin [0; 1; 1; 3]) (PyScalar (1 # 8)) None = Ok ([], []).
Proof.
  assert (Hdbl : forallb is_double [0; 1; 1; 3] = true)
    by (vm_compute; reflexivity).
  assert (Hs : non_decreasing [0; 1; 1; 3]).
  { cbn. repeat split; discriminate. }
  split; [exact Hdbl|]. split; [reflexivity|]. split; [exact Hs|].
  exact (peakdect_non_decreasing [0; 1; 1; 3] None (1 # 8) Hdbl eq_refl Hs
           eq_refl).
Defined.

(** ** [peakdect]: every reported extremum stands out by more than [delta] *)

Lemma flt_trans (a b c : fl) :
  flt a b = true -> flt b c = true -> flt a c = true.
Proof.
  destruct a as [| | p |], b as [| | q |], c as [| | r |]; cbn;
    try discriminate; try reflexivity.
  rewrite !Qltb_lt. apply Qlt_trans.
Qed.

Lemma nth_error_snoc_lt {A : Type} (l : list A) (e : A) (k : nat) :
  (k < length l)%nat -> nth_error (l ++ [e]) k = nth_error l k.
Proof. intro H. now apply nth_error_app1. Qed.

Lemma nth_error_snoc_eq {A : Type} (l : list A) (e : A) :
  nth_error (l ++ [e]) (length l) = Some e.
Proof. rewrite nth_error_app2, Nat.sub_diag by lia. reflexivity. Qed.

Lemma nth_error_lt {A : Type} (l : list A) (k : nat) (a : A) :
  nth_error l k = Some a -> (k < length l)%nat.
Proof. intro H. apply nth_error_Some. congruence. Qed.

(** One iteration while seeking a maximum: the running extrema follow the
    sample, and then either the sample confirms the running maximum or
    nothing is appended. *)
Lemma pd_step_seek_max (d : Q) (s : pd_state) (xi this : fl) :
  lookformax s = true ->
  let mx' := if flt (mx s) this then this else mx s in
  let mxpos' := if flt (mx s) this then xi else mxpos s in
  let mn' := if flt this (mn s) then this else mn s in
  let mnpos' := if flt this (mn s) then xi else mnpos s in
  (flt this (fsub64 mx' (Fin d)) = true /\
   pd_step d s xi this =
     mk_pd this mx' xi mxpos' false (maxtab s ++ [(mxpos', mx')]) (mintab s)) \/
  (flt this (fsub64 mx' (Fin d)) = false /\
   pd_step d s xi this = mk_pd mn' mx' mnpos' mxpos' true (maxtab s) (mintab s)).
Proof.
  intro Hl. unfold pd_step, fgt.
  destruct s as [n m np mp look maxt mint]; pd_fields. subst look.
  destruct (flt m this); pd_fields; destruct (flt this n); pd_fields;
    match goal with
    | |- context [flt this (fsub64 ?a (Fin d))] =>
        destruct (flt this (fsub64 a (Fin d)))
    end;
    first [ left; split; reflexivity | right; split; reflexivity ].
Qed.

(** One iteration while seeking a minimum, likewise. *)
Lemma pd_step_seek_min (d : Q) (s : pd_state) (xi this : fl) :
  lookformax s = false ->
  let mx' := if flt (mx s) this then this else mx s in
  let mxpos' := if flt (mx s) this then xi else mxpos s in
  let mn' := if flt this (mn s) then this else mn s in
  let mnpos' := if flt this (mn s) then xi else mnpos s in
  (flt (fadd64 mn' (Fin d)) this = true /\
   pd_step d s xi this =
     mk_pd mn' this mnpos' xi true (maxtab s) (mintab s ++ [(mnpos', mn')])) \/
  (flt (fadd64 mn' (Fin d)) this = false /\
   pd_step d s xi this = mk_pd mn' mx' mnpos' mxpos' false (maxtab s) (mintab s)).
Proof.
  intro Hl. unfold pd_step, fgt.
  destruct s as [n m np mp look maxt mint]; pd_fields. subst look.
  destruct (flt m this); pd_fields; destruct (flt this n); pd_fields;
    match goal with
    | |- context [flt (fadd64 ?a (Fin d)) this] =>
        destruct (flt (fadd64 a (Fin d)) this)
    end;
    first [ left; split; reflexivity | right; split; reflexivity ].
Qed.

Lemma alternating_snoc_max (P R : fl * fl -> fl * fl -> Prop)
      (maxt mint : list (fl * fl)) (e : fl * fl) :
  length maxt = length mint ->
  alternating P R maxt mint ->
  (forall k m, nth_error mint k = Some m -> S k = length mint -> R m e) ->
  alternating P R (maxt ++ [e]) mint.
Proof.
  intros Hlen [P1 P2] Hlast. split; intros k M m HM Hm;
    pose proof (nth_error_lt _ _ _ Hm) as Hk.
  - rewrite nth_error_snoc_lt in HM by lia. eauto.
  - destruct (Nat.eq_dec (S k) (length maxt)) as [Heq | Hneq].
    + rewrite Heq, nth_error_snoc_eq in HM. injection HM as <-.
      apply (Hlast k m Hm). lia.
    + rewrite nth_error_snoc_lt in HM by lia. eauto.
Qed.

Lemma alternating_snoc_min (P R : fl * fl -> fl * fl -> Prop)
      (maxt mint : list (fl * fl)) (e M : fl * fl) :
  length maxt = S (length mint) ->
  alternating P R maxt mint ->
  nth_error maxt (length mint) = Some M ->
  P M e ->
  alternating P R maxt (mint ++ [e]).
Proof.
  intros Hlen [P1 P2] HM Hbelow. split; intros k M' m HM' Hm;
    pose proof (nth_error_lt _ _ _ HM') as Hk.
  - destruct (Nat.eq_dec k (length mint)) as [-> | Hneq].
    + rewrite nth_error_snoc_eq in Hm. injection Hm as <-.
      rewrite HM in HM'. injection HM' as <-. exact Hbelow.
    + rewrite nth_error_snoc_lt in Hm by lia. eauto.
  - rewrite nth_error_snoc_lt in Hm by lia. eauto.
Qed.

Lemma prom_inv_init (d : Q) : prom_inv d pd_init.
Proof.
  repeat split.
  - intros [| k] M m H; discriminate.
  - intros [| k] M m H; discriminate.
  - apply pd_inv_init.
  - discriminate.
  - intros _ [| k] m H; discriminate.
Qed.

Lemma pd_step_prom_inv (d : Q) (s : pd_state) (xi this : fl) :
  is_float this = true ->
  prom_inv d s -> prom_inv d (pd_step d s xi this).
Proof.
  intros Hfloat (Hprom & Hinv & Hmin & Hmax).
  assert (Hinv' : pd_inv (pd_step d s xi this))
    by (eapply pd_event_inv; [apply pd_step_event | exact Hinv]).
  destruct (lookformax s) eqn:Hl.
  - destruct Hinv as [[_ Hlen] | [? _]]; [| congruence].
    specialize (Hmax eq_refl).
    assert (Hmx' : forall k m, nth_error (mintab s) k = Some m ->
                     S k = length (mintab s) ->
                     flt (fadd (snd m) (Fin d))
                         (if flt (mx s) this then this else mx s) = true).
    { intros k m Hm Hk. specialize (Hmax k m Hm Hk).
      destruct (flt (mx s) this) eqn:E;
        [now apply (flt_trans _ (mx s)) | exact Hmax]. }
    destruct (pd_step_seek_max d s xi this Hl)
      as [[Htest Hstep] | [Htest Hstep]];
      rewrite Hstep in Hinv' |- *; unfold prom_inv; pd_fields.
    + apply (flt_fsub64 this) in Htest; [| exact Hfloat].
      split; [now apply alternating_snoc_max|]. split; [exact Hinv'|].
      split; [| discriminate].
      intros _. eexists. split; [rewrite <- Hlen; apply nth_error_snoc_eq|].
      exact Htest.
    + split; [exact Hprom|]. split; [exact Hinv'|].
      split; [discriminate|]. intros _. exact Hmx'.
  - destruct Hinv as [[? _] | [_ Hlen]]; [congruence|].
    destruct (Hmin eq_refl) as (M & HM & Hbelow).
    assert (Hmn' : flt (if flt this (mn s) then this else mn s)
                       (fsub (snd M) (Fin d)) = true).
    { destruct (flt this (mn s)) eqn:E;
        [now apply (flt_trans _ (mn s)) | exact Hbelow]. }
    destruct (pd_step_seek_min d s xi this Hl)
      as [[Htest Hstep] | [Htest Hstep]];
      rewrite Hstep in Hinv' |- *; unfold prom_inv; pd_fields.
    + apply (flt_fadd64 this) in Htest; [| exact Hfloat].
      split; [now apply (alternating_snoc_min _ _ _ _ _ M)|]. split; [exact Hinv'|].
      split; [discriminate|].
      intros _ k e He Hk. rewrite length_app in Hk. cbn [length] in Hk.
      assert (k = length (mintab s)) by lia. subst k.
      rewrite nth_error_snoc_eq in He. injection He as <-. exact Htest.
    + split; [exact Hprom|]. split; [exact Hinv'|].
      split; [| discriminate]. intros _. exists M. split; assumption.
Qed.

Lemma pd_loop_prom_inv (d : Q) (l : list (fl * fl)) :
  forallb is_float (map snd l) = true ->
  forall s, prom_inv d s -> prom_inv d (pd_loop d s l).
Proof.
  induction l as [| p l IH]; intros Hfloat s Hs; [exact Hs|].
  cbn [map forallb] in Hfloat. apply andb_true_iff in Hfloat as [Hp Hfloat].
  cbn [pd_loop fold_left].
  change (fold_left _ ?xs ?st) with (pd_loop d st xs).
  apply (IH Hfloat), pd_step_prom_inv; [exact Hp | exact Hs].
Qed.

(** The samples the loop reads are samples of [v]. *)
Lemma forallb_combine_snd (f : fl -> bool) (x v : list fl) :
  forallb f v = true -> forallb f (map snd (combine x v)) = true.
Proof.
  revert v. induction x as [| xi x IH]; intros [| a v] H; try reflexivity.
  cbn [combine map forallb snd] in *.
  apply andb_true_iff in H as [Ha Hv]. now rewrite Ha, IH.
Qed.

(** X4. On an array of floats, each reported minimum is more than [delta]
    below the maximum reported before it and more than [delta] below the
    maximum reported after it, exactly and not only after rounding, so
    neighbouring extrema always differ by more than the margin. *)
Theorem peakdect_prominence :
  forall (v : list fl) (d : Q) (x : option (list fl))
         (maxt mint : list (fl * fl)),
    forallb is_float v = true ->
    peakdect v (PyScalar d) x = Ok (maxt, mint) ->
    prominent d maxt mint.
Proof.
  intros v d x maxt mint Hfloat Hrun.
  unfold peakdect in Hrun.
  destruct (negb (length v =? length (default_x x v))%nat); [discriminate|].
  cbn [isscalar negb] in Hrun.
  destruct (Qle_bool d 0); [discriminate|].
  injection Hrun as <- <-.
  apply (pd_loop_prom_inv d _ (forallb_combine_snd _ _ _ Hfloat) pd_init
           (prom_inv_init d)).
Qed.

Lemma peakdect_prominence_witness :
  forallb is_float (map Fin [0; 3; 1; 4; 0]) = true /\
  peakdect (map Fin [0; 3; 1; 4; 0]) (PyScalar 1) None =
    Ok ([(Fin 1, Fin 3); (Fin 3, Fin 4)], [(Fin 2, Fin 1)]) /\
  prominent 1 [(Fin 1, Fin 3); (Fin 3, Fin 4)] [(Fin 2, Fin 1)].
Proof.
  assert (Hfloat : forallb is_float (map Fin [0; 3; 1; 4; 0]) = true)
    by (vm_compute; reflexivity).
  assert (Hrun : peakdect (map Fin [0; 3; 1; 4; 0]) (PyScalar 1) None =
                 Ok ([(Fin 1, Fin 3); (Fin 3, Fin 4)], [(Fin 2, Fin 1)]))
    by (vm_compute; reflexivity).
  split; [exact Hfloat|]. split; [exact Hrun|].
  exact (peakdect_prominence (map Fin [0; 3; 1; 4; 0]) 1 None _ _ Hfloat Hrun).
Defined.

(** ** [peakdect]: the tables are ordered by coordinate *)

Lemma flt_NaN_r (a : fl) : flt a NaN = false.
Proof. now destruct a. Qed.

Lemma pd_step_ord_inv (d c q : Q) (s : pd_state) (this : fl) :
  0 < d -> c < q -> is_float this = true ->
  ord_inv c s -> ord_inv q (pd_step d s (Fin q) this).
Proof.
  intros Hd Hcq Hfloat (HA & HB & Hord & Hinv & Hmin & Hmax).
  assert (Hinv' : pd_inv (pd_step d s (Fin q) this))
    by (eapply pd_event_inv; [apply pd_step_event | exact Hinv]).
  assert (HA' : ((if flt (mx s) this then Fin q else mxpos s) = NaN /\
                 (if flt (mx s) this then this else mx s) = NInf) \/
                exists p, (if flt (mx s) this then Fin q else mxpos s) = Fin p /\
                          p <= q).
  { destruct (flt (mx s) this).
    - right. exists q. split; [reflexivity | lra].
    - destruct HA as [HA | (p & Hp & Hpc)]; [now left | right].
      exists p. split; [exact Hp | lra]. }
  assert (HB' : ((if flt this (mn s) then Fin q else mnpos s) = NaN /\
                 (if flt this (mn s) then this else mn s) = PInf) \/
                exists p, (if flt this (mn s) then Fin q else mnpos s) = Fin p /\
                          p <= q).
  { destruct (flt this (mn s)).
    - right. exists q. split; [reflexivity | lra].
    - destruct HB as [HB | (p & Hp & Hpc)]; [now left | right].
      exists p. split; [exact Hp | lra]. }
  assert (Hself : exists p, Fin q = Fin p /\ p <= q)
    by (exists q; split; [reflexivity | lra]).
  destruct (lookformax s) eqn:Hl.
  - destruct Hinv as [[_ Hlen] | [? _]]; [| congruence].
    specialize (Hmax eq_refl).
    destruct (pd_step_seek_max d s (Fin q) this Hl)
      as [[Htest Hstep] | [Htest Hstep]];
      rewrite Hstep in Hinv' |- *; unfold ord_inv; pd_fields.
    + (* the sample confirms the running maximum, which it did not raise *)
      destruct (flt (mx s) this) eqn:Eup;
        [rewrite flt_fsub64_self in Htest by assumption; discriminate|].
      assert (Hpos : exists p, mxpos s = Fin p /\ p <= c).
      { destruct HA as [[_ E] | HA]; [| exact HA].
        rewrite E in Htest. cbn [fsub64 fround fsub fopp fadd] in Htest.
        rewrite flt_NInf_r in Htest. discriminate. }
      destruct Hpos as (p & Hp & Hpc).
      split; [exact HA'|]. split; [now right|].
      split; [apply alternating_snoc_max; assumption|].
      split; [exact Hinv'|]. split; [| discriminate].
      intros _. eexists. split; [rewrite <- Hlen; apply nth_error_snoc_eq|].
      cbn [fst]. rewrite Hp. apply flt_Fin. lra.
    + split; [exact HA'|]. split; [exact HB'|].
      split; [exact Hord|]. split; [exact Hinv'|]. split; [discriminate|].
      intros _ k m Hm Hk. specialize (Hmax k m Hm Hk).
      destruct (flt (mx s) this); [| exact Hmax].
      destruct HA as [[E _] | (p & Hp & Hpc)].
      * rewrite E, flt_NaN_r in Hmax. discriminate.
      * rewrite Hp in Hmax. apply (flt_trans _ (Fin p)); [exact Hmax|].
        apply flt_Fin. lra.
  - destruct Hinv as [[? _] | [_ Hlen]]; [congruence|].
    destruct (Hmin eq_refl) as (M & HM & Hafter).
    destruct (pd_step_seek_min d s (Fin q) this Hl)
      as [[Htest Hstep] | [Htest Hstep]];
      rewrite Hstep in Hinv' |- *; unfold ord_inv; pd_fields.
    + (* the sample confirms the running minimum, which it did not lower *)
      destruct (flt this (mn s)) eqn:Edown;
        [rewrite flt_fadd64_self in Htest by assumption; discriminate|].
      assert (Hpos : exists p, mnpos s = Fin p /\ p <= c).
      { destruct HB as [[_ E] | HB]; [| exact HB].
        rewrite E in Htest. cbn [fadd64 fround fadd] in Htest.
        rewrite flt_PInf_l in Htest. discriminate. }
      destruct Hpos as (p & Hp & Hpc).
      split; [now right|]. split; [exact HB'|].
      split; [now apply (alternating_snoc_min _ _ _ _ _ M)|].
      split; [exact Hinv'|]. split; [discriminate|].
      intros _ k e He Hk. rewrite length_app in Hk. cbn [length] in Hk.
      assert (k = length (mintab s)) by lia. subst k.
      rewrite nth_error_snoc_eq in He. injection He as <-.
      cbn [fst]. rewrite Hp. apply flt_Fin. lra.
    + split; [exact HA'|]. split; [exact HB'|].
      split; [exact Hord|]. split; [exact Hinv'|]. split; [| discriminate].
      intros _. exists M. split; [exact HM|].
      destruct (flt this (mn s)); [| exact Hafter].
      destruct HB as [[E _] | (p & Hp & Hpc)].
      * rewrite E, flt_NaN_r in Hafter. discriminate.
      * rewrite Hp in Hafter. apply (flt_trans _ (Fin p)); [exact Hafter|].
        apply flt_Fin. lra.
Qed.

Lemma pd_loop_ord_inv (d : Q) (qs : list Q) :
  0 < d ->
  forall (vl : list fl) (c : Q) (s : pd_state),
    forallb is_float vl = true ->
    strictly_increasing (c :: qs) -> ord_inv c s ->
    exists c', ord_inv c' (pd_loop d s (combine (map Fin qs) vl)).
Proof.
  intro Hd. induction qs as [| q qs IH]; intros vl c s Hfloat Hinc Hs.
  - exists c. exact Hs.
  - destruct vl as [| this vl]; [exists c; exact Hs|].
    destruct Hinc as [Hcq Hinc].
    cbn [forallb] in Hfloat. apply andb_true_iff in Hfloat as [Hthis Hfloat].
    cbn [map combine pd_loop fold_left fst snd].
    change (fold_left _ ?xs ?st) with (pd_loop d st xs).
    apply (IH vl q); [exact Hfloat | exact Hinc|].
    now apply (pd_step_ord_inv d c).
Qed.

Lemma ord_inv_init (c : Q) : ord_inv c pd_init.
Proof.
  repeat split.
  - left. split; reflexivity.
  - left. split; reflexivity.
  - intros [| k] M m H; discriminate.
  - intros [| k] M m H; discriminate.
  - apply pd_inv_init.
  - discriminate.
  - intros _ [| k] m H; discriminate.
Qed.

(** X5. When the samples are floats and the coordinates are finite and
    strictly increasing, the reported extrema are ordered by coordinate and
    interleave: each maximum lies strictly before the minimum confirmed
    after it, which lies strictly before the next maximum. *)
Theorem peakdect_ordered :
  forall (v : list fl) (d : Q) (x : option (list fl)) (qs : list Q)
         (maxt mint : list (fl * fl)),
    forallb is_float v = true ->
    default_x x v = map Fin qs -> strictly_increasing qs ->
    peakdect v (PyScalar d) x = Ok (maxt, mint) ->
    ordered_by_coordinate maxt mint.
Proof.
  intros v d x qs maxt mint Hfloat Hx Hinc Hrun.
  unfold peakdect in Hrun. rewrite Hx in Hrun.
  destruct (negb (length v =? length (map Fin qs))%nat); [discriminate|].
  cbn [isscalar negb] in Hrun.
  destruct (Qle_bool d 0) eqn:Hd; [discriminate|].
  assert (Hpos : 0 < d).
  { apply Qnot_le_lt. intro H. apply Qle_bool_iff in H. congruence. }
  injection Hrun as <- <-.
  destruct (pd_loop_ord_inv d qs Hpos v (hd 0 qs - 1) pd_init)
    as (c' & _ & _ & Hord & _).
  - exact Hfloat.
  - destruct qs as [| q qs]; [exact I|].
    split; [cbn [hd]; lra | exact Hinc].
  - apply ord_inv_init.
  - exact Hord.
Qed.

Lemma peakdect_ordered_witness :
  forallb is_float (map Fin [0; 3; 1; 4; 0]) = true /\
  default_x (Some (map Fin [10; 11; 12; 13; 14])) (map Fin [0; 3; 1; 4; 0]) =
    map Fin [10; 11; 12; 13; 14] /\
  strictly_increasing [10; 11; 12; 13; 14] /\
  peakdect (map Fin [0; 3; 1; 4; 0]) (PyScalar 1)
           (Some (map Fin [10; 11; 12; 13; 14])) =
    Ok ([(Fin 11, Fin 3); (Fin 13, Fin 4)], [(Fin 12, Fin 1)]) /\
  ordered_by_coordinate [(Fin 11, Fin 3); (Fin 13, Fin 4)] [(Fin 12, Fin 1)].
Proof.
  assert (Hfloat : forallb is_float (map Fin [0; 3; 1; 4; 0]) = true)
    by (vm_compute; reflexivity).
  assert (Hinc : strictly_increasing [10; 11; 12; 13; 14]).
  { cbn. repeat split; reflexivity. }
  assert (Hrun : peakdect (map Fin [0; 3; 1; 4; 0]) (PyScalar 1)
                          (Some (map Fin [10; 11; 12; 13; 14])) =
                 Ok ([(Fin 11, Fin 3); (Fin 13, Fin 4)], [(Fin 12, Fin 1)]))
    by (vm_compute; reflexivity).
  split; [exact Hfloat|].
  split; [reflexivity|]. split; [exact Hinc|]. split; [exact Hrun|].
  exact (peakdect_ordered (map Fin [0; 3; 1; 4; 0]) 1
           (Some (map Fin [10; 11; 12; 13; 14])) [10; 11; 12; 13; 14] _ _
           Hfloat eq_refl Hinc Hrun).
Defined.

(** ** [find_peaks]: the indices it returns *)

(** What a successful run of [peakdect] went through. *)
Lemma peakdect_inv (v : list fl) (delta : pyarg) (x : option (list fl))
      (maxt mint : list (fl * fl)) :
  peakdect v delta x = Ok (maxt, mint) ->
  exists d, delta = PyScalar d /\ 0 < d /\
            length (default_x x v) = length v /\
            maxt = maxtab (pd_loop d pd_init (combine (default_x x v) v)) /\
            mint = mintab (pd_loop d pd_init (combine (default_x x v) v)).
Proof.
  unfold peakdect. intro Hrun.
  destruct (Nat.eqb_spec (length v) (length (default_x x v))) as [Hlen | Hlen];
    cbn [negb] in Hrun; [| discriminate].
  destruct delta as [d | a]; cbn [isscalar negb] in Hrun; [| discriminate].
  destruct (Qle_bool d 0) eqn:Hd; [discriminate|].
  injection Hrun as <- <-.
  exists d. repeat split; [| congruence].
  apply Qnot_le_lt. intro H. apply Qle_bool_iff in H. congruence.
Qed.

Lemma uint32_in_band (q : Q) :
  0 <= q -> q <= 30 -> (0 <= uint32 (Fin q) <= 30)%Z.
Proof.
  destruct q as [n dn]. unfold Qle, uint32. cbn [Qnum Qden].
  intros H0 H30.
  assert (Hn : (0 <= n)%Z) by lia.
  rewrite Z.quot_div_nonneg by lia.
  assert (Hlo : (0 <= n / Z.pos dn)%Z) by (apply Z.div_pos; lia).
  assert (Hhi : (n / Z.pos dn <= 30)%Z)
    by (apply Z.div_le_upper_bound; lia).
  rewrite Z.mod_small by lia. lia.
Qed.

Lemma within_band_indices (qs : list Q) (vals : list fl) (tab : list (fl * fl))
      (ind : list Z) :
  Forall (fun q => 0 <= q) qs ->
  Forall (fun e => In e (combine (map Fin qs) vals)) tab ->
  try_except (within_band tab) [(-1)%Z] = Ok ind ->
  ind = [(-1)%Z] \/ Forall (fun z => 0 <= z <= 30)%Z ind.
Proof.
  intros Hpos Htab Hind.
  destruct tab as [| e tab]; [left; now injection Hind|].
  right. rewrite within_band_cons in Hind.
  assert (E : ind = map uint32 (filter (fun i => fle i (Fin 30))
                                       (map fst (e :: tab))))
    by congruence.
  rewrite E. clear E Hind.
  apply Forall_forall. intros z Hz.
  apply in_map_iff in Hz as (c & <- & Hc).
  apply filter_In in Hc as [Hc Hle].
  apply in_map_iff in Hc as (p & <- & Hp).
  rewrite Forall_forall in Htab. apply Htab in Hp.
  destruct p as [c v']. apply in_combine_l in Hp.
  apply in_map_iff in Hp as (q & <- & Hq). cbn [fst] in *.
  rewrite Forall_forall in Hpos.
  apply uint32_in_band; [now apply Hpos | now apply Qle_bool_iff].
Qed.

(** X6. On a well-formed input whose coordinates are non-negative, the
    restriction layer returns two index lists, and each is either the
    one-element marker list or holds only indices between 0 and 30. *)
Theorem find_peaks_indices_in_band :
  forall (flatspec : list fl) (d : Q) (qs : list Q),
    0 < d -> length qs = length flatspec ->
    Forall (fun q => 0 <= q) qs ->
    exists peakind valleyind,
      find_peaks flatspec (PyScalar d) (map Fin qs) = Ok (peakind, valleyind) /\
      (peakind = [(-1)%Z] \/ Forall (fun z => 0 <= z <= 30)%Z peakind) /\
      (valleyind = [(-1)%Z] \/ Forall (fun z => 0 <= z <= 30)%Z valleyind).
Proof.
  intros flatspec d qs Hd Hlen Hpos.
  assert (Hlen' : length (default_x (Some (map Fin qs)) flatspec) =
                  length flatspec) by (cbn; now rewrite length_map).
  pose proof (peakdect_ok flatspec (Some (map Fin qs)) d Hd Hlen') as Hrun.
  destruct (find_peaks_tables flatspec (map Fin qs) (PyScalar d) _ _ Hrun)
    as (peakind & valleyind & Hfp & Hpk & Hvl).
  destruct (pd_loop_from_input d (combine (map Fin qs) flatspec) _
              (incl_refl _) pd_init) as (_ & _ & Hmax & Hmin).
  { repeat split; auto. }
  exists peakind, valleyind. split; [exact Hfp|]. split.
  - exact (within_band_indices qs flatspec _ _ Hpos Hmax Hpk).
  - exact (within_band_indices qs flatspec _ _ Hpos Hmin Hvl).
Qed.

Lemma find_peaks_indices_in_band_witness :
  0 < 1 # 2 /\ length [29; 30; 31; 32; 33] = length (map Fin [0; 1; 0; 1; 0]) /\
  Forall (fun q => 0 <= q) [29; 30; 31; 32; 33] /\
  exists peakind valleyind,
    find_peaks (map Fin [0; 1; 0; 1; 0]) (PyScalar (1 # 2))
               (map Fin [29; 30; 31; 32; 33]) = Ok (peakind, valleyind) /\
    (peakind = [(-1)%Z] \/ Forall (fun z => 0 <= z <= 30)%Z peakind) /\
    (valleyind = [(-1)%Z] \/ Forall (fun z => 0 <= z <= 30)%Z valleyind).
Proof.
  assert (Hpos : Forall (fun q => 0 <= q) [29; 30; 31; 32; 33]).
  { repeat constructor; discriminate. }
  split; [reflexivity|]. split; [reflexivity|]. split; [exact Hpos|].
  exact (find_peaks_indices_in_band (map Fin [0; 1; 0; 1; 0]) (1 # 2)
           [29; 30; 31; 32; 33] eq_refl eq_refl Hpos).
Defined.

(** ** The pool built by [transform_data] *)

Lemma bind_Ok {A B : Type} (r : result A) (k : A -> result B) (b : B) :
  bind r k = Ok b -> exists a, r = Ok a /\ k a = Ok b.
Proof. destruct r as [a | e]; [now exists a | discriminate]. Qed.

Lemma pool_filter_in_band (l : list fl) :
  Forall (fun e => exists q, e = Fin q /\ 0 <= q /\ q < 30)
         (filter (fun elem => flt elem (Fin 30) && fge elem (Fin 0)) l).
Proof.
  apply Forall_forall. intros e He.
  apply filter_In in He as [_ He]. apply andb_true_iff in He as [Hlt Hge].
  destruct e as [| | q |]; try discriminate.
  exists q. split; [reflexivity|]. split.
  - now apply Qle_bool_iff.
  - now apply flt_Fin.
Qed.

Lemma transform_data_pool (params : list (list (list fl)))
      (X peaks1 peaks2 peaks3 : list fl) :
  transform_data params = Ok (X, peaks1, peaks2, peaks3) ->
  X = filter (fun elem => flt elem (Fin 30) && fge elem (Fin 0))
             (peaks1 ++ peaks2 ++ peaks3) /\
  transform_row params 0 = Ok peaks1 /\
  transform_row params 1 = Ok peaks2 /\
  transform_row params 2 = Ok peaks3.
Proof.
  unfold transform_data. destruct params as [| fold params]; [discriminate|].
  intro H.
  apply bind_Ok in H as (p1 & H1 & H).
  apply bind_Ok in H as (p2 & H2 & H).
  apply bind_Ok in H as (p3 & H3 & H).
  injection H as <- <- <- <-. repeat split; assumption.
Qed.

(** X7. Every observation of the pool is a finite value in the half-open
    band from 0 to 30: the marker -1 that stands for "no peak" never enters
    the pool, and neither does a detection at exactly 30. *)
Theorem transform_data_pool_in_band :
  forall (params : list (list (list fl))) (X peaks1 peaks2 peaks3 : list fl),
    transform_data params = Ok (X, peaks1, peaks2, peaks3) ->
    Forall (fun e => exists q, e = Fin q /\ 0 <= q /\ q < 30) X /\
    ~ In (Fin (-1)) X /\ ~ In (Fin 30) X.
Proof.
  intros params X p1 p2 p3 H.
  apply transform_data_pool in H as (-> & _).
  pose proof (pool_filter_in_band (p1 ++ p2 ++ p3)) as Hband.
  split; [exact Hband|].
  rewrite Forall_forall in Hband.
  split; intro Hin; apply Hband in Hin as (q & [= <-] & H0 & H30).
  - lra.
  - lra.
Qed.

Lemma transform_data_pool_in_band_witness :
  transform_data [[[Fin 7; Fin (-1)]; [Fin 30; Fin 0]; [Fin 22; Fin 31]]] =
    Ok ([Fin 7; Fin 0; Fin 22], [Fin 7], [Fin 30; Fin 0], [Fin 22; Fin 31]) /\
  Forall (fun e => exists q, e = Fin q /\ 0 <= q /\ q < 30)
         [Fin 7; Fin 0; Fin 22] /\
  ~ In (Fin (-1)) [Fin 7; Fin 0; Fin 22] /\ ~ In (Fin 30) [Fin 7; Fin 0; Fin 22].
Proof.
  split; [reflexivity|].
  exact (transform_data_pool_in_band
           [[[Fin 7; Fin (-1)]; [Fin 30; Fin 0]; [Fin 22; Fin 31]]]
           _ _ _ _ eq_refl).
Defined.

(** ** From the detections of a fold to the pool *)

Lemma Ok_inj {A : Type} (a b : A) : Ok a = Ok b -> a = b.
Proof. congruence. Qed.

Lemma fill_slots_length (found : list Z) (row : list fl) :
  fill_slots found = Ok row -> length row = 12%nat.
Proof.
  unfold fill_slots. destruct (Nat.leb_spec (length found) 12); [| discriminate].
  intros E%Ok_inj. subst row.
  rewrite length_app, length_map, repeat_length. lia.
Qed.

Lemma fill_slots_padding (found : list Z) (row : list fl) :
  fill_slots found = Ok row -> (length found < 12)%nat -> In (Fin 0) row.
Proof.
  unfold fill_slots. destruct (Nat.leb_spec (length found) 12); [| discriminate].
  intros E%Ok_inj Hlt. subst row. apply in_or_app. right.
  destruct (12 - length found)%nat eqn:E; [lia | now left].
Qed.

(** The three thresholds of a fold, one after the other. *)
Lemma detect_fold_rows (flatspec_train freq_vector : list fl)
      (P V : list (list fl)) :
  detect_fold flatspec_train freq_vector = Ok (P, V) ->
  exists pk1 vl1 pk2 vl2 pk3 vl3 r1 r2 r3 w1 w2 w3,
    find_peaks flatspec_train (PyScalar (double (3 # 100))) freq_vector =
      Ok (pk1, vl1) /\
    find_peaks flatspec_train (PyScalar (double (5 # 100))) freq_vector =
      Ok (pk2, vl2) /\
    find_peaks flatspec_train (PyScalar (double (7 # 100))) freq_vector =
      Ok (pk3, vl3) /\
    fill_slots pk1 = Ok r1 /\ fill_slots pk2 = Ok r2 /\ fill_slots pk3 = Ok r3 /\
    fill_slots vl1 = Ok w1 /\ fill_slots vl2 = Ok w2 /\ fill_slots vl3 = Ok w3 /\
    P = [r1; r2; r3] /\ V = [w1; w2; w3].
Proof.
  unfold detect_fold, deltas. cbn [detect_rows]. intro H.
  apply bind_Ok in H as ([pk1 vl1] & F1 & H).
  apply bind_Ok in H as (r1 & R1 & H).
  apply bind_Ok in H as (w1 & W1 & H).
  apply bind_Ok in H as ([P' V'] & H' & H).
  injection H as <- <-.
  apply bind_Ok in H' as ([pk2 vl2] & F2 & H).
  apply bind_Ok in H as (r2 & R2 & H).
  apply bind_Ok in H as (w2 & W2 & H).
  apply bind_Ok in H as ([P'' V''] & H' & H).
  injection H as <- <-.
  apply bind_Ok in H' as ([pk3 vl3] & F3 & H).
  apply bind_Ok in H as (r3 & R3 & H).
  apply bind_Ok in H as (w3 & W3 & H).
  injection H as <- <-.
  exists pk1, vl1, pk2, vl2, pk3, vl3, r1, r2, r3, w1, w2, w3.
  cbn [fst snd] in *. repeat split; assumption.
Qed.

(** Folds of one shape, with at least one row, make a three-dimensional
    array. *)
Lemma is_3d_shape (r c : nat) (folds : list (list (list fl))) :
  folds <> [] -> (1 <= r)%nat ->
  Forall (fun P => length P = r /\ Forall (fun row => length row = c) P) folds ->
  is_3d folds = true.
Proof.
  intros Hne Hr Hshape.
  destruct folds as [| fold folds]; [congruence|].
  pose proof (Forall_inv Hshape) as [Hfold Hrows].
  destruct fold as [| row fold]; [cbn in Hfold; lia|].
  pose proof (Forall_inv Hrows) as Hrow.
  unfold is_3d. apply forallb_forall. intros P HP.
  rewrite Forall_forall in Hshape. destruct (Hshape P HP) as [HPr HPc].
  apply andb_true_iff. split.
  - apply Nat.eqb_eq. congruence.
  - apply forallb_forall. intros rw Hrw. apply Nat.eqb_eq.
    rewrite Forall_forall in HPc. rewrite (HPc rw Hrw). congruence.
Qed.

Lemma map_result_getitem (k : nat) (params : list (list (list fl))) :
  Forall (fun fold => (k < length fold)%nat) params ->
  map_result (fun fold => getitem fold k) params =
    Ok (map (fun fold => nth k fold []) params).
Proof.
  induction 1 as [| fold params Hk _ IH]; [reflexivity|].
  cbn [map_result map]. unfold getitem at 1.
  rewrite (nth_error_nth' fold [] Hk). cbn [bind]. now rewrite IH.
Qed.

(** X8. The folds that the detection produces are valid input for the
    pooling: each has three rows of twelve slots, so on any non-empty list
    of such folds [transform_data] returns a pool and raises nothing. *)
Theorem transform_data_accepts_folds :
  forall (folds : list (list (list fl))),
    folds <> [] ->
    Forall (fun P => exists flatspec_train freq_vector V,
                detect_fold flatspec_train freq_vector = Ok (P, V)) folds ->
    Forall (fun P => length P = 3%nat /\ Forall (fun row => length row = 12%nat) P)
           folds /\
    exists X peaks1 peaks2 peaks3,
      transform_data folds = Ok (X, peaks1, peaks2, peaks3).
Proof.
  intros folds Hne Hfolds.
  assert (Hshape : Forall (fun P => length P = 3%nat /\
                                    Forall (fun row => length row = 12%nat) P)
                          folds).
  { apply Forall_forall. intros P HP.
    rewrite Forall_forall in Hfolds.
    destruct (Hfolds P HP) as (fs & f & V & Hd).
    apply detect_fold_rows in Hd
      as (pk1 & vl1 & pk2 & vl2 & pk3 & vl3 & r1 & r2 & r3 & w1 & w2 & w3 &
          _ & _ & _ & R1 & R2 & R3 & _ & _ & _ & -> & _).
    split; [reflexivity|].
    repeat constructor; eapply fill_slots_length; eassumption. }
  split; [exact Hshape|].
  assert (Hrow : forall k, (k < 3)%nat ->
            Forall (fun fold : list (list fl) => (k < length fold)%nat) folds).
  { intros k Hk. eapply Forall_impl; [| exact Hshape].
    intros P [HP _]. cbn beta. lia. }
  unfold transform_data, transform_row.
  rewrite (is_3d_shape 3 12 folds Hne ltac:(lia) Hshape).
  destruct folds as [| P folds]; [congruence|].
  rewrite !map_result_getitem by (apply Hrow; lia).
  cbn [bind]. eexists _, _, _, _. reflexivity.
Qed.

Lemma transform_data_accepts_folds_witness :
  detect_fold (map Fin [0; 1; 0; 1; 0]) (map Fin [3; 4; 5; 6; 7]) =
    Ok (repeat (Fin 4 :: Fin 6 :: repeat (Fin 0) 10) 3,
        repeat (Fin 5 :: repeat (Fin 0) 11) 3) /\
  [repeat (Fin 4 :: Fin 6 :: repeat (Fin 0) 10) 3] <> [] /\
  exists X peaks1 peaks2 peaks3,
    transform_data [repeat (Fin 4 :: Fin 6 :: repeat (Fin 0) 10) 3] =
      Ok (X, peaks1, peaks2, peaks3).
Proof.
  assert (Hfold : detect_fold (map Fin [0; 1; 0; 1; 0])
                              (map Fin [3; 4; 5; 6; 7]) =
                  Ok (repeat (Fin 4 :: Fin 6 :: repeat (Fin 0) 10) 3,
                      repeat (Fin 5 :: repeat (Fin 0) 11) 3))
    by (vm_compute; reflexivity).
  split; [exact Hfold|]. split; [discriminate|].
  refine (proj2 (transform_data_accepts_folds [_] _ _)); [discriminate|].
  constructor; [| constructor].
  exists (map Fin [0; 1; 0; 1; 0]), (map Fin [3; 4; 5; 6; 7]).
  eexists. exact Hfold.
Defined.

Lemma transform_row_head (P : list (list fl)) (rest : list (list (list fl)))
      (k : nat) (row peaks : list fl) (e : fl) :
  nth_error P k = Some row -> In e row -> fge e (Fin 0) = true ->
  transform_row (P :: rest) k = Ok peaks -> In e peaks.
Proof.
  intros Hrow He Hpos. unfold transform_row.
  destruct (is_3d (P :: rest)); [| discriminate].
  cbn [map_result].
  unfold getitem at 1. rewrite Hrow. cbn [bind]. intro H.
  apply bind_Ok in H as (rows & Hrows & H).
  apply bind_Ok in Hrows as (bs & _ & Hrows).
  apply Ok_inj in Hrows, H. subst rows peaks.
  cbn [concat]. apply filter_In. split; [| exact Hpos].
  apply in_or_app. now left.
Qed.

(** X9. The unused slots of a fold are pooled as observations at 0: if a
    threshold finds fewer than twelve peaks in a fold, the zeros that pad
    its row pass both filters of [transform_data], and the pool built from
    any list of folds that starts with this fold contains 0. *)
Theorem padding_enters_pool :
  forall (flatspec_train freq_vector : list fl) (P V : list (list fl))
         (delta : Q) (pk vl : list Z)
         (rest : list (list (list fl))) (X peaks1 peaks2 peaks3 : list fl),
    detect_fold flatspec_train freq_vector = Ok (P, V) ->
    In delta deltas ->
    find_peaks flatspec_train (PyScalar delta) freq_vector = Ok (pk, vl) ->
    (length pk < 12)%nat ->
    transform_data (P :: rest) = Ok (X, peaks1, peaks2, peaks3) ->
    In (Fin 0) X.
Proof.
  intros fs f P V delta pk vl rest X p1 p2 p3 Hfold Hdelta Hfound Hfew Hpool.
  apply detect_fold_rows in Hfold
    as (pk1 & vl1 & pk2 & vl2 & pk3 & vl3 & r1 & r2 & r3 & w1 & w2 & w3 &
        F1 & F2 & F3 & R1 & R2 & R3 & _ & _ & _ & -> & _).
  apply transform_data_pool in Hpool as (-> & T1 & T2 & T3).
  apply filter_In. split; [| reflexivity].
  destruct Hdelta as [<- | [<- | [<- | []]]].
  - rewrite F1 in Hfound. injection Hfound as <- <-.
    apply in_or_app. left.
    apply (transform_row_head [r1; r2; r3] rest 0 r1 p1); try reflexivity;
      [| exact T1].
    now apply (fill_slots_padding pk1).
  - rewrite F2 in Hfound. injection Hfound as <- <-.
    apply in_or_app. right. apply in_or_app. left.
    apply (transform_row_head [r1; r2; r3] rest 1 r2 p2); try reflexivity;
      [| exact T2].
    now apply (fill_slots_padding pk2).
  - rewrite F3 in Hfound. injection Hfound as <- <-.
    apply in_or_app. right. apply in_or_app. right.
    apply (transform_row_head [r1; r2; r3] rest 2 r3 p3); try reflexivity;
      [| exact T3].
    now apply (fill_slots_padding pk3).
Qed.

Lemma padding_enters_pool_witness :
  detect_fold (map Fin [0; 1; 0; 1; 0]) (map Fin [3; 4; 5; 6; 7]) =
    Ok (repeat (Fin 4 :: Fin 6 :: repeat (Fin 0) 10) 3,
        repeat (Fin 5 :: repeat (Fin 0) 11) 3) /\
  In (double (5 # 100)) deltas /\
  find_peaks (map Fin [0; 1; 0; 1; 0]) (PyScalar (double (5 # 100)))
             (map Fin [3; 4; 5; 6; 7]) = Ok ([4; 6]%Z, [5%Z]) /\
  (length [4; 6]%Z < 12)%nat /\
  transform_data [repeat (Fin 4 :: Fin 6 :: repeat (Fin 0) 10) 3] =
    Ok (concat (repeat (Fin 4 :: Fin 6 :: repeat (Fin 0) 10) 3),
        Fin 4 :: Fin 6 :: repeat (Fin 0) 10,
        Fin 4 :: Fin 6 :: repeat (Fin 0) 10,
        Fin 4 :: Fin 6 :: repeat (Fin 0) 10) /\
  In (Fin 0) (concat (repeat (Fin 4 :: Fin 6 :: repeat (Fin 0) 10) 3)).
Proof.
  assert (Hfold : detect_fold (map Fin [0; 1; 0; 1; 0])
                              (map Fin [3; 4; 5; 6; 7]) =
                  Ok (repeat (Fin 4 :: Fin 6 :: repeat (Fin 0) 10) 3,
                      repeat (Fin 5 :: repeat (Fin 0) 11) 3))
    by (vm_compute; reflexivity).
  assert (Hdelta : In (double (5 # 100)) deltas) by (right; left; reflexivity).
  assert (Hfound : find_peaks (map Fin [0; 1; 0; 1; 0])
                              (PyScalar (double (5 # 100)))
                              (map Fin [3; 4; 5; 6; 7]) =
                   Ok ([4; 6]%Z, [5%Z])) by (vm_compute; reflexivity).
  assert (Hfew : (length [4; 6]%Z < 12)%nat) by (cbn; lia).
  assert (Hpool : transform_data
                    [repeat (Fin 4 :: Fin 6 :: repeat (Fin 0) 10) 3] =
                  Ok (concat (repeat (Fin 4 :: Fin 6 :: repeat (Fin 0) 10) 3),
                      Fin 4 :: Fin 6 :: repeat (Fin 0) 10,
                      Fin 4 :: Fin 6 :: repeat (Fin 0) 10,
                      Fin 4 :: Fin 6 :: repeat (Fin 0) 10)).
  { vm_compute. reflexivity. }
  split; [exact Hfold|]. split; [exact Hdelta|]. split; [exact Hfound|].
  split; [exact Hfew|]. split; [exact Hpool|].
  exact (padding_enters_pool (map Fin [0; 1; 0; 1; 0]) (map Fin [3; 4; 5; 6; 7])
           _ _ (double (5 # 100)) [4; 6]%Z [5%Z] [] _ _ _ _
           Hfold Hdelta Hfound Hfew Hpool).
Defined.

(** ** [find_cluster]: the range of the count, and failures *)

Section ClusterCountMore.

Variable G : Type.
Variable KMeans_fit : list Q -> nat -> SE G (list Q * Q).

Lemma SoS_loop_length (X : list Q) (sizes : list nat) :
  forall (acc l : list fl) (g g' : G),
    SoS_loop G KMeans_fit X sizes acc g = (Ok l, g') ->
    length l = (length acc + length sizes)%nat.
Proof.
  induction sizes as [| k sizes IH]; intros acc l g g' H.
  - injection H as <- _. cbn. lia.
  - cbn [SoS_loop] in H. unfold bindS at 1 in H.
    destruct (kmeans G KMeans_fit X k g) as [[r | e] g1]; [| discriminate].
    apply IH in H. rewrite length_app in H. cbn [length] in *. lia.
Qed.

Lemma SoS_loop_raises (X : list Q) (sizes : list nat) :
  forall (acc : list fl) (g g2 : G) (e : exn),
    SoS_loop G KMeans_fit X sizes acc g = (Raise e, g2) <->
    exists pre k post g1,
      sizes = pre ++ k :: post /\
      all_fit G KMeans_fit X pre g = Some g1 /\
      kmeans G KMeans_fit X k g1 = (Raise e, g2).
Proof.
  induction sizes as [| k sizes IH]; intros acc g g2 e.
  - split; [discriminate|].
    intros (pre & k & post & g1 & H & _). destruct pre; discriminate.
  - cbn [SoS_loop]. unfold bindS at 1.
    destruct (kmeans G KMeans_fit X k g) as [[r | e'] g1] eqn:Hk.
    + rewrite IH. split.
      * intros (pre & k' & post & g1' & -> & Hfit & Hraise).
        exists (k :: pre), k', post, g1'. cbn [app all_fit]. rewrite Hk.
        repeat split; assumption.
      * intros (pre & k' & post & g1' & Hsplit & Hfit & Hraise).
        destruct pre as [| k0 pre]; cbn [app all_fit] in *.
        -- injection Hsplit as <- <-. injection Hfit as <-. congruence.
        -- injection Hsplit as <- ->. rewrite Hk in Hfit.
           exists pre, k', post, g1'. repeat split; assumption.
    + split.
      * intros [= <- <-]. exists [], k, sizes, g. repeat split. exact Hk.
      * intros (pre & k' & post & g1' & Hsplit & Hfit & Hraise).
        destruct pre as [| k0 pre]; cbn [app all_fit] in *.
        -- injection Hsplit as <- <-. injection Hfit as <-. congruence.
        -- injection Hsplit as <- ->. rewrite Hk in Hfit. discriminate.
Qed.

Lemma argmax_from_lt (t : list fl) :
  forall (i : nat) (b : fl) (bi : nat),
    (bi < i)%nat -> (argmax_from t i b bi < i + length t)%nat.
Proof.
  induction t as [| a t IH]; intros i b bi Hbi; cbn [argmax_from length].
  - lia.
  - destruct (is_nan b); [lia|].
    destruct (negb (fle a b)).
    + specialize (IH (S i) a i). lia.
    + specialize (IH (S i) b bi). lia.
Qed.

Lemma argmax_lt (l : list fl) (j : nat) :
  argmax l = Ok j -> (j < length l)%nat.
Proof.
  destruct l as [| a t]; [discriminate|].
  intros E%Ok_inj. subst j. cbn [length].
  pose proof (argmax_from_lt t 1 a 0). lia.
Qed.

Lemma diff_consecutive_six (a b c d e f : fl) :
  diff_consecutive [a; b; c; d; e; f] =
    [fsub a b; fsub b c; fsub c d; fsub d e; fsub e f].
Proof. reflexivity. Qed.

(** Once the five clusterings have returned, the selector returns. *)
Lemma find_cluster_after_loop (X : list Q) (g g' : G) (l : list fl) :
  SoS_loop G KMeans_fit X (seq 1 5) [zeroSoS X (median (map Fin X))] g =
    (Ok l, g') ->
  exists knee,
    find_cluster G KMeans_fit X g = (Ok ((knee + 2)%nat, l), g') /\
    (knee < 5)%nat /\ length l = 6%nat.
Proof.
  intro Hloop. pose proof (SoS_loop_length _ _ _ _ _ _ Hloop) as Hlen.
  cbn [length seq] in Hlen.
  destruct l as [| a [| b [| c [| d [| e [| f [| ? ?]]]]]]]; try discriminate.
  unfold find_cluster, bindS. rewrite Hloop, diff_consecutive_six.
  destruct (argmax [fsub a b; fsub b c; fsub c d; fsub d e; fsub e f])
    as [knee | err] eqn:Hk; [| discriminate].
  exists knee. split; [reflexivity|]. split; [| reflexivity].
  apply argmax_lt in Hk. exact Hk.
Qed.

(** X10. Whatever the clustering routine returns, a count returned by the
    selector lies between 2 and 6, and the history beside it always has six
    entries.  The selector never answers 0 or 1. *)
Theorem find_cluster_count_range :
  forall (X : list Q) (g g' : G) (count : nat) (history : list fl),
    find_cluster G KMeans_fit X g = (Ok (count, history), g') ->
    (2 <= count <= 6)%nat /\ length history = 6%nat.
Proof.
  intros X g g' count history H.
  destruct (SoS_loop G KMeans_fit X (seq 1 5)
              [zeroSoS X (median (map Fin X))] g) as [[l | e] g1] eqn:Hloop.
  - destruct (find_cluster_after_loop X g g1 l Hloop) as (knee & Hrun & Hk & Hl).
    rewrite Hrun in H. injection H as <- <- _. split; [lia | exact Hl].
  - unfold find_cluster, bindS in H. rewrite Hloop in H. discriminate.
Qed.

(** X11. The selector fails exactly when one of the five clusterings fails:
    it raises [e] and leaves the generator in state [g2] if and only if the
    clusterings with the smaller sizes returned and the next one raised [e]
    in [g2].  The later sizes are then not tried. *)
Theorem find_cluster_raises_iff :
  forall (X : list Q) (g g2 : G) (e : exn),
    find_cluster G KMeans_fit X g = (Raise e, g2) <->
    exists pre k post g1,
      seq 1 5 = pre ++ k :: post /\
      all_fit G KMeans_fit X pre g = Some g1 /\
      kmeans G KMeans_fit X k g1 = (Raise e, g2).
Proof.
  intros X g g2 e.
  rewrite <- (SoS_loop_raises X (seq 1 5) [zeroSoS X (median (map Fin X))]).
  destruct (SoS_loop G KMeans_fit X (seq 1 5)
              [zeroSoS X (median (map Fin X))] g) as [[l | e'] g1] eqn:Hloop.
  - destruct (find_cluster_after_loop X g g1 l Hloop) as (knee & Hrun & _).
    rewrite Hrun. split; intros [=].
  - unfold find_cluster, bindS. rewrite Hloop.
    split; intros [= <- <-]; reflexivity.
Qed.

End ClusterCountMore.

Lemma sum_sq_dev_repeat (c m : Q) (n : nat) :
  m == c -> sum_sq_dev (repeat c n) m == 0.
Proof.
  intro E. induction n as [| n IH]; cbn [repeat sum_sq_dev]; [reflexivity|].
  rewrite IH, E. ring.
Qed.

Lemma first_max_flat (d : list Q) (j : nat) :
  Forall (fun q => q == 0) d -> first_max d j -> j = 0%nat.
Proof.
  intros Hflat (Hj & _ & Hfirst).
  destruct j as [| j]; [reflexivity|]. exfalso.
  specialize (Hfirst 0%nat ltac:(lia)).
  rewrite Forall_forall in Hflat.
  assert (H0 : nth 0 d 0 == 0) by (apply Hflat, nth_In; lia).
  assert (Hj' : nth (S j) d 0 == 0) by (apply Hflat, nth_In; lia).
  lra.
Qed.

(** X12. For a pool of identical observations whose clusterings all report
    zero inertia, the baseline is zero as well, every difference is zero,
    and the selector returns 2: on a pool without any structure it still
    asks for two clusters. *)
Theorem find_cluster_degenerate :
  forall (G : Type) (KMeans_fit : list Q -> nat -> SE G (list Q * Q))
         (c : Q) (n : nat) (g0 g1 g2 g3 g4 g5 : G)
         (c1 c2 c3 c4 c5 : list Q) (i1 i2 i3 i4 i5 : Q),
    (1 <= n)%nat ->
    kmeans G KMeans_fit (repeat c n) 1 g0 = (Ok (c1, i1), g1) ->
    kmeans G KMeans_fit (repeat c n) 2 g1 = (Ok (c2, i2), g2) ->
    kmeans G KMeans_fit (repeat c n) 3 g2 = (Ok (c3, i3), g3) ->
    kmeans G KMeans_fit (repeat c n) 4 g3 = (Ok (c4, i4), g4) ->
    kmeans G KMeans_fit (repeat c n) 5 g4 = (Ok (c5, i5), g5) ->
    i1 == 0 -> i2 == 0 -> i3 == 0 -> i4 == 0 -> i5 == 0 ->
    exists baseline,
      find_cluster G KMeans_fit (repeat c n) g0 =
        (Ok (2%nat, map Fin [baseline; i1; i2; i3; i4; i5]), g5) /\
      baseline == 0.
Proof.
  intros G KMeans_fit c n g0 g1 g2 g3 g4 g5 c1 c2 c3 c4 c5 i1 i2 i3 i4 i5
         Hn H1 H2 H3 H4 H5 E1 E2 E3 E4 E5.
  destruct (median_repeat c n Hn) as (m & Hm & Em).
  destruct (zeroSoS_Fin (repeat c n) m) as (b & Hb & Eb).
  rewrite (sum_sq_dev_repeat c m n Em) in Eb.
  destruct (argmax_first_max [b - i1; i1 - i2; i2 - i3; i3 - i4; i4 - i5])
    as (knee & Hknee & Hfirst); [discriminate|].
  assert (Hzero : knee = 0%nat).
  {    apply (first_max_flat [b - i1; i1 - i2; i2 - i3; i3 - i4; i4 - i5]);
      [| exact Hfirst].
    repeat constructor; lra. }
  subst knee. exists b. split; [| exact Eb].
  unfold find_cluster. unfold bindS at 1.
  rewrite map_repeat, Hm.
  change (seq 1 5) with [1; 2; 3; 4; 5]%nat.
  rewrite (SoS_loop_step G KMeans_fit _ 1 _ _ g0 g1 c1 i1 H1).
  rewrite (SoS_loop_step G KMeans_fit _ 2 _ _ g1 g2 c2 i2 H2).
  rewrite (SoS_loop_step G KMeans_fit _ 3 _ _ g2 g3 c3 i3 H3).
  rewrite (SoS_loop_step G KMeans_fit _ 4 _ _ g3 g4 c4 i4 H4).
  rewrite (SoS_loop_step G KMeans_fit _ 5 _ _ g4 g5 c5 i5 H5).
  cbn [SoS_loop retS app]. rewrite Hb.
  change (diff_consecutive [Fin b; Fin i1; Fin i2; Fin i3; Fin i4; Fin i5])
    with (map Fin [b - i1; i1 - i2; i2 - i3; i3 - i4; i4 - i5]).
  rewrite Hknee. reflexivity.
Qed.

Lemma find_cluster_count_range_witness :
  find_cluster unit toy_KMeans [1; 2; 4; 7; 11; 16] tt =
    (Ok (2%nat, [Fin (727040 # 4096); Fin 12; Fin (12 # 4); Fin (12 # 9);
                 Fin (12 # 16); Fin (12 # 25)]), tt) /\
  (2 <= 2 <= 6)%nat /\
  length [Fin (727040 # 4096); Fin 12; Fin (12 # 4); Fin (12 # 9);
          Fin (12 # 16); Fin (12 # 25)] = 6%nat.
Proof.
  assert (H : find_cluster unit toy_KMeans [1; 2; 4; 7; 11; 16] tt =
    (Ok (2%nat, [Fin (727040 # 4096); Fin 12; Fin (12 # 4); Fin (12 # 9);
                 Fin (12 # 16); Fin (12 # 25)]), tt))
    by (vm_compute; reflexivity).
  split; [exact H |].
  exact (find_cluster_count_range unit toy_KMeans [1; 2; 4; 7; 11; 16] tt tt _ _ H).
Defined.

Lemma find_cluster_degenerate_witness :
  exists baseline,
    find_cluster unit flat_KMeans (repeat 5 6) tt =
      (Ok (2%nat, map Fin [baseline; 0; 0; 0; 0; 0]), tt) /\
    baseline == 0.
Proof.
  refine (find_cluster_degenerate unit flat_KMeans 5 6 tt tt tt tt tt tt
            [] [] [] [] [] 0 0 0 0 0 _
            eq_refl eq_refl eq_refl eq_refl eq_refl _ _ _ _ _);
    [lia | reflexivity ..].
Defined.

(** ** The bootstrap: it always returns, and the order of its three values *)

(** Inside the bootstrap the sample size is [int(0.8*len(data))], which is 0
    for an empty array: the draw never fails. *)
Lemma choice_sample (data : list fl) (g : rng) :
  choice data (sample_size (length data)) g =
    (Ok (map (fun j => nth (draws g (cursor g + j) mod length data) data NaN)
             (seq 0 (sample_size (length data)))),
     mk_rng (draws g) (cursor g + sample_size (length data))).
Proof.
  destruct data as [| a data]; [reflexivity|].
  unfold choice. destruct (sample_size (length (a :: data))); reflexivity.
Qed.

Lemma bootstrap_loop_run (data : list fl) :
  forall (k : nat) (acc : list fl) (g : rng),
    exists dist,
      bootstrap_loop data k acc g =
        (Ok dist, mk_rng (draws g) (cursor g + k * sample_size (length data))) /\
      length dist = (length acc + k)%nat.
Proof.
  induction k as [| k IH]; intros acc g.
  - exists acc. cbn [bootstrap_loop Nat.mul]. rewrite !Nat.add_0_r.
    destruct g; split; reflexivity.
  - cbn [bootstrap_loop]. unfold bindS at 1. rewrite choice_sample.
    destruct (IH (acc ++ [median
                   (map (fun j => nth (draws g (cursor g + j)
                                       mod length data) data NaN)
                        (seq 0 (sample_size (length data))))])
                 (mk_rng (draws g)
                         (cursor g + sample_size (length data))))
      as (dist & Hrun & Hlen).
    exists dist. rewrite Hrun. cbn [draws cursor]. split.
    + do 2 f_equal. lia.
    + rewrite Hlen, length_app. cbn [length]. lia.
Qed.

(** Every resample of an empty array is empty, and its median is [NaN]. *)
Lemma bootstrap_loop_empty :
  forall (k : nat) (acc : list fl) (g : rng),
    fst (bootstrap_loop [] k acc g) = Ok (acc ++ repeat NaN k).
Proof.
  induction k as [| k IH]; intros acc g.
  - cbn [bootstrap_loop repeat retS fst]. now rewrite app_nil_r.
  - cbn [bootstrap_loop]. unfold bindS at 1. rewrite choice_sample.
    change (sample_size (length [])) with 0%nat.
    cbn [seq map]. change (median []) with NaN.
    rewrite IH, <- app_assoc. reflexivity.
Qed.

(** X13. The bootstrap never raises.  On every array it returns exactly
    three values and has drawn a thousand samples of [int(0.8*n)] elements
    each; on an empty array the samples are empty, no draw fails, and the
    three values are [NaN]. *)
Theorem bootstrap_always_returns :
  forall (data : list fl) (g : rng),
    (exists med lo hi,
       bootstrap data g =
         (Ok [med; lo; hi],
          mk_rng (draws g) (cursor g + 1000 * sample_size (length data)))) /\
    (data = [] -> fst (bootstrap data g) = Ok [NaN; NaN; NaN]).
Proof.
  intros data g. split.
  - destruct (bootstrap_loop_run data 1000 [] g) as (dist & Hrun & _).
    unfold bootstrap, bindS. rewrite Hrun. eexists _, _, _. reflexivity.
  - intros ->. unfold bootstrap, bindS.
    pose proof (bootstrap_loop_empty 1000 [] g) as Hrun.
    destruct (bootstrap_loop [] 1000 [] g) as [r g'].
    cbn [fst] in Hrun. rewrite Hrun. cbn [app retS fst].
    do 2 f_equal.
Qed.









(** ** [final_check_for_output]: the rasters *)

Lemma for_each_inv {A St : Type} (I : St -> Prop)
      (f : nat -> A -> St -> result St) (l : list A) :
  forall (i0 : nat) (s s' : St),
    (forall j a t t', nth_error l j = Some a -> I t ->
                      f (i0 + j)%nat a t = Ok t' -> I t') ->
    I s -> for_each f l i0 s = Ok s' -> I s'.
Proof.
  induction l as [| a l IH]; intros i0 s s' Hstep Hs Hrun.
  - cbn in Hrun. apply Ok_inj in Hrun. now subst.
  - cbn [for_each] in Hrun. apply bind_Ok in Hrun as (s1 & H1 & Hrun).
    apply (IH (S i0) s1 s'); [| | exact Hrun].
    + intros j b t t' Hb Ht Hf. apply (Hstep (S j) b t t'); [exact Hb | exact Ht|].
      now replace (i0 + S j)%nat with (S i0 + j)%nat by lia.
    + apply (Hstep 0%nat a s s1); [reflexivity | exact Hs|].
      now rewrite Nat.add_0_r.
Qed.

Lemma for_each_total {A St : Type}
      (f : nat -> A -> St -> result St) (l : list A) :
  forall (i0 : nat) (s : St),
    (forall j a t, nth_error l j = Some a ->
                   exists t', f (i0 + j)%nat a t = Ok t') ->
    exists s', for_each f l i0 s = Ok s'.
Proof.
  induction l as [| a l IH]; intros i0 s Hstep.
  - now exists s.
  - cbn [for_each].
    destruct (Hstep 0%nat a s eq_refl) as (s1 & H1).
    rewrite Nat.add_0_r in H1. rewrite H1. cbn [bind].
    apply IH. intros j b t Hb.
    destruct (Hstep (S j) b t Hb) as (t' & Ht').
    exists t'. now replace (S i0 + j)%nat with (i0 + S j)%nat by lia.
Qed.

Lemma getitem_Some {A : Type} (l : list A) (i : nat) (a : A) :
  getitem l i = Ok a <-> nth_error l i = Some a.
Proof.
  unfold getitem. destruct (nth_error l i); split; congruence.
Qed.

Lemma combine_snoc {A B : Type} (l1 : list A) (l2 : list B) (a : A) (b : B) :
  length l1 = length l2 ->
  combine (l1 ++ [a]) (l2 ++ [b]) = combine l1 l2 ++ [(a, b)].
Proof.
  revert l2. induction l1 as [| x l1 IH]; intros [| y l2] H;
    try discriminate; [reflexivity|].
  cbn. f_equal. apply IH. now injection H.
Qed.

(** X15. The two rasters stay paired.  They have the same length, and every
    surviving center comes with the width fitted beside it: it is an integer
    entry at some position of some repetition where the width is the one
    kept, it lies between 0 and 30, and the flattened spectrum is positive
    at the index it gives. *)
Theorem rasters_survivors :
  forall (extcv_pks : list (list pynum)) (extcv_std : list (list fl))
         (flatspec : list fl) (pr : list Q) (sr : list fl),
    rasters extcv_pks extcv_std flatspec = Ok (pr, sr) ->
    length pr = length sr /\
    Forall (fun p =>
              0 <= fst p /\ fst p <= 30 /\
              exists z,
                fst p = inject_Z z /\
                (exists f, nth_error flatspec (Z.to_nat z) = Some f /\
                           fgt f (Fin 0) = true) /\
                exists cv i row srow,
                  nth_error extcv_pks cv = Some row /\
                  nth_error row i = Some (PyInt z) /\
                  nth_error extcv_std cv = Some srow /\
                  nth_error srow i = Some (snd p))
           (combine pr sr).
Proof.
  intros extcv_pks extcv_std flatspec pr sr Hrun.
  pose (keeps := fun p : Q * fl =>
              0 <= fst p /\ fst p <= 30 /\
              exists z,
                fst p = inject_Z z /\
                (exists f, nth_error flatspec (Z.to_nat z) = Some f /\
                           fgt f (Fin 0) = true) /\
                exists cv i row srow,
                  nth_error extcv_pks cv = Some row /\
                  nth_error row i = Some (PyInt z) /\
                  nth_error extcv_std cv = Some srow /\
                  nth_error srow i = Some (snd p)).
  pose (I := fun acc : list Q * list fl =>
               length (fst acc) = length (snd acc) /\
               Forall keeps (combine (fst acc) (snd acc))).
  enough (H : I (pr, sr)) by exact H.
  unfold rasters in Hrun.
  refine (for_each_inv I _ extcv_pks 0%nat ([], []) (pr, sr) _ _ Hrun).
  - intros cv row acc acc' Hrow Hacc Hinner. cbn [Nat.add] in Hinner.
    refine (for_each_inv I _ row 0%nat acc acc' _ Hacc Hinner).
    intros i pk t t' Hpk [Hlen Hall] Hstep. cbn [Nat.add] in Hstep.
    unfold raster_step in Hstep.
    destruct (fle (as_float pk) (Fin 30) && fge (as_float pk) (Fin 0))
      eqn:Hband; [| apply Ok_inj in Hstep; subst t'; now split].
    destruct pk as [z | a]; [| discriminate].
    apply andb_true_iff in Hband as [H30 H0].
    cbn [as_float fle fge] in H30, H0.
    apply Qle_bool_iff in H30, H0.
    apply bind_Ok in Hstep as (f & Hf & Hstep).
    destruct (fgt f (Fin 0)) eqn:Hpos;
      [| apply Ok_inj in Hstep; subst t'; now split].
    apply bind_Ok in Hstep as (srow & Hsrow & Hstep).
    apply bind_Ok in Hstep as (sd & Hsd & Hstep).
    apply Ok_inj in Hstep. subst t'. unfold I. cbn [fst snd].
    apply getitem_Some in Hf, Hsrow, Hsd.
    split; [rewrite !length_app; cbn [length]; lia|].
    rewrite combine_snoc by exact Hlen.
    apply Forall_app. split; [exact Hall|].
    constructor; [| constructor].
    unfold keeps. cbn [fst snd].
    split; [exact H0|]. split; [exact H30|].
    exists z. split; [reflexivity|].
    split; [now exists f|]. now exists cv, i, row, srow.
  - split; [reflexivity | constructor].
Qed.

Lemma rasters_survivors_witness :
  rasters [[PyInt 8; PyInt 40]; [PyInt 21]] [[Fin 1; Fin 2]; [Fin 3]]
          (repeat (Fin 1) 49) = Ok ([8; 21], [Fin 1; Fin 3]) /\
  length [8; 21] = length [Fin 1; Fin 3].
Proof.
  split; [reflexivity|].
  exact (proj1 (rasters_survivors [[PyInt 8; PyInt 40]; [PyInt 21]]
                  [[Fin 1; Fin 2]; [Fin 3]] (repeat (Fin 1) 49)
                  [8; 21] [Fin 1; Fin 3] eq_refl)).
Defined.

Lemma Forall2_nth_l {A B : Type} (R : A -> B -> Prop) (l1 : list A)
      (l2 : list B) (i : nat) (a : A) :
  Forall2 R l1 l2 -> nth_error l1 i = Some a ->
  exists b, nth_error l2 i = Some b /\ R a b.
Proof.
  intro H. revert i. induction H as [| x y l1 l2 Hxy _ IH]; intros [| i] Hi;
    try discriminate.
  - injection Hi as <-. now exists y.
  - now apply IH.
Qed.

Lemma getitem_lt {A : Type} (l : list A) (i : nat) :
  (i < length l)%nat -> exists a, getitem l i = Ok a.
Proof.
  intro Hi. unfold getitem.
  destruct (nth_error l i) eqn:E; [now eexists|].
  apply nth_error_None in E. lia.
Qed.

Lemma forallb_nth_error {A : Type} (f : A -> bool) (l : list A) (i : nat) (a : A) :
  forallb f l = true -> nth_error l i = Some a -> f a = true.
Proof.
  intros Hall Hi. rewrite forallb_forall in Hall.
  apply Hall. eapply nth_error_In. exact Hi.
Qed.

Lemma rasters_total (extcv_pks : list (list pynum)) (extcv_std : list (list fl))
      (flatspec : list fl) :
  (31 <= length flatspec)%nat ->
  Forall2 (fun row srow => (length row <= length srow)%nat) extcv_pks extcv_std ->
  forallb (forallb is_int) extcv_pks = true ->
  exists pr sr, rasters extcv_pks extcv_std flatspec = Ok (pr, sr).
Proof.
  intros Hflat Hshape Hint. unfold rasters.
  destruct (for_each_total
              (fun cv row acc =>
                 for_each (fun i pk acc0 =>
                             raster_step extcv_std flatspec cv i pk acc0)
                          row 0%nat acc)
              extcv_pks 0%nat ([], [])) as ([pr sr] & Hrun).
  - intros cv row acc Hrow. cbn [Nat.add].
    pose proof (forallb_nth_error _ _ _ _ Hint Hrow) as Hrowint.
    apply for_each_total. intros i pk t Hpk. cbn [Nat.add].
    pose proof (forallb_nth_error _ _ _ _ Hrowint Hpk) as Hpkint.
    destruct pk as [z | a]; [| discriminate].
    unfold raster_step. cbn [as_float fle fge].
    destruct (Qle_bool (inject_Z z) 30 && Qle_bool 0 (inject_Z z)) eqn:Hband;
      [| eexists; reflexivity].
    apply andb_true_iff in Hband as [H30 H0].
    apply Qle_bool_iff in H30, H0.
    change 30 with (inject_Z 30) in H30. change 0 with (inject_Z 0) in H0.
    rewrite <- Zle_Qle in H30, H0.
    destruct (getitem_lt flatspec (Z.to_nat z)) as (f & Hf); [lia|].
    rewrite Hf. cbn [bind].
    destruct (fgt f (Fin 0)); [| eexists; reflexivity].
    destruct (Forall2_nth_l _ _ _ _ _ Hshape Hrow) as (srow & Hsrow & Hle).
    apply getitem_Some in Hsrow. rewrite Hsrow. cbn [bind].
    assert (Hi : (i < length row)%nat) by (apply nth_error_Some; congruence).
    destruct (getitem_lt srow i) as (sd & Hsd); [lia|].
    rewrite Hsd. cbn [bind]. eexists; reflexivity.
  - now exists pr, sr.
Qed.

(** ** [final_check_for_output]: when it returns, and what *)

(** X16. With integer centers, a flattened spectrum of at least 31 samples
    and, for every repetition, at least as many widths as centers, the
    aggregator raises nothing: every index it computes is an integer in
    range. *)
Theorem final_check_for_output_total :
  forall (extcv_pks : list (list pynum)) (extcv_std : list (list fl))
         (flatspec : list fl) (g : rng),
    forallb (forallb is_int) extcv_pks = true ->
    (31 <= length flatspec)%nat ->
    Forall2 (fun row srow => (length row <= length srow)%nat)
            extcv_pks extcv_std ->
    exists peaks bws g',
      final_check_for_output extcv_pks extcv_std flatspec g =
        (Ok (peaks, bws), g').
Proof.
  intros extcv_pks extcv_std flatspec g Hint Hflat Hshape.
  destruct (rasters_total extcv_pks extcv_std flatspec Hflat Hshape Hint)
    as (pr & sr & Hr).
  destruct (final_check_for_output_count extcv_pks extcv_std flatspec pr sr g Hr)
    as (peaks & bws & g' & Hrun & _).
  now exists peaks, bws, g'.
Qed.

Lemma final_check_for_output_total_witness :
  forallb (forallb is_int) [[PyInt 8; PyInt 9]] = true /\
  (31 <= length (repeat (Fin 1) 49))%nat /\
  Forall2 (fun (row : list pynum) (srow : list fl) =>
             (length row <= length srow)%nat)
          [[PyInt 8; PyInt 9]] [[Fin 1; Fin 2]] /\
  exists peaks bws g',
    final_check_for_output [[PyInt 8; PyInt 9]] [[Fin 1; Fin 2]]
                           (repeat (Fin 1) 49)
                           (mk_rng (fun i => (7 * i + 3)%nat) 0) =
      (Ok (peaks, bws), g').
Proof.
  assert (Hlen : (31 <= length (repeat (Fin 1) 49))%nat)
    by (rewrite repeat_length; lia).
  assert (Hshape : Forall2 (fun (row : list pynum) (srow : list fl) =>
                              (length row <= length srow)%nat)
                           [[PyInt 8; PyInt 9]] [[Fin 1; Fin 2]]).
  { constructor; [cbn; lia | constructor]. }
  split; [reflexivity|]. split; [exact Hlen|]. split; [exact Hshape|].
  exact (final_check_for_output_total [[PyInt 8; PyInt 9]] [[Fin 1; Fin 2]]
           (repeat (Fin 1) 49) (mk_rng (fun i => (7 * i + 3)%nat) 0)
           eq_refl Hlen Hshape).
Defined.

(** ** [final_check_for_output]: a float center *)

Lemma for_each_raises {A St : Type} (P : exn -> Prop)
      (f : nat -> A -> St -> result St) (l : list A) :
  (forall j a t e, f j a t = Raise e -> P e) ->
  forall (i0 : nat) (s : St) (e : exn),
    for_each f l i0 s = Raise e -> P e.
Proof.
  intro Hf. induction l as [| a l IH]; intros i0 s e Hrun; [discriminate|].
  cbn [for_each] in Hrun.
  destruct (f i0 a s) as [s1 | e1] eqn:H1; cbn [bind] in Hrun.
  - exact (IH (S i0) s1 e Hrun).
  - injection Hrun as <-. exact (Hf i0 a s e1 H1).
Qed.

Lemma for_each_reaches {A St : Type}
      (f : nat -> A -> St -> result St) (l : list A) :
  forall (i0 : nat) (s s' : St) (j : nat) (a : A),
    for_each f l i0 s = Ok s' -> nth_error l j = Some a ->
    exists t t', f (i0 + j)%nat a t = Ok t'.
Proof.
  induction l as [| b l IH]; intros i0 s s' j a Hrun Hj.
  - destruct j; discriminate.
  - cbn [for_each] in Hrun. apply bind_Ok in Hrun as (s1 & H1 & Hrun).
    destruct j as [| j].
    + injection Hj as <-. exists s, s1. now rewrite Nat.add_0_r.
    + destruct (IH (S i0) s1 s' j a Hrun Hj) as (t & t' & Ht).
      exists t, t'. now replace (i0 + S j)%nat with (S i0 + j)%nat by lia.
Qed.

(** Building the rasters fails with [IndexError] only. *)
Lemma rasters_raises (extcv_pks : list (list pynum)) (extcv_std : list (list fl))
      (flatspec : list fl) (e : exn) :
  rasters extcv_pks extcv_std flatspec = Raise e -> e = IndexError.
Proof.
  unfold rasters.
  apply (for_each_raises (fun e => e = IndexError)).
  intros cv row acc e0.
  apply (for_each_raises (fun e => e = IndexError)).
  intros i pk t e1. unfold raster_step, getitem.
  destruct (fle _ _ && fge _ _); [| discriminate].
  destruct pk as [z | a]; [| congruence].
  destruct (nth_error flatspec (Z.to_nat z)) as [f |]; cbn [bind];
    [| congruence].
  destruct (fgt f (Fin 0)); [| discriminate].
  destruct (nth_error extcv_std cv) as [srow |]; cbn [bind]; [| congruence].
  destruct (nth_error srow i); cbn [bind]; [discriminate | congruence].
Qed.

(** X21. A center held as a float cannot index the flattened spectrum: as
    soon as one float center lies between 0 and 30, the aggregator raises
    [IndexError] and returns nothing, whatever the other centers are. *)
Theorem final_check_for_output_float_center :
  forall (extcv_pks : list (list pynum)) (extcv_std : list (list fl))
         (flatspec : list fl) (g : rng)
         (cv i : nat) (row : list pynum) (q : Q),
    nth_error extcv_pks cv = Some row ->
    nth_error row i = Some (PyFloat (Fin q)) ->
    0 <= q -> q <= 30 ->
    final_check_for_output extcv_pks extcv_std flatspec g =
      (Raise IndexError, g).
Proof.
  intros extcv_pks extcv_std flatspec g cv i row q Hrow Hpk H0 H30.
  unfold final_check_for_output.
  destruct (rasters extcv_pks extcv_std flatspec) as [[pr sr] | e] eqn:Hr.
  - exfalso. unfold rasters in Hr.
    destruct (for_each_reaches _ _ _ _ _ _ _ Hr Hrow) as (t & t' & Hinner).
    destruct (for_each_reaches _ _ _ _ _ _ _ Hinner Hpk) as (u & u' & Hstep).
    unfold raster_step in Hstep. cbn [as_float fle fge] in Hstep.
    apply Qle_bool_iff in H0, H30. rewrite H0, H30 in Hstep.
    discriminate Hstep.
  - now rewrite (rasters_raises _ _ _ _ Hr).
Qed.

Lemma final_check_for_output_float_center_witness :
  nth_error [[PyFloat (Fin 8); PyFloat (Fin 9)]] 0 =
    Some [PyFloat (Fin 8); PyFloat (Fin 9)] /\
  nth_error [PyFloat (Fin 8); PyFloat (Fin 9)] 0 = Some (PyFloat (Fin 8)) /\
  0 <= 8 /\ 8 <= 30 /\
  final_check_for_output [[PyFloat (Fin 8); PyFloat (Fin 9)]]
                         [[Fin 1; Fin 2]] (repeat (Fin 1) 49)
                         (mk_rng (fun i => (7 * i + 3)%nat) 0) =
    (Raise IndexError, mk_rng (fun i => (7 * i + 3)%nat) 0).
Proof.
  assert (H0 : 0 <= 8) by (apply Qle_bool_iff; reflexivity).
  assert (H30 : 8 <= 30) by (apply Qle_bool_iff; reflexivity).
  split; [reflexivity|]. split; [reflexivity|].
  split; [exact H0|]. split; [exact H30|].
  exact (final_check_for_output_float_center
           [[PyFloat (Fin 8); PyFloat (Fin 9)]] [[Fin 1; Fin 2]]
           (repeat (Fin 1) 49) (mk_rng (fun i => (7 * i + 3)%nat) 0)
           0%nat 0%nat [PyFloat (Fin 8); PyFloat (Fin 9)] 8
           eq_refl eq_refl H0 H30).
Defined.

Lemma flat_map_length_le {A B : Type} (f : A -> list B) (l : list A) :
  (forall a, (length (f a) <= 1)%nat) ->
  (length (flat_map f l) <= length l)%nat.
Proof.
  intro Hf. induction l as [| a l IH]; [cbn; lia|].
  cbn [flat_map length]. rewrite length_app. specialize (Hf a). lia.
Qed.

Lemma retained_bins_length (pr : list Q) (sr : list fl) :
  (length (retained_bins pr sr) <= 5)%nat.
Proof.
  unfold retained_bins, sorted_params, valid_peak_range.
  rewrite length_map.
  etransitivity; [apply flat_map_length_le|].
  - intro i. destruct (Qle_bool _ _); cbn; lia.
  - rewrite length_seq. unfold np_histogram. cbn [fst].
    now rewrite length_map, length_seq.
Qed.

(** X17. The two sequences returned are parallel and short: they have the
    same length, which is at most five, one entry for each histogram bin
    that is kept. *)
Theorem final_check_for_output_parallel :
  forall (extcv_pks : list (list pynum)) (extcv_std : list (list fl))
         (flatspec : list fl) (g g' : rng) (peaks bws : list fl),
    final_check_for_output extcv_pks extcv_std flatspec g =
      (Ok (peaks, bws), g') ->
    length peaks = length bws /\ (length peaks <= 5)%nat.
Proof.
  intros extcv_pks extcv_std flatspec g g' peaks bws Hrun.
  destruct (rasters extcv_pks extcv_std flatspec) as [[pr sr] | e] eqn:Hr.
  - destruct (final_check_for_output_count extcv_pks extcv_std flatspec
                pr sr g Hr) as (peaks' & bws' & g1 & Hrun' & Hp & Hb).
    rewrite Hrun' in Hrun. injection Hrun as <- <- _.
    split; [congruence|]. rewrite Hp.
    etransitivity; [apply filter_length_le | apply retained_bins_length].
  - unfold final_check_for_output in Hrun. rewrite Hr in Hrun. discriminate.
Qed.

Lemma final_check_for_output_parallel_witness :
  exists peaks bws g',
    final_check_for_output edge_pks edge_std edge_flatspec
                           (mk_rng (fun i => (7 * i + 3)%nat) 0) =
      (Ok (peaks, bws), g') /\
    length peaks = length bws /\ (length peaks <= 5)%nat.
Proof.
  destruct (rasters_total edge_pks edge_std edge_flatspec) as (pr & sr & Hr).
  - unfold edge_flatspec. rewrite repeat_length. lia.
  - constructor; [cbn; lia | constructor].
  - reflexivity.
  - destruct (final_check_for_output_count edge_pks edge_std edge_flatspec
                pr sr (mk_rng (fun i => (7 * i + 3)%nat) 0) Hr)
      as (peaks & bws & g' & Hrun & _).
    exists peaks, bws, g'. split; [exact Hrun|].
    exact (final_check_for_output_parallel _ _ _ _ _ _ _ Hrun).
Defined.

(** ** A consensus bin with a single member *)

Lemma bootstrap_loop_singleton (a : fl) :
  forall (k : nat) (acc : list fl) (g : rng),
    exists g',
      bootstrap_loop [a] k acc g = (Ok (acc ++ repeat NaN k), g').
Proof.
  induction k as [| k IH]; intros acc g.
  - exists g. cbn [bootstrap_loop repeat]. now rewrite app_nil_r.
  - cbn [bootstrap_loop]. unfold bindS at 1.
    change (sample_size (length [a])) with 0%nat.
    cbn [choice seq map].
    change (median []) with NaN.
    destruct (IH (acc ++ [NaN]) (mk_rng (draws g) (cursor g + 0))) as (g' & Hg').
    exists g'. rewrite Hg', <- app_assoc. reflexivity.
Qed.

(** Resampling one element takes [int(0.8)] = 0 elements: every resample is
    empty and the three results are [NaN]. *)
Lemma bootstrap_one_element (a : fl) (g : rng) :
  exists g', bootstrap [a] g = (Ok [NaN; NaN; NaN], g').
Proof.
  destruct (bootstrap_loop_singleton a 1000 [] g) as (g' & Hrun).
  exists g'. unfold bootstrap, bindS. rewrite Hrun. cbn [app].
  unfold retS. do 2 f_equal.
Qed.

(** The final loop only appends to what was accumulated before it. *)
Lemma consensus_loop_acc (params : list (list fl * list fl)) :
  forall (fp fs : list fl) (g : rng),
    consensus_loop params fp fs g =
      (match fst (consensus_loop params [] [] g) with
       | Ok pb => Ok (fp ++ fst pb, fs ++ snd pb)
       | Raise e => Raise e
       end, snd (consensus_loop params [] [] g)).
Proof.
  induction params as [| [pks stds] params IH]; intros fp fs g.
  - cbn. now rewrite !app_nil_r.
  - cbn [consensus_loop].
    destruct (fle (median stds) (Fin 10)); [| apply IH].
    unfold bindS.
    destruct (bootstrap pks g) as [[cf | e] g1]; [| reflexivity].
    destruct (bootstrap _ g1) as [[bw | e] g2]; [| reflexivity].
    rewrite (IH (fp ++ [nth 0 cf NaN]) (fs ++ [nth 0 bw NaN]) g2).
    rewrite (IH ([] ++ [nth 0 cf NaN]) ([] ++ [nth 0 bw NaN]) g2).
    destruct (consensus_loop params [] [] g2) as [[[p b] | e] g3];
      cbn [fst snd app]; [| reflexivity].
    now rewrite <- !app_assoc.
Qed.

(** X18. A consensus bin with a single member is kept when its width is at
    most 10, but resampling one element takes [int(0.8)] = 0 elements: the
    center and the bandwidth returned for such a bin are both [NaN]. *)
Theorem final_check_for_output_single_member :
  forall (extcv_pks : list (list pynum)) (extcv_std : list (list fl))
         (flatspec : list fl)
         (pr : list Q) (sr : list fl) (g g' : rng) (peaks bws : list fl),
    rasters extcv_pks extcv_std flatspec = Ok (pr, sr) ->
    final_check_for_output extcv_pks extcv_std flatspec g =
      (Ok (peaks, bws), g') ->
    forall (k : nat) (c w : fl),
      nth_error (filter passes_width (retained_bins pr sr)) k =
        Some ([c], [w]) ->
      nth_error peaks k = Some NaN /\ nth_error bws k = Some NaN.
Proof.
  intros extcv_pks extcv_std flatspec pr sr g g' peaks bws Hr Hrun.
  unfold final_check_for_output in Hrun. rewrite Hr in Hrun.
  unfold np_histogram at 1 in Hrun.
  change (consensus_loop (retained_bins pr sr) [] [] g = (Ok (peaks, bws), g'))
    in Hrun.
  revert g peaks bws Hrun.
  induction (retained_bins pr sr) as [| [pks stds] params IH];
    intros g peaks bws Hrun k c w Hk.
  - destruct k; discriminate.
  - cbn [filter] in Hk. cbn [consensus_loop] in Hrun.
    change (fle (median stds) (Fin 10)) with (passes_width (pks, stds)) in Hrun.
    destruct (passes_width (pks, stds));
      [| exact (IH g peaks bws Hrun k c w Hk)].
    unfold bindS at 1 in Hrun.
    destruct (bootstrap pks g) as [[cf | e] g1] eqn:Hcf; [| discriminate].
    unfold bindS at 1 in Hrun.
    destruct (bootstrap _ g1) as [[bw | e] g2] eqn:Hbw; [| discriminate].
    rewrite consensus_loop_acc in Hrun.
    destruct (consensus_loop params [] [] g2) as [[[p b] | e] g3] eqn:Hrest;
      cbn [fst snd app] in Hrun; [| discriminate].
    injection Hrun as <- <- <-.
    destruct k as [| k]; cbn [nth_error] in Hk |- *.
    + injection Hk as -> ->.
      destruct (bootstrap_one_element c g) as (g4 & H4).
      rewrite H4 in Hcf. injection Hcf as <- <-.
      cbn [map] in Hbw.
      destruct (bootstrap_one_element (fmul (Fin (2355 # 1000)) w) g4)
        as (g5 & H5).
      rewrite H5 in Hbw. injection Hbw as <- <-.
      split; reflexivity.
    + now apply (IH g2 p b Hrest k c w).
Qed.

Lemma final_check_for_output_single_member_witness :
  rasters [[PyInt 8]] [[Fin 1]] edge_flatspec = Ok ([8], [Fin 1]) /\
  nth_error (filter passes_width (retained_bins [8] [Fin 1])) 0 =
    Some ([Fin 8], [Fin 1]) /\
  final_check_for_output [[PyInt 8]] [[Fin 1]] edge_flatspec
                         (mk_rng (fun i => (7 * i + 3)%nat) 0) =
    (Ok ([NaN], [NaN]), mk_rng (fun i => (7 * i + 3)%nat) 0) /\
  nth_error [NaN] 0 = Some NaN /\ nth_error [NaN] 0 = Some NaN.
Proof.
  assert (Hr : rasters [[PyInt 8]] [[Fin 1]] edge_flatspec = Ok ([8], [Fin 1]))
    by (vm_compute; reflexivity).
  assert (Hk : nth_error (filter passes_width (retained_bins [8] [Fin 1])) 0 =
               Some ([Fin 8], [Fin 1])) by (vm_compute; reflexivity).
  assert (Hrun : final_check_for_output [[PyInt 8]] [[Fin 1]] edge_flatspec
                   (mk_rng (fun i => (7 * i + 3)%nat) 0) =
                 (Ok ([NaN], [NaN]), mk_rng (fun i => (7 * i + 3)%nat) 0))
    by (vm_compute; reflexivity).
  split; [exact Hr|]. split; [exact Hk|]. split; [exact Hrun|].
  exact (final_check_for_output_single_member [[PyInt 8]] [[Fin 1]] edge_flatspec
           [8] [Fin 1] _ _ [NaN] [NaN] Hr Hrun 0%nat (Fin 8) (Fin 1) Hk).
Defined.

(** ** [norm]: outcomes, and the seed it is first called on *)

Module GaussianMore.

Import GaussianModel.
Local Open Scope R_scope.

Lemma nd_add_shaped (x : list R) (fitdat : ndarray) (f : R -> R) :
  shaped x fitdat ->
  shaped x (nd_add fitdat (Vector (map f x))) /\
  exists l, nd_add fitdat (Vector (map f x)) = Vector l.
Proof.
  destruct fitdat as [r | l]; cbn [shaped nd_add]; intro Hshape.
  - split; [now rewrite !length_map | eexists; reflexivity].
  - split; [| eexists; reflexivity].
    rewrite length_map, length_combine, length_map. lia.
Qed.

Lemma norm_loop_runs (x args : list R) (k : nat) :
  forall (n i : nat) (fitdat : ndarray),
    (i + n <= k)%nat -> (1 <= n -> 3 * k <= length args)%nat ->
    shaped x fitdat ->
    exists fit,
      norm_loop x args k (seq i n) fitdat = Ok fit /\ shaped x fit /\
      ((1 <= n)%nat -> exists l, fit = Vector l) /\
      (n = 0%nat -> fit = fitdat).
Proof.
  induction n as [| n IH]; intros i fitdat Hin Hlen Hshape.
  - exists fitdat. cbn [seq norm_loop].
    repeat split; [exact Hshape | lia].
  - cbn [seq norm_loop].
    specialize (Hlen ltac:(lia)).
    rewrite (GaussianFacts.getitem_nth args (i + 2 * k) 0) by lia.
    rewrite (GaussianFacts.getitem_nth args i 0) by lia.
    rewrite (GaussianFacts.getitem_nth args (i + k) 0) by lia.
    cbn [bind].
    set (curve := fun xi : R => (_ * norm_pdf xi _ _)%R).
    destruct (nd_add_shaped x fitdat curve Hshape) as [Hshape' Hv].
    destruct (IH (S i) (nd_add fitdat (Vector (map curve x)))
                ltac:(lia) ltac:(lia) Hshape')
      as (fit & Hrun & Hfit & Hvec & Hzero).
    exists fit. split; [exact Hrun|]. split; [exact Hfit|].
    split; [intros _ | lia].
    destruct n as [| n].
    + rewrite (Hzero eq_refl). exact Hv.
    + apply Hvec. lia.
Qed.

Lemma getitem_out {A : Type} (l : list A) (i : nat) :
  (length l <= i)%nat -> getitem l i = Raise IndexError.
Proof.
  intro Hi. unfold getitem.
  now rewrite (proj2 (nth_error_None l i) Hi).
Qed.

Lemma norm_loop_short (x args : list R) (k : nat) :
  forall (n i : nat) (fitdat : ndarray),
    (1 <= n)%nat -> (length args < i + n + 2 * k)%nat ->
    norm_loop x args k (seq i n) fitdat = Raise IndexError.
Proof.
  induction n as [| n IH]; intros i fitdat Hn Hlen; [lia|].
  cbn [seq norm_loop].
  destruct (le_lt_dec (length args) (i + 2 * k)) as [Hout | Hin].
  - now rewrite getitem_out.
  - rewrite (GaussianFacts.getitem_nth args (i + 2 * k) 0) by lia.
    rewrite (GaussianFacts.getitem_nth args i 0) by lia.
    rewrite (GaussianFacts.getitem_nth args (i + k) 0) by lia.
    cbn [bind]. apply IH; lia.
Qed.

Lemma rev_last_cons {A : Type} (l : list A) (a : A) (t : list A) (d : A) :
  rev l = a :: t -> last l d = a /\ l <> [].
Proof.
  intro H. apply (f_equal (@rev A)) in H. rewrite rev_involutive in H.
  subst l. cbn [rev]. rewrite last_last. split; [reflexivity|].
  intro E. apply (f_equal (@length A)) in E.
  rewrite length_app in E. cbn in E. lia.
Qed.

(** X19. What [norm] answers is decided by the count held in the last
    parameter, truncated: it raises [IndexError] exactly when there is no
    parameter or fewer than three per declared component; with a count that
    truncates to zero or less it returns the zero-dimensional 0, whatever
    [x] is; otherwise it returns a vector as long as [x]. *)
Theorem norm_outcome :
  forall (x args : list R),
    match norm x args with
    | Raise e =>
        e = IndexError /\
        (args = [] \/
         (length args < 3 * Z.to_nat (int_of (last args 0%R)))%nat)
    | Ok (Scalar r) =>
        r = 0 /\ args <> [] /\ Z.to_nat (int_of (last args 0%R)) = 0%nat
    | Ok (Vector l) =>
        length l = length x /\
        (1 <= Z.to_nat (int_of (last args 0%R)))%nat /\
        (3 * Z.to_nat (int_of (last args 0%R)) <= length args)%nat
    end.
Proof.
  intros x args. unfold norm.
  destruct (rev args) as [| last_arg t] eqn:Hrev.
  - split; [reflexivity|]. left.
    apply (f_equal (@rev R)) in Hrev. now rewrite rev_involutive in Hrev.
  - destruct (rev_last_cons args last_arg t 0 Hrev) as [-> Hne].
    set (k := Z.to_nat (int_of last_arg)).
    destruct (Nat.eq_dec k 0) as [Hk | Hk].
    + rewrite Hk. cbn [seq norm_loop]. repeat split; assumption.
    + destruct (le_lt_dec (3 * k) (length args)) as [Hfit | Hshort].
      * destruct (norm_loop_runs x args k k 0 (Scalar 0) ltac:(lia)
                    ltac:(lia) I) as (fit & -> & Hshape & Hvec & _).
        destruct (Hvec ltac:(lia)) as (l & ->).
        cbn [shaped] in Hshape. repeat split; [exact Hshape | lia | lia].
      * rewrite (norm_loop_short x args k k 0 (Scalar 0)) by lia.
        split; [reflexivity|]. right. exact Hshort.
Qed.

Import SeedModel.

Lemma fancy_length (a : list R) (ind : list nat) (vs : list R) :
  fancy a ind = Ok vs -> length vs = length ind.
Proof.
  revert vs. induction ind as [| i ind IH]; intros vs H; cbn [fancy] in H.
  - injection H as <-. reflexivity.
  - destruct (getitem a i) as [v | e]; [| discriminate]. cbn [bind] in H.
    destruct (fancy a ind) as [ws | e]; [| discriminate]. cbn [bind] in H.
    injection H as <-. cbn [length]. now rewrite (IH ws eq_refl).
Qed.

Lemma linspace_one_to_n (n : nat) :
  linspace 1 (INR n) n = map (fun i => INR (S i)) (seq 0 n).
Proof.
  unfold linspace. apply map_ext_in. intros i Hi. apply in_seq in Hi.
  rewrite S_INR.
  destruct n as [| [| n]]; [lia | |].
  - replace i with 0%nat by lia. cbn [INR]. ring.
  - replace (S (S n) - 1)%nat with (S n) by lia.
    rewrite (S_INR (S n)).
    assert (Hpos : INR (S n) <> 0) by (apply not_0_INR; lia).
    field. exact Hpos.
Qed.

(** X20. The seed handed to the curve fit is a parameter vector [norm]
    accepts: as many centers, read from the frequency vector at the cluster
    centers kept, as widths 1, 2, ..., n and as heights, twice the spectrum
    there, closed by the count n.  On it [norm] does not fail and returns,
    at each frequency point, the sum of these n weighted normal densities. *)
Theorem seed_params_fit_norm :
  forall (freq_vector flatspec_train cluster_all seed x : list R),
    params freq_vector flatspec_train cluster_all = Ok seed ->
    exists centers heights,
      fancy freq_vector (peakind cluster_all) = Ok centers /\
      fancy flatspec_train (peakind cluster_all) = Ok heights /\
      seed = pack centers
                  (map (fun i => INR (S i)) (seq 0 (length (peakind cluster_all))))
                  (map (fun h => h * 2) heights)
                  (length (peakind cluster_all)) /\
      exists fit,
        norm x seed = Ok fit /\
        forall j, (j < length x)%nat ->
          nd_get fit j =
            mixture centers
                    (map (fun i => INR (S i))
                         (seq 0 (length (peakind cluster_all))))
                    (map (fun h => h * 2) heights) (nth j x 0).
Proof.
  intros freq_vector flatspec_train cluster_all seed x Hseed.
  unfold params in Hseed.
  destruct (fancy freq_vector (peakind cluster_all)) as [centers | e] eqn:Hc;
    [| discriminate].
  cbn [bind] in Hseed.
  destruct (fancy flatspec_train (peakind cluster_all)) as [heights | e] eqn:Hh;
    [| discriminate].
  cbn [bind] in Hseed. rewrite linspace_one_to_n in Hseed.
  exists centers, heights. split; [reflexivity|]. split; [reflexivity|].
  assert (Hs : seed = pack centers
                  (map (fun i => INR (S i)) (seq 0 (length (peakind cluster_all))))
                  (map (fun h => h * 2) heights)
                  (length (peakind cluster_all))) by (unfold pack; congruence).
  split; [exact Hs|]. rewrite Hs. clear Hs Hseed.
  apply fancy_length in Hc, Hh.
  set (n := length (peakind cluster_all)) in *.
  unfold norm, pack. rewrite !rev_app_distr. cbn [rev app].
  rewrite GaussianFacts.int_of_INR, Nat2Z.id.
  destruct (GaussianFacts.norm_loop_sum centers
              (map (fun i => INR (S i)) (seq 0 n))
              (map (fun h => h * 2) heights) n Hc
              ltac:(now rewrite length_map, length_seq)
              ltac:(now rewrite length_map)
              x n 0%nat (Scalar 0) eq_refl I) as (fit & Hrun & Hfit).
  exists fit. split; [exact Hrun|].
  intros j Hj. rewrite (Hfit j Hj). cbn [nd_get skipn]. ring.
Qed.

Lemma seed_params_fit_norm_witness :
  exists centers heights,
    fancy [0; 4; 8; 12] (peakind [2; 45; 1]) = Ok centers /\
    fancy [3; 5; 7; 9] (peakind [2; 45; 1]) = Ok heights /\
    pack [8; 4] [1; 2] [14; 10] 2 =
      pack centers
           (map (fun i => INR (S i)) (seq 0 (length (peakind [2; 45; 1]))))
           (map (fun h => h * 2) heights)
           (length (peakind [2; 45; 1])) /\
    exists fit,
      norm [6; 7] (pack [8; 4] [1; 2] [14; 10] 2) = Ok fit /\
      forall j, (j < length [6; 7])%nat ->
        nd_get fit j =
          mixture centers
                  (map (fun i => INR (S i))
                       (seq 0 (length (peakind [2; 45; 1]))))
                  (map (fun h => h * 2) heights) (nth j [6; 7] 0).
Proof.
  refine (seed_params_fit_norm [0; 4; 8; 12] [3; 5; 7; 9] [2; 45; 1]
            (pack [8; 4] [1; 2] [14; 10] 2) [6; 7] _).
  assert (Hind : peakind [2; 45; 1] = [2%nat; 1%nat]).
  { unfold peakind, in_seed_band. cbn [filter].
    destruct (Rle_dec 1 2) as [_ | H]; [| exfalso; apply H; Lra.lra].
    destruct (Rle_dec 2 30) as [_ | H]; [| exfalso; apply H; Lra.lra].
    destruct (Rle_dec 1 45) as [_ | H]; [| exfalso; apply H; Lra.lra].
    destruct (Rle_dec 45 30) as [H | _]; [exfalso; Lra.lra |].
    destruct (Rle_dec 1 1) as [_ | H]; [| exfalso; apply H; Lra.lra].
    destruct (Rle_dec 1 30) as [_ | H]; [| exfalso; apply H; Lra.lra].
    cbn [map].
    change 2 with (INR 2). change 1 with (INR 1).
    now rewrite !GaussianFacts.int_of_INR. }
  unfold params. rewrite Hind.
  cbn [fancy getitem nth_error bind length].
  rewrite linspace_one_to_n. cbn [seq map app pack].
  replace (INR 1) with 1 by (cbn [INR]; Lra.lra).
  replace (7 * 2) with 14 by Lra.lra.
  replace (5 * 2) with 10 by Lra.lra.
  replace (INR 2) with 2 by (cbn [INR]; Lra.lra).
  reflexivity.
Defined.

End GaussianMore.
